(** * Risk engine: simulation and amortisation core

    A shallow embedding of the Python risk engine (historical ratio model,
    ratio sampler, retention-curve sampler, cohort cash-flow projector, loan
    amortiser and return-cap engine) together with the properties stated for
    it.

    Numbers: Python floats are modelled by exact rationals [Q]; equalities
    between computed amounts are therefore stated with [==].  The two float
    primitives that have no rational counterpart, [x ** e] with a fractional
    exponent and the external root finder [numpy_financial.irr], are taken as
    parameters of the sections that use them.

    Months: the dictionaries of the historical series are keyed by month
    names; the library parser [datetime.strptime] and the order in which
    Python enumerates a set are parameters as well. *)

From stdpp Require Import gmap list sorting strings.
From Stdlib Require Import Ascii QArith Qabs Qpower Lqa Lia.

Open Scope Q_scope.

(** ** Python values and builtins *)

Module Py.

(** The exceptions the modelled functions can raise; [LibraryError] stands
    for whatever an external library call raises. *)
Inductive exn : Type :=
| ValueError
| ZeroDivisionError
| IndexError
| LibraryError.

Inductive result (A : Type) : Type :=
| Ok (a : A)
| Raise (e : exn).

Arguments Ok {A} a.
Arguments Raise {A} e.

Definition bind {A B : Type} (r : result A) (k : A -> result B) : result B :=
  match r with
  | Ok a => k a
  | Raise e => Raise e
  end.

(** [min(a, b)]: the first of the smallest arguments. *)
Definition min (a b : Q) : Q := if Qlt_le_dec b a then b else a.

(** [max(a, b)]: the first of the largest arguments. *)
Definition max (a b : Q) : Q := if Qlt_le_dec a b then b else a.

(** [a / b] on floats raises [ZeroDivisionError] when [b] is zero. *)
Definition div (a b : Q) : result Q :=
  if Qeq_bool b 0 then Raise ZeroDivisionError else Ok (a / b).

(** [sum(l)] *)
Definition sum (l : list Q) : Q := fold_left Qplus l 0.

End Py.

#[global] Instance result_ret : MRet Py.result := @Py.Ok.
#[global] Instance result_bind : MBind Py.result := fun A B k r => Py.bind r k.

(** Bisection on a decreasing predicate: a concrete, executable stand-in for
    [x ** e], used to run the model on concrete inputs. *)
Fixpoint bisect (keep : Q -> bool) (lo hi : Q) (steps : nat) : Q :=
  match steps with
  | O => lo
  | S n =>
      let mid := Qred ((lo + hi) / 2) in
      if keep mid then bisect keep mid hi n else bisect keep lo mid n
  end.

(** [pow_approx x (p/q)] is a dyadic lower approximation of [x ** (p/q)]:
    the largest point [y] reached by 48 bisection steps with [y^q <= x^p]. *)
Definition pow_approx (x e : Q) : Q :=
  let target := Qpower x (Qnum e) in
  let lo := if Qle_bool 1 target then 1 else 0 in
  let hi := if Qle_bool 1 target then 1 + target else 1 in
  bisect (fun y => Qle_bool (Qpower y (Zpos (Qden e))) target) lo hi 48.

(** ** LoanAmortizer: [lender_cashflow_calculator.py] *)

Module LoanAmortizer.

Import Py.

Record loan_info : Type := {
  loan_amount : Q;
  total_payments_received : Q;
  final_outstanding_principal : Q;
  net_return : Q;
  monthly_interest_rate : Q;
  loan_percentage : Q;
  yearly_interest_rate : Q
}.

Section Amortizer.

(** Python's [**] on floats, as used with a base that is not negative.  For
    a yearly rate below -100% the base [1 + yearly_interest_rate] is
    negative, Python's power is a complex number and the [min] of the loop
    raises [TypeError] in the first month with a positive flow: the model
    covers yearly rates of -100% and more. *)
Variable float_pow : Q -> Q -> Q.

(** [(1 + yearly_interest_rate) ** (1/12) - 1] *)
Definition monthly_rate (yearly : Q) : Q :=
  float_pow (1 + yearly) (1 / 12) - 1.

(** The locals of the [else] branch of the loop body. *)
Definition max_payment (lp flow : Q) : Q := flow * lp.
Definition interest_payment (rate outstanding : Q) : Q := outstanding * rate.
Definition available_principal_payment (lp rate outstanding flow : Q) : Q :=
  max_payment lp flow - interest_payment rate outstanding.
Definition actual_principal_payment (lp rate outstanding flow : Q) : Q :=
  Py.min (available_principal_payment lp rate outstanding flow) outstanding.

(** One iteration of the loop: the payment appended to [lender_cashflows]
    and the updated [outstanding_principal]. *)
Definition process_month (lp rate outstanding flow : Q) : Q * Q :=
  if Qlt_le_dec 0 flow then
    let principal := actual_principal_payment lp rate outstanding flow in
    (interest_payment rate outstanding + principal, outstanding - principal)
  else
    (0, outstanding).

(** The [for] loop over [original_cashflows[1:]]. *)
Fixpoint process_flows (lp rate outstanding : Q) (flows : list Q) : list Q * Q :=
  match flows with
  | [] => ([], outstanding)
  | flow :: rest =>
      let '(payment, outstanding') := process_month lp rate outstanding flow in
      let '(payments, final) := process_flows lp rate outstanding' rest in
      (payment :: payments, final)
  end.

Definition calculate_lender_cashflows
    (original_cashflows : list Q) (lp yearly : Q) : result (list Q * loan_info) :=
  match original_cashflows with
  | [] | [_] => Raise ValueError
  | first :: flows =>
      if Qle_bool 0 first then Raise ValueError
      else
        let rate := monthly_rate yearly in
        let loan := first * lp in
        let '(payments, final) := process_flows lp rate (Qabs loan) flows in
        let total_payments := Py.sum payments in
        Ok (loan :: payments,
            {| loan_amount := Qabs loan;
               total_payments_received := total_payments;
               final_outstanding_principal := final;
               net_return := total_payments - Qabs loan;
               monthly_interest_rate := rate;
               loan_percentage := lp;
               yearly_interest_rate := yearly |})
  end.

(** *** Observations on a run *)

(** [outstanding_principal] when the loop reaches month [k] (0-based
    position in [original_cashflows[1:]]). *)
Definition outstanding_before (lp rate outstanding : Q) (flows : list Q) (k : nat) : Q :=
  snd (process_flows lp rate outstanding (take k flows)).

(** The principal repaid in a month: [actual_principal_payment] in the
    paying branch, nothing in the other. *)
Definition principal_paid (lp rate outstanding flow : Q) : Q :=
  if Qlt_le_dec 0 flow then actual_principal_payment lp rate outstanding flow else 0.

(** Principal repaid during the first [k] months. *)
Fixpoint cumulative_principal (lp rate outstanding : Q) (flows : list Q) (k : nat) : Q :=
  match k, flows with
  | S k', flow :: rest =>
      principal_paid lp rate outstanding flow
      + cumulative_principal lp rate (snd (process_month lp rate outstanding flow)) rest k'
  | _, _ => 0
  end.

(** The principal payment as the specification words it:
    [min(maxPayment - interest, outstanding)], clamped below at 0. *)
Definition clamped_principal_payment (lp rate outstanding flow : Q) : Q :=
  Py.max 0 (Py.min (flow * lp - outstanding * rate) outstanding).

(** The validation at the head of [calculate_lender_cashflows]. *)
Definition accepted (original_cashflows : list Q) : Prop :=
  (2 <= length original_cashflows)%nat /\ hd 0 original_cashflows < 0.

(** [abs(loan_amount)], the principal the loop starts from. *)
Definition initial_principal (original_cashflows : list Q) (lp : Q) : Q :=
  Qabs (hd 0 original_cashflows * lp).

(** [outstanding_principal] once the loop has handled months [1..k]. *)
Definition owed_after (original_cashflows : list Q) (lp yearly : Q) (k : nat) : Q :=
  outstanding_before lp (monthly_rate yearly)
    (initial_principal original_cashflows lp) (tl original_cashflows) k.

(** Principal repaid over months [1..k]. *)
Definition repaid_after (original_cashflows : list Q) (lp yearly : Q) (k : nat) : Q :=
  cumulative_principal lp (monthly_rate yearly)
    (initial_principal original_cashflows lp) (tl original_cashflows) k.

End Amortizer.

End LoanAmortizer.

(** ** ReturnCapEngine: [fund_performance_model.py] and the summary table of
    [transform_to_lender_cashflows_backup.py] *)

Module ReturnCapEngine.

Import Py.

(** What a call of [numpy_financial.irr] can do: return a finite monthly
    rate, return [nan] (no real positive root), or raise. *)
Inductive irr_outcome : Type :=
| IrrFinite (r : Q)
| IrrNaN
| IrrRaise.

Record fund_result : Type := {
  loan_amount : Q;
  target_irr : Q;
  actual_irr : Q;
  target_return_amount : Q;
  final_return : Q;
  actual_return_pct : Q;
  months_to_target : option nat;
  months_to_max_years : option Z;
  return_reached : bool;
  cumulative_return : Q;
  final_cumulative_return : Q;
  monthly_returns : list Q;
  final_monthly_returns : list Q
}.

(** [(1 + irr_monthly) ** 12 - 1] *)
Definition annualized (irr_monthly : Q) : Q := Qpower (1 + irr_monthly) 12 - 1.

(** [for i in range(start, len(l)): l[i] = 0] *)
Definition zero_from (start : nat) (l : list Q) : list Q :=
  foldl (fun acc i => <[i := 0]> acc) l (seq start (length l - start)).

Section Engine.

Variable float_pow : Q -> Q -> Q.
Variable irr : list Q -> irr_outcome.

(** The first loop: 80% of each positive gross profit, 0 otherwise;
    indexing past the end of the series raises. *)
Fixpoint collect_returns (gross_profit_series : list (option Q)) (months : list nat)
    : result (list Q * Q) :=
  match months with
  | [] => Ok ([], 0)
  | month :: rest =>
      match gross_profit_series !! month with
      | None => Raise IndexError
      | Some gp =>
          match collect_returns gross_profit_series rest with
          | Raise e => Raise e
          | Ok (returns, cumulative) =>
              match gp with
              | Some g =>
                  if Qlt_le_dec 0 g
                  then Ok (g * (8 # 10) :: returns, g * (8 # 10) + cumulative)
                  else Ok (0 :: returns, cumulative)
              | None => Ok (0 :: returns, cumulative)
              end
          end
      end
  end.

Definition calculate_simple_irr (loan : Q) (returns : list Q) : Q :=
  if Qle_bool loan 0 then 0
  else
    let total_return := Py.sum returns in
    if Qle_bool total_return 0 then - (1)
    else
      let avg_month :=
        Py.sum (imap (fun i ret => if Qlt_le_dec 0 ret then inject_Z (Z.of_nat i) * ret else 0)
                  returns) / total_return in
      let avg_years := avg_month / 12 in
      if Qlt_le_dec 0 avg_years
      then float_pow (total_return / loan) (1 / avg_years) - 1
      else 0.

Definition calculate_target_return_for_irr (loan target : Q) (months : Z) : Q :=
  if (months <=? 0)%Z then loan * target
  else
    let monthly_irr := float_pow (1 + target) (1 / 12) - 1 in
    let target_fv := loan * Qpower (1 + monthly_irr) months in
    target_fv - loan.

(** The search loop: the first month whose partial cash flow has an IRR
    that is defined and at least [target]; a call that raises is skipped. *)
Fixpoint find_target_month (loan target : Q) (returns : list Q) (months : list nat)
    : option nat :=
  match months with
  | [] => None
  | month :: rest =>
      let partial_cash_flow := - loan :: take (S month) returns in
      match irr partial_cash_flow with
      | IrrFinite partial_irr =>
          if Qle_bool target partial_irr then Some (S month)
          else find_target_month loan target returns rest
      | IrrNaN | IrrRaise => find_target_month loan target returns rest
      end
  end.

Definition calculate_fund_returns_for_cohort
    (sm_value : Q) (gross_profit_series : list (option Q)) (target : Q) (max_years : Z)
    : result fund_result :=
  let loan := sm_value * (8 # 10) in
  match collect_returns gross_profit_series
          (seq 0 (Z.to_nat (Z.min 60 (max_years * 12)))) with
  | Raise e => Raise e
  | Ok (returns, cumulative) =>
      let to_max_years :=
        if (max_years * 12 <=? Z.of_nat (length returns))%Z
        then Some (max_years * 12)%Z else None in
      let cash_flow := - loan :: returns in
      (* first estimate; only [ImportError] is handled around it *)
      let first_call :=
        if ((1 <? length cash_flow)%nat && negb (Qle_bool 0 (- loan)))%bool
        then irr cash_flow else IrrNaN in
      match first_call with
      | IrrRaise => Raise LibraryError
      | IrrFinite _ | IrrNaN =>
          let reached := find_target_month loan target returns (seq 0 (length returns)) in
          let final_returns :=
            match reached with
            | Some m => zero_from m returns
            | None => returns
            end in
          let final_cumulative := Py.sum final_returns in
          let final_irr :=
            match irr (- loan :: final_returns) with
            | IrrFinite r => r
            | IrrNaN => 0
            | IrrRaise => calculate_simple_irr loan final_returns
            end in
          let months :=
            match reached with
            | Some m => Z.of_nat m
            | None => (max_years * 12)%Z
            end in
          Ok {| loan_amount := loan;
                target_irr := target;
                actual_irr := final_irr;
                target_return_amount := calculate_target_return_for_irr loan target months;
                final_return := final_cumulative;
                actual_return_pct :=
                  if Qlt_le_dec 0 loan then final_cumulative / loan else 0;
                months_to_target := reached;
                months_to_max_years := to_max_years;
                return_reached := if reached is Some _ then true else false;
                cumulative_return := cumulative;
                final_cumulative_return := final_cumulative;
                monthly_returns := take 60 returns;
                final_monthly_returns := take 60 final_returns |}
      end
  end.

(** *** Summary table: [calculate_irr] and the IRR cell of a row *)

(** Column sums are floats; [None] stands for a [nan] or infinite sum,
    which [calculate_irr] filters out.  Any exception is caught. *)
Definition calculate_irr (cashflows : list (option Q)) : option Q :=
  let cashflows := omap id cashflows in
  if (length cashflows <? 2)%nat then None
  else
    match irr cashflows with
    | IrrFinite irr_monthly => Some (annualized irr_monthly)
    | IrrNaN | IrrRaise => None
    end.

(** [irr_yearly if irr_yearly is not None else 0] *)
Definition summary_irr_cell (column_sums : list (option Q)) : Q :=
  match calculate_irr (take 60 column_sums) with
  | Some irr_yearly => irr_yearly
  | None => 0
  end.

(** *** The capping rule as the specification words it *)

(** The first prefix length [m] whose annualised IRR,
    [(1 + monthlyIRR)^12 - 1], reaches the target. *)
Fixpoint spec_find_target_month (loan target : Q) (returns : list Q) (months : list nat)
    : option nat :=
  match months with
  | [] => None
  | month :: rest =>
      match irr (- loan :: take (S month) returns) with
      | IrrFinite monthly =>
          if Qle_bool target (annualized monthly) then Some (S month)
          else spec_find_target_month loan target returns rest
      | IrrNaN | IrrRaise => spec_find_target_month loan target returns rest
      end
  end.

End Engine.

(** *** An executable root finder, to run the engine on concrete inputs *)

(** Net present value at discount factor [x = 1 + r], by Horner's rule. *)
Fixpoint npv (x : Q) (cash_flow : list Q) : Q :=
  match cash_flow with
  | [] => 0
  | c :: rest => Qred (c + npv x rest / x)
  end.

(** Bisection for the rate in [[-1/2, 16]] at which the net present value
    changes sign; [nan] when it does not change sign there. *)
Definition irr_bisect (cash_flow : list Q) : irr_outcome :=
  let positive r := Qle_bool 0 (npv (1 + r) cash_flow) in
  if (positive (- (1 # 2)) && negb (positive 16))%bool
  then IrrFinite (bisect positive (- (1 # 2)) 16 40)
  else IrrNaN.

End ReturnCapEngine.

(** ** The random source

    [random.random()] and the index [random.choice] picks are operations on
    an explicit generator state. *)

Class RandomSource (G : Type) : Type := {
  random : G -> Q * G;
  randbelow : nat -> G -> nat * G
}.

(** A generator never picks an index outside the sequence. *)
Class RandomSourceInRange (G : Type) `{RandomSource G} : Prop :=
  randbelow_lt : forall n g, (0 < n)%nat -> (fst (randbelow n g) < n)%nat.

(** [random.choice(seq)]; [None] stands for an index past the end. *)
Definition choice `{RandomSource G} {A : Type} (seq : list A) (g : G) : option A * G :=
  let '(i, g') := randbelow (length seq) g in (seq !! i, g').

(** A generator that replays recorded 32-bit outputs, to run the samplers
    on concrete inputs. *)
Definition replay : Type := list nat.

#[global] Instance replay_source : RandomSource replay := {
  random g := (inject_Z (Z.of_nat (hd O g)) / inject_Z (2 ^ 32), tl g);
  randbelow n g := ((hd O g) mod n, tl g)%nat
}.

(** ** Month names and their order

    The dictionaries are keyed by month names, of some type [K].
    [datetime.strptime(month_str, "%B %Y")] is a library function:
    [strptime] gives the date it returns, counted in months
    ([12 * year + month - 1]), and [None] when it raises [ValueError].  The
    order in which Python enumerates a set, or the keys of a dictionary, is
    taken as given as well: [listing] is some enumeration without
    repetition. *)

Class MonthNames (K : Type) `{Countable K} : Type := {
  strptime : K -> option Z;
  listing : gset K -> list K;
  listing_perm : forall s : gset K, listing s ≡ₚ elements s
}.

(** [month_to_datetime]: a name that does not parse counts as
    [datetime(1900, 1, 1)]. *)
Definition month_to_datetime `{MonthNames K} (month_str : K) : Z :=
  match strptime month_str with
  | Some date => date
  | None => (12 * 1900)%Z
  end.

(** [l.sort(key=key)]: Python's sort is stable, entries with equal keys keep
    their order. *)
Fixpoint insert_by_key {A : Type} (key : A -> Z) (x : A) (sorted : list A) : list A :=
  match sorted with
  | [] => [x]
  | y :: rest =>
      if (key x <=? key y)%Z then x :: y :: rest else y :: insert_by_key key x rest
  end.

Definition sort_by_key {A : Type} (key : A -> Z) (l : list A) : list A :=
  foldr (insert_by_key key) [] l.

(** Months named by their rank: every name parses, to a date of its own. *)
#[global] Instance rank_months : MonthNames nat := {|
  strptime n := Some (Z.of_nat n);
  listing := elements;
  listing_perm s := Permutation_refl (elements s)
|}.

(** An executable stand-in for [strptime] with the format ["%B %Y"], to run
    the model on month names.  It reads a full English month name, one space
    and a year of four digits, in this spelling only (Python also accepts
    other letter cases and wider spacing), and rejects, as Python does,
    abbreviated month names and the year 0000. *)
Fixpoint split_at_space (s : string) : option (string * string) :=
  match s with
  | EmptyString => None
  | String c rest =>
      if Ascii.eqb c " "%char then Some (EmptyString, rest)
      else
        match split_at_space rest with
        | Some (name, year) => Some (String c name, year)
        | None => None
        end
  end.

Definition digit (c : Ascii.ascii) : option Z :=
  let n := Z.of_N (Ascii.N_of_ascii c) in
  if ((48 <=? n) && (n <=? 57))%Z then Some (n - 48)%Z else None.

Definition four_digits (s : string) : option Z :=
  match s with
  | String a (String b (String c (String d EmptyString))) =>
      match digit a, digit b, digit c, digit d with
      | Some a, Some b, Some c, Some d => Some (1000 * a + 100 * b + 10 * c + d)%Z
      | _, _, _, _ => None
      end
  | _ => None
  end.

Definition month_names : list string :=
  ["January"; "February"; "March"; "April"; "May"; "June"; "July"; "August";
   "September"; "October"; "November"; "December"]%string.

Definition strptime_month_year (s : string) : option Z :=
  match split_at_space s with
  | Some (name, year) =>
      match list_find (fun n => n = name) month_names, four_digits year with
      | Some (index, _), Some y =>
          if (y =? 0)%Z then None else Some (12 * y + Z.of_nat index)%Z
      | _, _ => None
      end
  | None => None
  end.

#[global] Instance english_months : MonthNames string := {|
  strptime := strptime_month_year;
  listing := elements;
  listing_perm s := Permutation_refl (elements s)
|}.

(** ** HistoricalRatioModel: [prediction_engine.py] *)

Module HistoricalRatioModel.

Import Py.

Record algorithm_data : Type := {
  heads_percentage : Q;
  heads_percentage_overall : Q;
  heads_percentage_last_12 : Q;
  distribution : list Q;
  cac_12m : Q;
  historical_ratios : list (option Q);
  conservative : bool
}.

(** [l[-12:] if len(l) >= 12 else l] *)
Definition last_12 {A : Type} (l : list A) : list A :=
  if (12 <=? length l)%nat then drop (length l - 12) l else l.

Section Model.

Context `{MonthNames K}.

(** [all_months = list(set(sm_dict.keys()) | set(revenue_dict.keys()))]
    followed by [all_months.sort(key=month_to_datetime)] *)
Definition all_months (sm_dict : gmap K Q) (revenue_dict : gmap K (option Q)) : list K :=
  sort_by_key month_to_datetime (listing (dom sm_dict ∪ dom revenue_dict)).

(** The ratio of one month: [sm / revenue] when the revenue is a positive
    number, [None] otherwise. *)
Definition month_ratio (sm_dict : gmap K Q) (revenue_dict : gmap K (option Q))
    (month : K) : option Q :=
  let sm := default 0 (sm_dict !! month) in
  match default (Some 0) (revenue_dict !! month) with
  | Some revenue => if Qlt_le_dec 0 revenue then Some (sm / revenue) else None
  | None => None
  end.

(** [ratio is None or not math.isfinite(ratio) or ratio > 10000]; every
    rational is finite. *)
Definition is_heads (ratio : option Q) : bool :=
  match ratio with
  | None => true
  | Some r => if Qlt_le_dec 10000 r then true else false
  end.

Definition heads_count (ratios : list (option Q)) : nat :=
  length (filter (fun r => is_heads r = true) ratios).

(** [count / len(ratios) if ratios else 0] *)
Definition heads_fraction (ratios : list (option Q)) : Q :=
  match ratios with
  | [] => 0
  | _ => inject_Z (Z.of_nat (heads_count ratios)) / inject_Z (Z.of_nat (length ratios))
  end.

(** [sum((d.get(month, 0) or 0) for month in months)] *)
Definition sum_sm (sm_dict : gmap K Q) (months : list K) : Q :=
  Py.sum (map (fun m => default 0 (sm_dict !! m)) months).
Definition sum_revenue (revenue_dict : gmap K (option Q)) (months : list K) : Q :=
  Py.sum (map (fun m => default 0 (default (Some 0) (revenue_dict !! m))) months).

Definition calculate_12_month_cac (sm_dict : gmap K Q) (revenue_dict : gmap K (option Q)) : Q :=
  let months := all_months sm_dict revenue_dict in
  let last_12_months := last_12 months in
  let total_sm_12m := sum_sm sm_dict last_12_months in
  let total_revenue_12m := sum_revenue revenue_dict last_12_months in
  let cac := if Qlt_le_dec 0 total_revenue_12m then total_sm_12m / total_revenue_12m else 0 in
  if (24 <=? length months)%nat then
    let prev_12_months := take 12 (drop (length months - 24) months) in
    let sm_diff := sum_sm sm_dict last_12_months - sum_sm sm_dict prev_12_months in
    let rev_diff :=
      sum_revenue revenue_dict last_12_months - sum_revenue revenue_dict prev_12_months in
    let marginal_cac := if Qlt_le_dec 0 rev_diff then sm_diff / rev_diff else 0 in
    Py.max cac marginal_cac
  else cac.

Definition build_prediction_algorithm
    (sm_dict : gmap K Q) (revenue_dict : gmap K (option Q)) (conservative : bool)
    : algorithm_data :=
  let months := all_months sm_dict revenue_dict in
  let ratios := map (month_ratio sm_dict revenue_dict) months in
  let monthly_ratios : gmap K (option Q) :=
    foldl (fun d month => <[month := month_ratio sm_dict revenue_dict month]> d) ∅ months in
  let overall := heads_fraction ratios in
  let last_12_months := last_12 months in
  let last_12_ratios := omap (fun month => monthly_ratios !! month) last_12_months in
  let last := heads_fraction last_12_ratios in
  {| heads_percentage := if conservative then Py.max overall last else overall;
     heads_percentage_overall := overall;
     heads_percentage_last_12 := last;
     distribution :=
       omap (fun ratio =>
               match ratio with
               | Some r => if Qlt_le_dec r 10000 then Some r else None
               | None => None
               end) ratios;
     cac_12m := calculate_12_month_cac sm_dict revenue_dict;
     historical_ratios := ratios;
     conservative := conservative |}.

(** *** The fractions as the specification words them *)

(** A month counts when its ratio is undefined (the revenue is not a
    positive number) or exceeds 10000. *)
Definition undefined_or_large (sm_dict : gmap K Q) (revenue_dict : gmap K (option Q))
    (month : K) : bool :=
  match default (Some 0) (revenue_dict !! month) with
  | Some revenue =>
      if Qlt_le_dec 0 revenue
      then (if Qlt_le_dec 10000 (default 0 (sm_dict !! month) / revenue) then true else false)
      else true
  | None => true
  end.

(** The fraction of the listed months that satisfy [p]. *)
Definition fraction_of (p : K -> bool) (months : list K) : Q :=
  match months with
  | [] => 0
  | _ => inject_Z (Z.of_nat (length (filter (fun m => p m = true) months)))
         / inject_Z (Z.of_nat (length months))
  end.

(** The month's ratio exceeds 10000 (given a positive revenue). *)
Definition ratio_exceeds (sm_dict : gmap K Q) (revenue_dict : gmap K (option Q))
    (month : K) : bool :=
  match revenue_dict !! month with
  | Some (Some revenue) =>
      if Qlt_le_dec 10000 (default 0 (sm_dict !! month) / revenue) then true else false
  | _ => false
  end.

End Model.

End HistoricalRatioModel.

(** ** RatioSampler: [monte_carlo_predicted_ratio.py] and
    [prediction_engine.predict_next_12_months] *)

Module RatioSampler.

Import Py HistoricalRatioModel.

(** [sm_value / ((last_sm / drawn_ratio) + ((sm_value - last_sm) / cac_12m))],
    evaluated left to right. *)
Definition blend (sm_value last_sm drawn_ratio cac : Q) : result Q :=
  base ← Py.div last_sm drawn_ratio;
  extra ← Py.div (sm_value - last_sm) cac;
  Py.div sm_value (base + extra).

(** [last_sm * (1.1 ** (i + 1))] *)
Definition grown_spend (last_sm : Q) (i : nat) : Q :=
  last_sm * Qpower (11 # 10) (Z.of_nat (S i)).

Record prediction : Type := {
  sm_value : Q;
  predicted_ratio : Q;
  predicted_revenue : Q
}.

Section Sampler.

Context {G : Type} `{RandomSource G} `{MonthNames K}.

(** The body of the loop of [run_single_prediction_ratio]: the ratio
    predicted for one month. *)
Definition draw_ratio (alg : algorithm_data) (last_sm spend : Q) (g : G) : result Q * G :=
  let '(u, g) := random g in
  if Qlt_le_dec u (heads_percentage alg) then (Ok spend, g)
  else
    match distribution alg with
    | [] => (Ok (cac_12m alg), g)
    | _ :: _ =>
        let '(drawn, g) := choice (distribution alg) g in
        match drawn with
        | None => (Raise IndexError, g)
        | Some drawn_ratio =>
            if (conservative alg && if Qlt_le_dec drawn_ratio (cac_12m alg) then true else false)%bool
            then
              if Qlt_le_dec last_sm spend
              then (blend spend last_sm drawn_ratio (cac_12m alg), g)
              else (Ok drawn_ratio, g)
            else (Ok drawn_ratio, g)
        end
    end.

Fixpoint simulate_months (alg : algorithm_data) (last_sm : Q) (months : list nat) (g : G)
    : result (list (Q * Q)) * G :=
  match months with
  | [] => (Ok [], g)
  | i :: rest =>
      let spend := grown_spend last_sm i in
      match draw_ratio alg last_sm spend g with
      | (Raise e, g) => (Raise e, g)
      | (Ok ratio, g) =>
          match simulate_months alg last_sm rest g with
          | (Raise e, g) => (Raise e, g)
          | (Ok data, g) => (Ok ((spend, ratio) :: data), g)
          end
      end
  end.

Definition run_single_prediction_ratio
    (sm_dict : gmap K Q) (revenue_dict : gmap K (option Q)) (alg : algorithm_data) (g : G)
    : result (list (Q * Q)) * G :=
  match last (all_months sm_dict revenue_dict) with
  | None => (Raise IndexError, g)
  | Some last_month =>
      let last_sm := default 0 (sm_dict !! last_month) in
      simulate_months alg last_sm (seq 0 12) g
  end.

(** The body of the loop of [predict_next_12_months]: the blend is
    attempted only when [drawn_ratio > 0]. *)
Definition draw_ratio_guarded (alg : algorithm_data) (last_sm spend : Q) (g : G)
    : result Q * G :=
  let '(u, g) := random g in
  if Qlt_le_dec u (heads_percentage alg) then (Ok spend, g)
  else
    match distribution alg with
    | [] => (Ok (cac_12m alg), g)
    | _ :: _ =>
        let '(drawn, g) := choice (distribution alg) g in
        match drawn with
        | None => (Raise IndexError, g)
        | Some drawn_ratio =>
            if (conservative alg && if Qlt_le_dec drawn_ratio (cac_12m alg) then true else false)%bool
            then
              if ((if Qlt_le_dec last_sm spend then true else false)
                  && if Qlt_le_dec 0 drawn_ratio then true else false)%bool
              then (blend spend last_sm drawn_ratio (cac_12m alg), g)
              else (Ok drawn_ratio, g)
            else (Ok drawn_ratio, g)
        end
    end.

Fixpoint predict_months (alg : algorithm_data) (last_sm : Q) (months : list nat) (g : G)
    : result (list prediction) * G :=
  match months with
  | [] => (Ok [], g)
  | i :: rest =>
      let spend := grown_spend last_sm i in
      match draw_ratio_guarded alg last_sm spend g with
      | (Raise e, g) => (Raise e, g)
      | (Ok ratio, g) =>
          let revenue := if Qlt_le_dec 0 ratio then spend / ratio else 0 in
          match predict_months alg last_sm rest g with
          | (Raise e, g) => (Raise e, g)
          | (Ok predictions, g) =>
              (Ok ({| sm_value := spend; predicted_ratio := ratio;
                      predicted_revenue := revenue |} :: predictions), g)
          end
      end
  end.

(** [sm_months = list(sm_dict.keys())], sorted by [month_to_datetime]; the
    argument [revenue_dict] is not read. *)
Definition predict_next_12_months
    (sm_dict : gmap K Q) (alg : algorithm_data) (g : G) : result (list prediction) * G :=
  match last (sort_by_key month_to_datetime (listing (dom sm_dict))) with
  | None => (Ok [], g)
  | Some last_month =>
      let last_sm := default 0 (sm_dict !! last_month) in
      predict_months alg last_sm (seq 0 12) g
  end.

End Sampler.

End RatioSampler.

(** ** RetentionCurveSampler: [simulate_retention_curve.py] and
    [simulate_1000_retention_curves.py] *)

Module RetentionCurveSampler.

(** [[row[c] for row in retention_table[1:] if c < len(row) and row[c] is not None]] *)
Definition column_values (retention_table : list (list (option Q))) (c : nat) : list Q :=
  omap (fun row : list (option Q) => mjoin (row !! c)) (tail retention_table).

(** The search loops: walk the candidate columns and keep the non-empty
    ones until [quota] of them have been found. *)
Fixpoint nearest_columns (retention_table : list (list (option Q)))
    (quota : nat) (candidates found : list nat) : list nat :=
  match candidates with
  | [] => found
  | c :: rest =>
      match column_values retention_table c with
      | [] => nearest_columns retention_table quota rest found
      | _ :: _ =>
          let found := found ++ [c] in
          if (length found =? quota)%nat then found
          else nearest_columns retention_table quota rest found
      end
  end.

(** The first-branch loops, which keep a single column or [None]. *)
Fixpoint first_column (retention_table : list (list (option Q))) (candidates : list nat)
    : option nat :=
  match candidates with
  | [] => None
  | c :: rest =>
      match column_values retention_table c with
      | [] => first_column retention_table rest
      | _ :: _ => Some c
      end
  end.

(** [range(col - 1, -1, -1)] and [range(col + 1, 60)] *)
Definition left_range (col : nat) : list nat := reverse (seq 0 col).
Definition right_range (col : nat) : list nat := seq (S col) (60 - S col).

(** [all_values] after both [extend] loops. *)
Definition widen (retention_table : list (list (option Q)))
    (col_values : list Q) (left_cols right_cols : list nat) : list Q :=
  col_values
    ++ concat (map (column_values retention_table) left_cols)
    ++ concat (map (column_values retention_table) right_cols).

(** The pool of column [col], by the four branches on [len(col_values)]. *)
Definition pool (retention_table : list (list (option Q))) (col : nat) : list Q :=
  let col_values := column_values retention_table col in
  let n := length col_values in
  if (12 <=? n)%nat then
    widen retention_table col_values
      (option_list (first_column retention_table (left_range col)))
      (option_list (first_column retention_table (right_range col)))
  else if (5 <=? n)%nat then
    widen retention_table col_values
      (nearest_columns retention_table 2 (left_range col) [])
      (nearest_columns retention_table 2 (right_range col) [])
  else if (2 <=? n)%nat then
    widen retention_table col_values
      (nearest_columns retention_table 3 (left_range col) [])
      (nearest_columns retention_table 3 (right_range col) [])
  else
    widen retention_table col_values
      (nearest_columns retention_table 5 (left_range col) [])
      (nearest_columns retention_table 5 (right_range col) []).

(** [if conservative and chosen is not None and chosen > max(1, floor):
     chosen = (max(1, floor) + chosen) / 2] *)
Definition dampen (conservative : bool) (min_ndr_12th_root : Q) (chosen : option Q) : option Q :=
  match chosen with
  | Some v =>
      if (conservative && if Qlt_le_dec (Py.max 1 min_ndr_12th_root) v then true else false)%bool
      then Some ((Py.max 1 min_ndr_12th_root + v) / 2)
      else Some v
  | None => None
  end.

Section Sampler.

Context {G : Type} `{RandomSource G}.

(** [random.choice(all_values) if all_values else None]; in the first
    branch the pool holds at least 12 values, so the unguarded call is
    the same. *)
Definition draw (all_values : list Q) (g : G) : option Q * G :=
  match all_values with
  | [] => (None, g)
  | _ :: _ => choice all_values g
  end.

(** One pass of the loop over the columns. *)
Fixpoint simulate_columns (retention_table : list (list (option Q)))
    (conservative : bool) (min_ndr_12th_root : Q) (cols : list nat) (g : G)
    : list (option Q) * G :=
  match cols with
  | [] => ([], g)
  | col :: rest =>
      let '(chosen, g) := draw (pool retention_table col) g in
      let chosen := dampen conservative min_ndr_12th_root chosen in
      let '(curve, g) :=
        simulate_columns retention_table conservative min_ndr_12th_root rest g in
      (chosen :: curve, g)
  end.

(** [simulate_retention_curve]: one curve of 60 months. *)
Definition simulate_retention_curve (retention_table : list (list (option Q)))
    (conservative : bool) (min_ndr_12th_root : Q) (g : G) : list (option Q) * G :=
  simulate_columns retention_table conservative min_ndr_12th_root (seq 0 60) g.

(** The outer loop of [simulate_1000_retention_curves], for [sims] curves. *)
Fixpoint simulate_curves (retention_table : list (list (option Q)))
    (conservative : bool) (min_ndr_12th_root : Q) (sims : nat) (g : G)
    : list (list (option Q)) * G :=
  match sims with
  | O => ([], g)
  | S n =>
      let '(curve, g) :=
        simulate_retention_curve retention_table conservative min_ndr_12th_root g in
      let '(curves, g) :=
        simulate_curves retention_table conservative min_ndr_12th_root n g in
      (curve :: curves, g)
  end.

Definition simulate_1000_retention_curves (retention_table : list (list (option Q)))
    (conservative : bool) (min_ndr_12th_root : Q) (g : G) : list (list (option Q)) * G :=
  simulate_curves retention_table conservative min_ndr_12th_root 1000 g.

End Sampler.

(** Some column of the table, first row apart, holds an observed value. *)
Definition observed_somewhere (retention_table : list (list (option Q))) : Prop :=
  exists c, column_values retention_table c <> [].

(** The same, among the 60 columns the sampler looks at. *)
Definition observed_in_horizon (retention_table : list (list (option Q))) : Prop :=
  exists c, (c < 60)%nat /\ column_values retention_table c <> [].

End RetentionCurveSampler.

(** ** CohortCashFlowProjector: [create_comprehensive_table.py] *)

Module CohortCashFlowProjector.

Import Py.

(** [revenue = prev_revenue * retention_value] when both are not [None]. *)
Definition next_revenue (prev_revenue retention_value : option Q) : option Q :=
  match prev_revenue, retention_value with
  | Some p, Some r => Some (p * r)
  | _, _ => None
  end.

(** The loop [for month in range(1, 60)], carrying [prev_revenue]; the
    list returned holds the revenue of each month visited. *)
Fixpoint project_revenue (retention_curve : list (option Q)) (prev_revenue : option Q)
    (months : list nat) : result (list (option Q)) :=
  match months with
  | [] => Ok []
  | month :: rest =>
      match retention_curve !! month with
      | None => Raise IndexError
      | Some retention_value =>
          let revenue := next_revenue prev_revenue retention_value in
          revenues ← project_revenue retention_curve revenue rest;
          Ok (revenue :: revenues)
      end
  end.

(** [sm_value / predicted_ratio if predicted_ratio != 0 else None] *)
Definition first_revenue (sm_value predicted_ratio : Q) : option Q :=
  if Qeq_bool predicted_ratio 0 then None else Some (sm_value / predicted_ratio).

(** The revenue columns of one row of [build_revenue_table]. *)
Definition revenue_columns (sm_value predicted_ratio : Q) (retention_curve : list (option Q))
    : result (list (option Q)) :=
  let prev_revenue := first_revenue sm_value predicted_ratio in
  revenues ← project_revenue retention_curve prev_revenue (seq 1 59);
  Ok (prev_revenue :: revenues).

Record gross_profit_row : Type := {
  SM_Value : Q;
  gross_profit_columns : list (option Q);
  cash_flow : list Q
}.

(** One row of [build_gross_profit_table]: the gross profit of a month is
    its revenue times the gross margin, [None] staying [None]; the cash
    flow puts 0 for [None]. *)
Definition gross_profit_table_row (gross_margin sm_value predicted_ratio : Q)
    (retention_curve : list (option Q)) : result gross_profit_row :=
  revenues ← revenue_columns sm_value predicted_ratio retention_curve;
  let gross_profits := map (fun revenue : option Q => (fun r => r * gross_margin) <$> revenue) revenues in
  Ok {| SM_Value := - sm_value;
        gross_profit_columns := gross_profits;
        cash_flow := - sm_value :: map (default 0) gross_profits |}.

End CohortCashFlowProjector.

(** ** Loan accounts and reports: [print_lender_analysis] and the rows of
    [transform_gross_profit_to_lender_cashflows] *)

Module LenderReport.

Import Py LoanAmortizer.

(** Interest charged and principal repaid over a whole run of the loop. *)
Fixpoint interest_charged (lp rate outstanding : Q) (flows : list Q) : Q :=
  match flows with
  | [] => 0
  | flow :: rest =>
      (if Qlt_le_dec 0 flow then interest_payment rate outstanding else 0)
      + interest_charged lp rate (snd (process_month lp rate outstanding flow)) rest
  end.

Fixpoint principal_repaid (lp rate outstanding : Q) (flows : list Q) : Q :=
  match flows with
  | [] => 0
  | flow :: rest =>
      principal_paid lp rate outstanding flow
      + principal_repaid lp rate (snd (process_month lp rate outstanding flow)) rest
  end.

(** The loop of [print_lender_analysis] after its first row: the balance is
    rebuilt from the payments, [outstanding -= lender - outstanding * rate]
    when [lender > 0], and printed as [max(0, outstanding)]. *)
Fixpoint printed_balances (rate outstanding : Q) (lender_payments : list Q) : list Q :=
  match lender_payments with
  | [] => []
  | lender :: rest =>
      let outstanding :=
        if Qlt_le_dec 0 lender then outstanding - (lender - outstanding * rate)
        else outstanding in
      Py.max 0 outstanding :: printed_balances rate outstanding rest
  end.

(** The "Outstanding" column of the monthly breakdown. *)
Definition outstanding_column (lender_cashflows : list Q) (info : loan_info) : list Q :=
  match lender_cashflows with
  | [] => []
  | first :: payments =>
      Qabs first :: printed_balances (monthly_interest_rate info) (Qabs first) payments
  end.

Record lender_row : Type := {
  Loan_Amount : Q;
  Lender_Cashflow_Month : list Q;
  Net_Return : Q;
  Total_Payments : Q;
  ROI_Percentage : Q
}.

Section Transform.

Variable float_pow : Q -> Q -> Q.

(** One row of [transform_gross_profit_to_lender_cashflows].  [SM_Value] is
    [None] for the rows the loop skips (no value, or the NDR row); a gross
    profit is [None] when its cell holds no number, and a month past the end
    of the list is a missing column.  An exception of the calculator is
    caught and replaced by a row of zeros. *)
Definition transform_row (SM_Value : option Q) (gross_profits : list (option Q))
    (lp yearly : Q) : option lender_row :=
  match SM_Value with
  | None => None
  | Some sm =>
      let sm_value := Qabs sm in
      let gross_profit_cashflows :=
        - sm_value :: map (fun month => default 0 (mjoin (gross_profits !! month))) (seq 0 60) in
      match calculate_lender_cashflows float_pow gross_profit_cashflows lp yearly with
      | Ok (lender_cashflows, info) =>
          Some {| Loan_Amount := - loan_amount info;
                  Lender_Cashflow_Month :=
                    map (fun month => default 0 (lender_cashflows !! month)) (seq 1 60);
                  Net_Return := net_return info;
                  Total_Payments := total_payments_received info;
                  ROI_Percentage :=
                    if Qlt_le_dec 0 (loan_amount info)
                    then net_return info / loan_amount info * 100 else 0 |}
      | Raise _ =>
          Some {| Loan_Amount := - 0;
                  Lender_Cashflow_Month :=
                    map (fun month => default 0 (repeat 0 61 !! month)) (seq 1 60);
                  Net_Return := 0;
                  Total_Payments := 0;
                  ROI_Percentage := 0 |}
      end
  end.

End Transform.

End LenderReport.

(** ** Rolling three-month CAC: [monte_carlo_simulation.run_single_prediction]
    and [prediction_engine.calculate_rolling_3m_cac] *)

Module RollingCac.

Import Py HistoricalRatioModel RatioSampler.

(** [None] for the first two months, then total spend over total predicted
    revenue of the month and the two before it, 0 when that revenue is not
    positive; an index past the end raises. *)
Definition calculate_rolling_3m_cac (predictions : list prediction) (month_index : nat)
    : result (option Q) :=
  if (month_index <? 2)%nat then Ok None
  else
    match predictions !! month_index,
          predictions !! (month_index - 1)%nat,
          predictions !! (month_index - 2)%nat with
    | Some current_month, Some prev_month_1, Some prev_month_2 =>
        let total_sm_3m :=
          sm_value current_month + sm_value prev_month_1 + sm_value prev_month_2 in
        let total_revenue_3m :=
          predicted_revenue current_month + predicted_revenue prev_month_1
          + predicted_revenue prev_month_2 in
        if Qlt_le_dec 0 total_revenue_3m
        then Ok (Some (total_sm_3m / total_revenue_3m))
        else Ok (Some 0)
    | _, _, _ => Raise IndexError
    end.

(** [for i in range(2, len(predictions))]: the values that are not [None]. *)
Fixpoint rolling_values (predictions : list prediction) (indices : list nat)
    : result (list Q) :=
  match indices with
  | [] => Ok []
  | i :: rest =>
      rolling_3m ← calculate_rolling_3m_cac predictions i;
      values ← rolling_values predictions rest;
      Ok (match rolling_3m with
          | Some value => value :: values
          | None => values
          end)
  end.

Section Sampler.

Context {G : Type} `{RandomSource G} `{MonthNames K}.

(** The ratio of one month in [run_single_prediction]: no blending. *)
Definition draw_plain_ratio (alg : algorithm_data) (spend : Q) (g : G) : result Q * G :=
  let '(u, g) := random g in
  if Qlt_le_dec u (heads_percentage alg) then (Ok spend, g)
  else
    match distribution alg with
    | [] => (Ok (cac_12m alg), g)
    | _ :: _ =>
        let '(drawn, g) := choice (distribution alg) g in
        match drawn with
        | None => (Raise IndexError, g)
        | Some drawn_ratio => (Ok drawn_ratio, g)
        end
    end.

Fixpoint plain_months (alg : algorithm_data) (last_sm : Q) (months : list nat) (g : G)
    : result (list prediction) * G :=
  match months with
  | [] => (Ok [], g)
  | i :: rest =>
      let spend := grown_spend last_sm i in
      match draw_plain_ratio alg spend g with
      | (Raise e, g) => (Raise e, g)
      | (Ok ratio, g) =>
          let revenue := if Qlt_le_dec 0 ratio then spend / ratio else 0 in
          match plain_months alg last_sm rest g with
          | (Raise e, g) => (Raise e, g)
          | (Ok predictions, g) =>
              (Ok ({| sm_value := spend; predicted_ratio := ratio;
                      predicted_revenue := revenue |} :: predictions), g)
          end
      end
  end.

Definition run_single_prediction
    (sm_dict : gmap K Q) (revenue_dict : gmap K (option Q)) (alg : algorithm_data) (g : G)
    : result (list Q) * G :=
  match last (all_months sm_dict revenue_dict) with
  | None => (Raise IndexError, g)
  | Some last_month =>
      let last_sm := default 0 (sm_dict !! last_month) in
      match plain_months alg last_sm (seq 0 12) g with
      | (Raise e, g) => (Raise e, g)
      | (Ok predictions, g) =>
          (rolling_values predictions (seq 2 (length predictions - 2)), g)
      end
  end.

End Sampler.

End RollingCac.

(** Months whose ratio is exactly 10000: not above the threshold of the
    heads count, not below that of the pool. *)
Definition at_threshold (sm_dict : gmap nat Q) (revenue_dict : gmap nat (option Q))
    (month : nat) : bool :=
  match HistoricalRatioModel.month_ratio sm_dict revenue_dict month with
  | Some r => Qeq_bool r 10000
  | None => false
  end.

(** The test that admits a ratio to the pool,
    [ratio is not None and ratio < 10000]. *)
Definition pool_entry (ratio : option Q) : option Q :=
  match ratio with
  | Some r => if Qlt_le_dec r 10000 then Some r else None
  | None => None
  end.

(** ** The widening of the pool, as one rule

    The four branches of [simulate_retention_curve] run the same search; a
    column with at least 12, 5, 2 or fewer observed values is widened by its
    1, 2, 3 or 5 nearest non-empty columns on each side. *)

Definition has_values (retention_table : list (list (option Q))) (c : nat) : bool :=
  match RetentionCurveSampler.column_values retention_table c with
  | [] => false
  | _ :: _ => true
  end.

Definition quota_of (n : nat) : nat :=
  if (12 <=? n)%nat then 1 else if (5 <=? n)%nat then 2 else if (2 <=? n)%nat then 3 else 5.

Definition nearest_nonempty (retention_table : list (list (option Q)))
    (quota : nat) (candidates : list nat) : list nat :=
  take quota (List.filter (has_values retention_table) candidates).

Definition pool_by_rule (retention_table : list (list (option Q))) (col : nat) : list Q :=
  let col_values := RetentionCurveSampler.column_values retention_table col in
  let quota := quota_of (length col_values) in
  RetentionCurveSampler.widen retention_table col_values
    (nearest_nonempty retention_table quota (RetentionCurveSampler.left_range col))
    (nearest_nonempty retention_table quota (RetentionCurveSampler.right_range col)).

(** ** RetentionTable: [get_retention_table] of [simulate_retention_curve.py]

    A revenue array is a list of cells; [None] stands for [null] and for
    the empty string, which the function treats alike. *)

Module RetentionTable.

Import Py.

(** [curr / left if left not in [None, 0, ''] and curr not in [None, ''] else None] *)
Definition ratio_cell (left curr : option Q) : option Q :=
  match left, curr with
  | Some l, Some c => if Qeq_bool l 0 then None else Some (c / l)
  | _, _ => None
  end.

(** The inner loop [for j in range(1, len(rev))]. *)
Definition ratio_row (rev : list (option Q)) : list (option Q) :=
  map (fun j => ratio_cell (mjoin (rev !! (j - 1)%nat)) (mjoin (rev !! j)))
    (seq 1 (length rev - 1)).

(** [row[:n]]; a negative [n] counts from the end. *)
Definition slice_to {A : Type} (row : list A) (n : Z) : list A :=
  if (0 <=? n)%Z then take (Z.to_nat n) row
  else take (Z.to_nat (Z.of_nat (length row) + n)) row.

(** [max(num_cols - (i - 1), 0) if i >= 2 else num_cols] *)
Definition max_len (num_cols : Z) (i : nat) : Z :=
  if (2 <=? i)%nat then Z.max (num_cols - (Z.of_nat i - 1)) 0 else num_cols.

Definition capped_row (num_cols : Z) (i : nat) (rev : list (option Q)) : list (option Q) :=
  let row := ratio_row rev in
  if (max_len num_cols i <? Z.of_nat (length row))%Z then slice_to row (max_len num_cols i)
  else row.

(** The table and [num_cols]; [cohorts_data[0]] raises on an empty list. *)
Definition get_retention_table (cohorts_data : list (list (option Q)))
    : result (list (list (option Q)) * Z) :=
  match cohorts_data with
  | [] => Raise IndexError
  | first :: _ =>
      let num_cols := (Z.of_nat (length first) - 1)%Z in
      let retention_table := imap (capped_row num_cols) cohorts_data in
      Ok (take (length retention_table - 1) retention_table, num_cols)
  end.

End RetentionTable.

(** The share of the first month's revenue a cohort still brings in month
    [n + 1]: the product of the curve entries of months 1 to [n], [None] as
    soon as one of them is [None] or missing. *)
Fixpoint cumulative_retention (retention_curve : list (option Q)) (n : nat) : option Q :=
  match n with
  | O => Some 1
  | S k =>
      CohortCashFlowProjector.next_revenue
        (cumulative_retention retention_curve k) (mjoin (retention_curve !! S k))
  end.

(** A month's revenue is the first revenue times the cumulative retention,
    and null when either is. *)
Definition scaled (first share revenue : option Q) : Prop :=
  match first, share, revenue with
  | Some f, Some c, Some v => v == f * c
  | None, _, None | _, None, None => True
  | _, _, _ => False
  end.

(** ** Sample inputs *)

Definition sample_cashflows : list Q := [- (1000); 100; 0; - (50); 1200; 40].

(** An investment whose first month brings almost nothing. *)
Definition lean_cashflows : list Q := [- (1000); 1].

(** An investment whose first month loses money. *)
Definition losing_cashflows : list Q := [- (1000); - (5)].

(** Sixty months of gross profit: 110, 60, 50, then nothing. *)
Definition early_profits : list (option Q) :=
  [Some 110; Some 60; Some 50] ++ repeat (Some 0) 57.

(** Sixty months without any gross profit. *)
Definition no_profits : list (option Q) := repeat (Some 0) 60.

(** Two months of history; the first month had revenue but no spend, so its
    ratio is 0. *)
Definition idle_month_sm : gmap nat Q := list_to_map [(1%nat, 0); (2%nat, 100)].
Definition idle_month_revenue : gmap nat (option Q) :=
  list_to_map [(1%nat, Some 50); (2%nat, Some 50)].

(** Three months of history with revenue every month; the second month's
    ratio is above 10000. *)
Definition steady_sm : gmap nat Q :=
  list_to_map [(1%nat, 150000); (2%nat, 180000); (3%nat, 90)].
Definition steady_revenue : gmap nat (option Q) :=
  list_to_map [(1%nat, Some 300000); (2%nat, Some 1); (3%nat, Some 200)].

(** Retention tables as [get_retention_table] returns them (the last cohort
    row already removed); the first row is the older-cohorts row. *)

(** The only observed value of the later rows sits in column 59. *)
Definition late_table : list (list (option Q)) :=
  [repeat (Some 1) 60; repeat None 59 ++ [Some (9 # 10)]; [None; None]].

(** A history of more than five years: the only observed value of the later
    rows sits in column 60. *)
Definition wide_table : list (list (option Q)) :=
  [repeat (Some 1) 61; repeat None 60 ++ [Some (9 # 10)]; [None; None]].

(** A retention curve that keeps 90% every month. *)
Definition flat_curve : list (option Q) := repeat (Some (9 # 10)) 60.

(** Four cohorts over four months; the second cohort has a month without
    revenue and the third an empty cell. *)
Definition sample_cohorts : list (list (option Q)) :=
  [[Some 100; Some 90; Some 81; Some 80];
   [Some 50; Some 0; Some 10; Some 20];
   [Some 40; None; Some 30; Some 15];
   [Some 10; Some 9; Some 8; Some 7]].

(** Histories keyed by month names.  The twelve months of 2023 under their
    full names, which [strptime] reads. *)
Definition months_of_2023 : list string :=
  ["January 2023"; "February 2023"; "March 2023"; "April 2023"; "May 2023";
   "June 2023"; "July 2023"; "August 2023"; "September 2023"; "October 2023";
   "November 2023"; "December 2023"]%string.

(** Fourteen months, November 2022 to December 2023, with a spend of 100
    every month; every month has a revenue of 50 but November 2022, which
    has none. *)
Definition history_sm : gmap string Q :=
  list_to_map (map (fun m => (m, 100))
                 ("November 2022" :: "December 2022" :: months_of_2023)%string).
Definition history_revenue : gmap string (option Q) :=
  <["November 2022"%string := Some 0]>
    (list_to_map (map (fun m => (m, Some 50))
                    ("December 2022" :: months_of_2023)%string)).

(** Thirteen months, January 2023 to January 2024, the last one under an
    abbreviated name; that month has no revenue. *)
Definition abbreviated_sm : gmap string Q :=
  list_to_map (map (fun m => (m, 100)) (months_of_2023 ++ ["Jan 2024"%string])).
Definition abbreviated_revenue : gmap string (option Q) :=
  <["Jan 2024"%string := Some 0]>
    (list_to_map (map (fun m => (m, Some 50)) months_of_2023)).

(** * Properties *)

(** ** Python builtins *)

Lemma py_min_le_l a b : Py.min a b <= a.
Proof. unfold Py.min. destruct (Qlt_le_dec b a); lra. Qed.

Lemma py_min_le_r a b : Py.min a b <= b.
Proof. unfold Py.min. destruct (Qlt_le_dec b a); lra. Qed.

Lemma py_min_cases a b :
  (a <= b /\ Py.min a b = a) \/ (b < a /\ Py.min a b = b).
Proof. unfold Py.min. destruct (Qlt_le_dec b a); [right | left]; split; trivial. Qed.

Lemma py_max_cases a b :
  (a < b /\ Py.max a b = b) \/ (b <= a /\ Py.max a b = a).
Proof. unfold Py.max. destruct (Qlt_le_dec a b); [left | right]; split; trivial. Qed.

(** ** LoanAmortizer *)

Section AmortizerFacts.

Import LoanAmortizer.

Variable float_pow : Q -> Q -> Q.
Variables lp rate : Q.

Lemma process_month_grace o flow :
  flow <= 0 -> process_month lp rate o flow = (0, o).
Proof.
  intros Hf. unfold process_month.
  destruct (Qlt_le_dec 0 flow) as [Hpos | _]; [lra | reflexivity].
Qed.

Lemma process_month_paying o flow :
  0 < flow ->
  process_month lp rate o flow =
    (interest_payment rate o + actual_principal_payment lp rate o flow,
     o - actual_principal_payment lp rate o flow).
Proof.
  intros Hf. unfold process_month.
  destruct (Qlt_le_dec 0 flow) as [_ | Hle]; [reflexivity | lra].
Qed.

Lemma process_flows_cons o flow rest :
  process_flows lp rate o (flow :: rest) =
    (fst (process_month lp rate o flow)
       :: fst (process_flows lp rate (snd (process_month lp rate o flow)) rest),
     snd (process_flows lp rate (snd (process_month lp rate o flow)) rest)).
Proof.
  simpl. destruct (process_month lp rate o flow) as [p o'].
  simpl. destruct (process_flows lp rate o' rest). reflexivity.
Qed.

Lemma outstanding_before_0 o flows : outstanding_before lp rate o flows 0 = o.
Proof. unfold outstanding_before. rewrite take_0. reflexivity. Qed.

Lemma outstanding_before_cons o flow rest k :
  outstanding_before lp rate o (flow :: rest) (S k) =
  outstanding_before lp rate (snd (process_month lp rate o flow)) rest k.
Proof.
  unfold outstanding_before. rewrite firstn_cons, process_flows_cons. reflexivity.
Qed.

(** The state seen by month [k+1] is the one month [k] leaves. *)
Lemma outstanding_before_S flows : forall o k flow,
  flows !! k = Some flow ->
  outstanding_before lp rate o flows (S k) =
  snd (process_month lp rate (outstanding_before lp rate o flows k) flow).
Proof.
  induction flows as [| f fs IH]; intros o k flow Hk; [discriminate |].
  destruct k as [| k].
  - injection Hk as ->. rewrite outstanding_before_cons, !outstanding_before_0.
    reflexivity.
  - rewrite outstanding_before_cons. rewrite (IH _ k flow Hk).
    rewrite outstanding_before_cons. reflexivity.
Qed.

(** The payment recorded for month [k] is the loop body run on the state
    the loop has reached. *)
Lemma payment_at flows : forall o k flow,
  flows !! k = Some flow ->
  fst (process_flows lp rate o flows) !! k =
  Some (fst (process_month lp rate (outstanding_before lp rate o flows k) flow)).
Proof.
  induction flows as [| f fs IH]; intros o k flow Hk; [discriminate |].
  rewrite process_flows_cons. destruct k as [| k]; simpl.
  - injection Hk as ->. rewrite outstanding_before_0. reflexivity.
  - rewrite outstanding_before_cons. apply IH. exact Hk.
Qed.

Lemma process_flows_length flows : forall o,
  length (fst (process_flows lp rate o flows)) = length flows.
Proof.
  induction flows as [| f fs IH]; intros o; [reflexivity |].
  rewrite process_flows_cons. simpl. f_equal. apply IH.
Qed.

(** The outstanding principal never becomes negative. *)
Lemma process_month_nonneg o flow :
  0 <= o -> 0 <= snd (process_month lp rate o flow).
Proof.
  intros Ho. unfold process_month.
  destruct (Qlt_le_dec 0 flow); simpl; [| exact Ho].
  pose proof (py_min_le_r (available_principal_payment lp rate o flow) o).
  unfold actual_principal_payment. lra.
Qed.

Lemma outstanding_before_nonneg flows : forall k o,
  0 <= o -> 0 <= outstanding_before lp rate o flows k.
Proof.
  induction flows as [| f fs IH]; intros k o Ho.
  - unfold outstanding_before. rewrite take_nil. exact Ho.
  - destruct k as [| k]; [rewrite outstanding_before_0; exact Ho |].
    rewrite outstanding_before_cons. apply IH, process_month_nonneg, Ho.
Qed.

(** Once nothing is owed, a month pays nothing and leaves nothing owed. *)
Lemma process_month_settled o flow :
  0 < lp -> o == 0 ->
  fst (process_month lp rate o flow) == 0 /\ snd (process_month lp rate o flow) == 0.
Proof.
  intros Hlp Ho. unfold process_month.
  destruct (Qlt_le_dec 0 flow) as [Hpos | Hnp]; simpl; [| split; [reflexivity | exact Ho]].
  unfold actual_principal_payment, available_principal_payment,
    max_payment, interest_payment.
  assert (Hint : o * rate == 0) by (rewrite Ho; ring).
  assert (Hshare : 0 < flow * lp) by (apply Qmult_lt_0_compat; lra).
  destruct (py_min_cases (flow * lp - o * rate) o) as [[Hc Hm] | [Hc Hm]];
    rewrite Hm; split; lra.
Qed.

(** What is still owed is the loan less what has been repaid. *)
Lemma outstanding_is_loan_less_repaid flows : forall k o,
  outstanding_before lp rate o flows k ==
  o - cumulative_principal lp rate o flows k.
Proof.
  induction flows as [| f fs IH]; intros k o.
  - unfold outstanding_before. rewrite take_nil. destruct k; simpl; lra.
  - destruct k as [| k]; [rewrite outstanding_before_0; simpl; lra |].
    rewrite outstanding_before_cons, IH. simpl.
    unfold process_month, principal_paid.
    destruct (Qlt_le_dec 0 f); simpl; lra.
Qed.

End AmortizerFacts.

Section AmortizerRun.

Import LoanAmortizer.

Variable float_pow : Q -> Q -> Q.

(** Accepted inputs are exactly those on which the function returns, and
    the returned vector is the loan followed by the loop's payments. *)
Lemma calculate_lender_cashflows_accepted cfs lp yearly :
  accepted cfs ->
  exists info,
    calculate_lender_cashflows float_pow cfs lp yearly =
      Py.Ok (hd 0 cfs * lp
               :: fst (process_flows lp (monthly_rate float_pow yearly)
                         (initial_principal cfs lp) (tl cfs)),
             info)
    /\ loan_amount info = initial_principal cfs lp
    /\ final_outstanding_principal info =
         owed_after float_pow cfs lp yearly (length (tl cfs)).
Proof.
  intros [Hlen Hneg]. destruct cfs as [| first [| f fs]]; simpl in Hlen; try lia.
  simpl in Hneg. unfold calculate_lender_cashflows.
  destruct (Qle_bool 0 first) eqn:Hb.
  { apply Qle_bool_iff in Hb. lra. }
  unfold owed_after, outstanding_before, initial_principal.
  rewrite firstn_all. cbn [hd tl].
  destruct (process_flows lp (monthly_rate float_pow yearly) (Qabs (first * lp)) (f :: fs))
    as [payments final] eqn:Hrun.
  eexists. split; [reflexivity |]. split; reflexivity.
Qed.

Lemma calculate_lender_cashflows_rejected cfs lp yearly :
  ~ accepted cfs ->
  calculate_lender_cashflows float_pow cfs lp yearly = Py.Raise Py.ValueError.
Proof.
  intros Hna. destruct cfs as [| first [| f fs]]; try reflexivity.
  unfold calculate_lender_cashflows.
  destruct (Qle_bool 0 first) eqn:Hb; [reflexivity |].
  exfalso. apply Hna. split; [simpl; lia |]. simpl.
  destruct (Qlt_le_dec first 0) as [Hlt | Hle]; [exact Hlt |].
  apply Qle_bool_iff in Hle. congruence.
Qed.

Lemma initial_principal_nonneg cfs lp : 0 <= initial_principal cfs lp.
Proof. apply Qabs_nonneg. Qed.

Lemma owed_after_nonneg cfs lp yearly k : 0 <= owed_after float_pow cfs lp yearly k.
Proof. apply outstanding_before_nonneg, initial_principal_nonneg. Qed.

Lemma lookup_tail (cfs : list Q) k : cfs !! S k = tl cfs !! k.
Proof. destruct cfs; reflexivity. Qed.

End AmortizerRun.

Section AmortizerClaims.

Import LoanAmortizer.

Variable float_pow : Q -> Q -> Q.

(** C3. For an accepted cash-flow vector the function returns, and for
    every month whose underlying flow is not positive the lender payment
    recorded is exactly 0 and the outstanding principal is the same after
    the month as before it: no interest accrues, no principal is repaid. *)
Theorem C3_grace_month_pays_nothing cfs lp yearly :
  accepted cfs ->
  exists lender info,
    calculate_lender_cashflows float_pow cfs lp yearly = Py.Ok (lender, info)
    /\ forall k flow,
         cfs !! S k = Some flow -> flow <= 0 ->
         lender !! S k = Some 0
         /\ owed_after float_pow cfs lp yearly (S k) =
            owed_after float_pow cfs lp yearly k.
Proof.
  intros Hacc.
  destruct (calculate_lender_cashflows_accepted float_pow cfs lp yearly Hacc)
    as (info & Hrun & _ & _).
  eexists _, info. split; [exact Hrun |].
  intros k flow Hk Hflow. rewrite lookup_tail in Hk. split.
  - cbn [lookup list_lookup]. rewrite (payment_at _ _ _ _ _ _ Hk).
    rewrite process_month_grace by exact Hflow. reflexivity.
  - unfold owed_after. rewrite (outstanding_before_S _ _ _ _ _ _ Hk).
    rewrite process_month_grace by exact Hflow. reflexivity.
Qed.

(** C1 (as the code has it). For an accepted cash-flow vector and every
    month with a positive flow, the principal payment is
    [min(maxPayment - interest, outstanding)] with no lower clamp: the
    payment recorded is interest plus that amount and the outstanding
    principal drops by it.  Whenever the interest does not exceed
    [maxPayment] the principal payment is not negative and the outstanding
    principal does not increase; when the interest exceeds [maxPayment] the
    principal payment is the negative amount [maxPayment - interest] and
    the outstanding principal grows.  At every month the outstanding
    principal is the initial loan less the principal repaid so far, hence
    exactly 0 once the repaid principal equals the initial loan amount. *)
Theorem C1_principal_payment cfs lp yearly :
  accepted cfs ->
  exists lender info,
    calculate_lender_cashflows float_pow cfs lp yearly = Py.Ok (lender, info)
    /\ (forall k flow,
          cfs !! S k = Some flow -> 0 < flow ->
          let rate := monthly_rate float_pow yearly in
          let outstanding := owed_after float_pow cfs lp yearly k in
          let interest := outstanding * rate in
          let principal := Py.min (flow * lp - interest) outstanding in
          lender !! S k = Some (interest + principal)
          /\ owed_after float_pow cfs lp yearly (S k) = outstanding - principal
          /\ (interest <= flow * lp ->
              0 <= principal
              /\ owed_after float_pow cfs lp yearly (S k) <= outstanding)
          /\ (flow * lp < interest ->
              principal = flow * lp - interest
              /\ principal < 0
              /\ outstanding < owed_after float_pow cfs lp yearly (S k)))
    /\ (forall k,
          owed_after float_pow cfs lp yearly k ==
          loan_amount info - repaid_after float_pow cfs lp yearly k)
    /\ (forall k,
          repaid_after float_pow cfs lp yearly k == loan_amount info ->
          owed_after float_pow cfs lp yearly k == 0).
Proof.
  intros Hacc.
  destruct (calculate_lender_cashflows_accepted float_pow cfs lp yearly Hacc)
    as (info & Hrun & Hloan & _).
  eexists _, info. split; [exact Hrun |].
  assert (Hbal : forall k,
             owed_after float_pow cfs lp yearly k ==
             loan_amount info - repaid_after float_pow cfs lp yearly k).
  { intros k. rewrite Hloan. apply outstanding_is_loan_less_repaid. }
  split; [| split; [exact Hbal |]].
  - intros k flow Hk Hflow rate outstanding interest principal.
    rewrite lookup_tail in Hk.
    assert (Hafter : owed_after float_pow cfs lp yearly (S k) = outstanding - principal).
    { unfold owed_after. rewrite (outstanding_before_S _ _ _ _ _ _ Hk).
      rewrite process_month_paying by exact Hflow. reflexivity. }
    pose proof (owed_after_nonneg float_pow cfs lp yearly k) as Hnn.
    fold outstanding in Hnn.
    split; [| split; [exact Hafter | split]].
    + cbn [lookup list_lookup]. rewrite (payment_at _ _ _ _ _ _ Hk).
      rewrite process_month_paying by exact Hflow. reflexivity.
    + intros Hint. rewrite Hafter.
      destruct (py_min_cases (flow * lp - interest) outstanding)
        as [[_ Hm] | [_ Hm]]; fold principal in Hm; rewrite Hm; split; lra.
    + intros Hexc. rewrite Hafter.
      destruct (py_min_cases (flow * lp - interest) outstanding)
        as [[_ Hm] | [Hc _]]; [| lra].
      fold principal in Hm. rewrite Hm. split; [reflexivity | split; lra].
  - intros k Hrep. rewrite Hbal, Hrep. lra.
Qed.

(** C10 (as the code has it).  With [loanPercentage > 0] and
    [yearlyInterestRate >= 0] (and a power function that maps [x >= 1] to a
    value [>= 1]), every lender payment after the loan entry is not
    negative; in a month whose flow is not negative it lies in
    [[0, loanPercentage * flow]], and in a month whose flow is not positive
    it is 0, which for a negative flow is above [loanPercentage * flow].
    Once the outstanding principal is exactly 0, every later payment is
    exactly 0.  Amounts are exact rationals. *)
Theorem C10_payment_bounds cfs lp yearly :
  (forall x, 1 <= x -> 1 <= float_pow x (1 / 12)) ->
  accepted cfs -> 0 < lp -> 0 <= yearly ->
  exists lender info,
    calculate_lender_cashflows float_pow cfs lp yearly = Py.Ok (lender, info)
    /\ length lender = length cfs
    /\ (forall k flow,
          cfs !! S k = Some flow ->
          exists payment,
            lender !! S k = Some payment
            /\ 0 <= payment
            /\ (0 <= flow -> payment <= lp * flow)
            /\ (flow <= 0 -> payment = 0))
    /\ (forall k,
          owed_after float_pow cfs lp yearly k == 0 ->
          forall j payment,
            (k <= j)%nat -> lender !! S j = Some payment -> payment == 0).
Proof.
  intros Hpow Hacc Hlp Hy.
  destruct (calculate_lender_cashflows_accepted float_pow cfs lp yearly Hacc)
    as (info & Hrun & _ & _).
  eexists _, info. split; [exact Hrun |].
  set (rate := monthly_rate float_pow yearly).
  assert (Hrate : 0 <= rate).
  { unfold rate, monthly_rate. specialize (Hpow (1 + yearly)). lra. }
  split; [| split].
  - simpl. rewrite process_flows_length. destruct Hacc as [Hlen _].
    destruct cfs; simpl in *; lia.
  - intros k flow Hk. rewrite lookup_tail in Hk.
    eexists. split.
    { cbn [lookup list_lookup]. apply (payment_at _ _ _ _ _ _ Hk). }
    pose proof (owed_after_nonneg float_pow cfs lp yearly k) as Hnn.
    unfold owed_after in Hnn. fold rate in Hnn |- *.
    set (o := outstanding_before lp rate (initial_principal cfs lp) (tl cfs) k) in *.
    assert (Hint : 0 <= o * rate) by (apply Qmult_le_0_compat; assumption).
    unfold process_month. destruct (Qlt_le_dec 0 flow) as [Hpos | Hnp]; simpl.
    + unfold actual_principal_payment, available_principal_payment,
        max_payment, interest_payment.
      assert (Hshare : 0 < flow * lp) by (apply Qmult_lt_0_compat; lra).
      destruct (py_min_cases (flow * lp - o * rate) o) as [[Hc Hm] | [Hc Hm]];
        rewrite Hm; (split; [lra | split; [intros _; lra | intros Hf; exfalso; lra]]).
    + split; [lra | split; [| reflexivity]]. intros Hf.
      assert (Hz : flow == 0) by lra. rewrite Hz. lra.
  - intros k Hzero j payment Hkj Hj.
    assert (Hstay : forall d flow,
               tl cfs !! (k + d)%nat = Some flow ->
               owed_after float_pow cfs lp yearly (k + d) == 0).
    { induction d as [| d IHd]; intros flow Hd.
      - rewrite Nat.add_0_r. exact Hzero.
      - destruct (lookup_lt_is_Some_2 (tl cfs) (k + d)%nat) as [f Hf].
        { apply lookup_lt_Some in Hd. lia. }
        specialize (IHd f Hf).
        replace (k + S d)%nat with (S (k + d)) by lia.
        unfold owed_after in *. rewrite (outstanding_before_S _ _ _ _ _ _ Hf).
        apply process_month_settled; [exact Hlp | exact IHd]. }
    rewrite lookup_tail in Hj. cbn [tl] in Hj.
    destruct (lookup_lt_is_Some_2 (tl cfs) j) as [f Hf].
    { apply lookup_lt_Some in Hj. rewrite process_flows_length in Hj. exact Hj. }
    rewrite (payment_at _ _ _ _ _ _ Hf) in Hj. injection Hj as <-.
    replace j with (k + (j - k))%nat in Hf |- * by lia.
    specialize (Hstay _ f Hf).
    apply process_month_settled; [exact Hlp | exact Hstay].
Qed.

End AmortizerClaims.




(** *** The amortiser on concrete inputs *)

Lemma bisect_ge_lo keep steps : forall lo hi, lo <= hi -> lo <= bisect keep lo hi steps.
Proof.
  induction steps as [| n IH]; intros lo hi Hle; simpl; [lra |].
  assert (Hmid : Qred ((lo + hi) / 2) == (lo + hi) / 2) by apply Qred_correct.
  assert (Hhalf : (lo + hi) / 2 == (lo + hi) * (1 # 2)) by (unfold Qdiv; reflexivity).
  destruct (keep (Qred ((lo + hi) / 2))).
  - apply Qle_trans with (Qred ((lo + hi) / 2)); [lra | apply IH; lra].
  - apply IH. lra.
Qed.

Lemma pow_approx_ge_1 x : 1 <= x -> 1 <= pow_approx x (1 / 12).
Proof.
  intros Hx. unfold pow_approx.
  change (Qnum (1 / 12)) with 1%Z. change (Qpower x 1) with x.
  apply Qle_bool_iff in Hx. rewrite Hx. apply bisect_ge_lo. 
  apply Qle_bool_iff in Hx. lra.
Qed.

Lemma sample_cashflows_accepted : LoanAmortizer.accepted sample_cashflows.
Proof. split; [simpl; lia | reflexivity]. Qed.

Lemma C3_grace_month_witness :
  LoanAmortizer.accepted sample_cashflows /\
  exists lender info,
    LoanAmortizer.calculate_lender_cashflows pow_approx sample_cashflows (8 # 10) (16 # 100)
      = Py.Ok (lender, info)
    /\ forall k flow,
         sample_cashflows !! S k = Some flow -> flow <= 0 ->
         lender !! S k = Some 0
         /\ LoanAmortizer.owed_after pow_approx sample_cashflows (8 # 10) (16 # 100) (S k) =
            LoanAmortizer.owed_after pow_approx sample_cashflows (8 # 10) (16 # 100) k.
Proof.
  split; [exact sample_cashflows_accepted |].
  apply (C3_grace_month_pays_nothing pow_approx). exact sample_cashflows_accepted.
Defined.

Lemma C1_principal_payment_witness :
  LoanAmortizer.accepted sample_cashflows /\
  exists lender info,
    LoanAmortizer.calculate_lender_cashflows pow_approx sample_cashflows (8 # 10) (16 # 100)
      = Py.Ok (lender, info)
    /\ (forall k flow,
          sample_cashflows !! S k = Some flow -> 0 < flow ->
          let rate := LoanAmortizer.monthly_rate pow_approx (16 # 100) in
          let outstanding :=
            LoanAmortizer.owed_after pow_approx sample_cashflows (8 # 10) (16 # 100) k in
          let interest := outstanding * rate in
          let principal := Py.min (flow * (8 # 10) - interest) outstanding in
          lender !! S k = Some (interest + principal)
          /\ LoanAmortizer.owed_after pow_approx sample_cashflows (8 # 10) (16 # 100) (S k)
             = outstanding - principal
          /\ (interest <= flow * (8 # 10) ->
              0 <= principal
              /\ LoanAmortizer.owed_after pow_approx sample_cashflows (8 # 10) (16 # 100) (S k)
                 <= outstanding)
          /\ (flow * (8 # 10) < interest ->
              principal = flow * (8 # 10) - interest
              /\ principal < 0
              /\ outstanding
                 < LoanAmortizer.owed_after pow_approx sample_cashflows (8 # 10) (16 # 100) (S k)))
    /\ (forall k,
          LoanAmortizer.owed_after pow_approx sample_cashflows (8 # 10) (16 # 100) k ==
          LoanAmortizer.loan_amount info
          - LoanAmortizer.repaid_after pow_approx sample_cashflows (8 # 10) (16 # 100) k)
    /\ (forall k,
          LoanAmortizer.repaid_after pow_approx sample_cashflows (8 # 10) (16 # 100) k
          == LoanAmortizer.loan_amount info ->
          LoanAmortizer.owed_after pow_approx sample_cashflows (8 # 10) (16 # 100) k == 0).
Proof.
  split; [exact sample_cashflows_accepted |].
  apply (C1_principal_payment pow_approx). exact sample_cashflows_accepted.
Defined.

(** C1 as stated fails: with the defaults (80%, 16% a year) and a first
    month's flow of 1 on an investment of 1000, the interest (about 9.96)
    exceeds [maxPayment] (0.8); the principal payment the code computes is
    negative, not the clamped 0, and the outstanding principal grows. *)
Lemma C1_counterexample_no_clamp :
  let lp := 8 # 10 in
  let rate := LoanAmortizer.monthly_rate pow_approx (16 # 100) in
  let outstanding := LoanAmortizer.owed_after pow_approx lean_cashflows lp (16 # 100) 0 in
  LoanAmortizer.accepted lean_cashflows
  /\ lean_cashflows !! 1%nat = Some 1
  /\ 1 * lp < outstanding * rate
  /\ LoanAmortizer.actual_principal_payment lp rate outstanding 1 < 0
  /\ LoanAmortizer.clamped_principal_payment lp rate outstanding 1 == 0
  /\ ~ LoanAmortizer.owed_after pow_approx lean_cashflows lp (16 # 100) 1 <= outstanding.
Proof.
  cbv zeta. split; [split; [simpl; lia | reflexivity] |].
  split; [reflexivity |].
  split; [vm_compute; reflexivity |].
  split; [vm_compute; reflexivity |].
  split; [vm_compute; reflexivity |].
  vm_compute. intros Hle. apply Hle. reflexivity.
Qed.

Lemma C10_payment_bounds_witness :
  (forall x, 1 <= x -> 1 <= pow_approx x (1 / 12)) /\
  LoanAmortizer.accepted sample_cashflows /\ 0 < 8 # 10 /\ 0 <= 16 # 100 /\
  exists lender info,
    LoanAmortizer.calculate_lender_cashflows pow_approx sample_cashflows (8 # 10) (16 # 100)
      = Py.Ok (lender, info)
    /\ length lender = length sample_cashflows
    /\ (forall k flow,
          sample_cashflows !! S k = Some flow ->
          exists payment,
            lender !! S k = Some payment
            /\ 0 <= payment
            /\ (0 <= flow -> payment <= (8 # 10) * flow)
            /\ (flow <= 0 -> payment = 0))
    /\ (forall k,
          LoanAmortizer.owed_after pow_approx sample_cashflows (8 # 10) (16 # 100) k == 0 ->
          forall j payment,
            (k <= j)%nat -> lender !! S j = Some payment -> payment == 0).
Proof.
  split; [exact pow_approx_ge_1 |].
  split; [exact sample_cashflows_accepted |].
  split; [reflexivity |]. split; [discriminate |].
  apply (C10_payment_bounds pow_approx);
    [exact pow_approx_ge_1 | exact sample_cashflows_accepted | reflexivity | discriminate].
Defined.

(** C10 as stated fails in a month with a negative flow: on an investment
    of 1000 whose first month loses 5, with the defaults (80%, 16% a year),
    the input is accepted, the month is a grace month and the lender payment
    is 0, while [loanPercentage * flow] is -4: the interval
    [[0, loanPercentage * flow]] is empty and the payment is above it. *)
Lemma C10_counterexample_negative_flow :
  (forall x, 1 <= x -> 1 <= pow_approx x (1 / 12))
  /\ LoanAmortizer.accepted losing_cashflows /\ 0 < 8 # 10 /\ 0 <= 16 # 100
  /\ exists lender info,
       LoanAmortizer.calculate_lender_cashflows pow_approx losing_cashflows (8 # 10) (16 # 100)
       = Py.Ok (lender, info)
       /\ losing_cashflows !! 1%nat = Some (- (5))
       /\ lender !! 1%nat = Some 0
       /\ (8 # 10) * - (5) == - (4)
       /\ ~ (0 <= 0 <= (8 # 10) * - (5)).
Proof.
  split; [exact pow_approx_ge_1 |].
  split; [split; [simpl; lia | reflexivity] |].
  split; [reflexivity |]. split; [discriminate |].
  eexists _, _. split; [vm_compute; reflexivity |].
  split; [reflexivity |]. split; [reflexivity |]. split; [reflexivity |].
  intros [_ Hle]. vm_compute in Hle. apply Hle. reflexivity.
Qed.

(** ** ReturnCapEngine *)

Section EngineFacts.

Import ReturnCapEngine.

Variable float_pow : Q -> Q -> Q.
Variable irr : list Q -> irr_outcome.

Lemma collect_returns_length gps months returns cumulative :
  collect_returns gps months = Py.Ok (returns, cumulative) ->
  length returns = length months.
Proof.
  revert returns cumulative.
  induction months as [| month rest IH]; intros returns cumulative Hrun; simpl in Hrun.
  - injection Hrun as <- _. reflexivity.
  - destruct (gps !! month) as [gp |]; [| discriminate].
    destruct (collect_returns gps rest) as [[rs c] | e]; [| discriminate].
    specialize (IH rs c eq_refl).
    destruct gp as [g |]; [destruct (Qlt_le_dec 0 g) |];
      injection Hrun as <- _; simpl; f_equal; exact IH.
Qed.

(** The first loop returns as soon as the series covers the months asked. *)
Lemma collect_returns_total gps months :
  (forall month, month ∈ months -> (month < length gps)%nat) ->
  exists returns cumulative, collect_returns gps months = Py.Ok (returns, cumulative).
Proof.
  induction months as [| month rest IH]; intros Hin; simpl.
  - eexists _, _. reflexivity.
  - destruct (lookup_lt_is_Some_2 gps month) as [gp Hgp].
    { apply Hin. left. }
    rewrite Hgp. destruct IH as (rs & c & ->).
    { intros m Hm. apply Hin. right. exact Hm. }
    destruct gp as [g |]; [destruct (Qlt_le_dec 0 g) |]; eexists _, _; reflexivity.
Qed.

Lemma zero_from_length start l : length (zero_from start l) = length l.
Proof.
  unfold zero_from. generalize (seq start (length l - start)) as idx.
  intros idx. revert l. induction idx as [| i idx IH]; intros l; simpl; [reflexivity |].
  rewrite IH. apply length_insert.
Qed.

(** The search stops only on a prefix whose IRR is defined and reaches the
    target: an undefined IRR leaves the month as not yet reached. *)
Lemma find_target_month_Some loan target returns months m :
  find_target_month irr loan target returns months = Some m ->
  exists month r,
    month ∈ months /\ m = S month
    /\ irr (- loan :: take m returns) = IrrFinite r /\ target <= r.
Proof.
  induction months as [| month rest IH]; simpl; [discriminate |].
  intros Hfind.
  assert (Hrest : find_target_month irr loan target returns rest = Some m ->
                  exists month' r,
                    month' ∈ month :: rest /\ m = S month'
                    /\ irr (- loan :: take m returns) = IrrFinite r /\ target <= r).
  { intros Hr. destruct (IH Hr) as (mo & r & Hin & Hm & Hirr & Hle).
    exists mo, r. split; [right; exact Hin | auto]. }
  destruct (irr (- loan :: take (S month) returns)) as [r | |] eqn:Hirr; auto.
  destruct (Qle_bool target r) eqn:Hle; auto.
  injection Hfind as <-. exists month, r.
  split; [left |]. split; [reflexivity |]. split; [exact Hirr |].
  apply Qle_bool_iff. exact Hle.
Qed.

(** No month before the one found had a defined IRR reaching the target. *)
Lemma find_target_month_first loan target returns months m :
  find_target_month irr loan target returns months = Some m ->
  exists earlier later,
    months = earlier ++ (m - 1)%nat :: later
    /\ forall month r,
         month ∈ earlier ->
         irr (- loan :: take (S month) returns) = IrrFinite r -> r < target.
Proof.
  induction months as [| month rest IH]; simpl; [discriminate |].
  intros Hfind.
  assert (Hrest : (forall r, irr (- loan :: take (S month) returns) = IrrFinite r -> r < target) ->
                  find_target_month irr loan target returns rest = Some m ->
                  exists earlier later,
                    month :: rest = earlier ++ (m - 1)%nat :: later
                    /\ forall month' r,
                         month' ∈ earlier ->
                         irr (- loan :: take (S month') returns) = IrrFinite r -> r < target).
  { intros Hmiss Hr. destruct (IH Hr) as (earlier & later & -> & Hbefore).
    exists (month :: earlier), later. split; [reflexivity |].
    intros month' r Hin. apply elem_of_cons in Hin as [-> | Hin];
      [apply Hmiss | apply Hbefore; exact Hin]. }
  destruct (irr (- loan :: take (S month) returns)) as [r | |] eqn:Hirr;
    try (apply Hrest; [discriminate | exact Hfind]).
  destruct (Qle_bool target r) eqn:Hle.
  - injection Hfind as <-. exists [], rest. split; [simpl; f_equal; lia |].
    intros month' r' Hin. inversion Hin.
  - apply Hrest; [| exact Hfind]. intros r' [= <-].
    destruct (Qlt_le_dec r target) as [Hlt | Hge]; [exact Hlt |].
    apply Qle_bool_iff in Hge. congruence.
Qed.

(** Zeroing from [start] keeps the entries before it and clears the rest. *)
Lemma zero_from_lookup start l i :
  zero_from start l !! i =
  if decide (i < start)%nat then l !! i else (fun _ => 0) <$> l !! i.
Proof.
  unfold zero_from.
  assert (Hgen : forall idx (acc : list Q),
             foldl (fun acc j => <[j := 0]> acc) acc idx !! i =
             if decide (i ∈ idx) then (fun _ => 0) <$> acc !! i else acc !! i).
  { induction idx as [| a idx IHidx]; intros acc; cbn [foldl].
    - rewrite decide_False; [reflexivity | intros Hin; inversion Hin].
    - rewrite IHidx. destruct (decide (a = i)) as [-> | Hne].
      + rewrite (decide_True (P := i ∈ i :: idx)) by left.
        destruct (decide (i < length acc)%nat) as [Hlt | Hge].
        * rewrite list_lookup_insert_eq by exact Hlt.
          destruct (lookup_lt_is_Some_2 acc i Hlt) as [x ->].
          destruct (decide (i ∈ idx)); reflexivity.
        * rewrite list_insert_ge by lia.
          rewrite (lookup_ge_None_2 acc i) by lia.
          destruct (decide (i ∈ idx)); reflexivity.
      + rewrite list_lookup_insert_ne by exact Hne.
        destruct (decide (i ∈ idx)) as [Hin | Hnin].
        * rewrite decide_True by (right; exact Hin). reflexivity.
        * rewrite decide_False; [reflexivity |].
          intros Hin. apply elem_of_cons in Hin as [-> | Hin]; contradiction. }
  rewrite Hgen. destruct (decide (i < start)%nat) as [Hlt | Hge].
  - rewrite decide_False; [reflexivity |]. rewrite elem_of_seq. lia.
  - destruct (decide (i < length l)%nat) as [Hin | Hout].
    + rewrite decide_True; [reflexivity |]. rewrite elem_of_seq. lia.
    + rewrite (lookup_ge_None_2 l i) by lia. destruct (decide _); reflexivity.
Qed.

End EngineFacts.

Section EngineClaims.

Import ReturnCapEngine.

Variable float_pow : Q -> Q -> Q.
Variable irr : list Q -> irr_outcome.

(** C4 (as the code has it). When the root finder signals failure by
    returning [nan] rather than raising and the gross-profit series covers
    the horizon, [calculate_fund_returns_for_cohort] returns a record; a
    month is reported as the target month only if the IRR of its prefix is
    defined and at least the target, so a prefix with an undefined IRR counts
    as not yet reached; an undefined IRR of the final series is reported as
    [actual_irr = 0]; and in the summary table an undefined IRR makes
    [calculate_irr] return [None], which the row stores as 0. *)
Theorem C4_undefined_irr_reported_as_zero sm gps target max_years :
  (forall cf, irr cf <> IrrRaise) ->
  (Z.to_nat (Z.min 60 (max_years * 12)) <= length gps)%nat ->
  exists res,
    calculate_fund_returns_for_cohort float_pow irr sm gps target max_years = Py.Ok res
    /\ (forall m,
          months_to_target res = Some m ->
          exists r,
            irr (- loan_amount res :: take m (monthly_returns res)) = IrrFinite r
            /\ target <= r)
    /\ (irr (- loan_amount res :: final_monthly_returns res) = IrrNaN -> actual_irr res = 0)
    /\ (forall sums,
          irr (omap id (take 60 sums)) = IrrNaN ->
          calculate_irr irr (take 60 sums) = None /\ summary_irr_cell irr sums = 0).
Proof.
  intros Hnan Hlen. unfold calculate_fund_returns_for_cohort.
  set (n := Z.to_nat (Z.min 60 (max_years * 12))) in *.
  destruct (collect_returns_total gps (seq 0 n)) as (returns & cumulative & Hrun).
  { intros month Hin. apply elem_of_seq in Hin. lia. }
  rewrite Hrun.
  assert (Hlr : (length returns <= 60)%nat).
  { rewrite (collect_returns_length _ _ _ _ Hrun), length_seq. unfold n. lia. }
  set (first_call := if (_ && _)%bool then _ else _).
  assert (Hfirst : first_call <> IrrRaise).
  { unfold first_call. destruct (_ && _)%bool; [apply Hnan | discriminate]. }
  destruct first_call as [r0 | |]; [| | congruence].
  all: eexists; split; [reflexivity |]; cbn [months_to_target loan_amount monthly_returns
    final_monthly_returns actual_irr].
  all: split; [| split].
  all: try (intros m Hm; rewrite (take_ge returns 60) by exact Hlr;
            destruct (find_target_month_Some irr _ _ _ _ _ Hm) as (mo & r & _ & _ & Hirr & Hle);
            exists r; split; assumption).
  all: try (intros Hfin; rewrite take_ge in Hfin;
            [rewrite Hfin; reflexivity |
             destruct (find_target_month irr (sm * (8 # 10)) target returns (seq 0 (length returns)));
             [rewrite zero_from_length |]; exact Hlr]).
  all: intros sums Hs; unfold summary_irr_cell, calculate_irr; rewrite Hs;
    destruct (_ <? 2)%nat; split; reflexivity.
Qed.

End EngineClaims.

Lemma irr_bisect_never_raises cf : ReturnCapEngine.irr_bisect cf <> ReturnCapEngine.IrrRaise.
Proof. unfold ReturnCapEngine.irr_bisect. destruct (_ && _)%bool; discriminate. Qed.

Lemma C4_undefined_irr_witness :
  (forall cf, ReturnCapEngine.irr_bisect cf <> ReturnCapEngine.IrrRaise) /\
  (Z.to_nat (Z.min 60 (5 * 12)) <= length no_profits)%nat /\
  exists res,
    ReturnCapEngine.calculate_fund_returns_for_cohort pow_approx ReturnCapEngine.irr_bisect
      100 no_profits (16 # 100) 5 = Py.Ok res
    /\ (forall m,
          ReturnCapEngine.months_to_target res = Some m ->
          exists r,
            ReturnCapEngine.irr_bisect
              (- ReturnCapEngine.loan_amount res :: take m (ReturnCapEngine.monthly_returns res))
            = ReturnCapEngine.IrrFinite r
            /\ 16 # 100 <= r)
    /\ (ReturnCapEngine.irr_bisect
          (- ReturnCapEngine.loan_amount res :: ReturnCapEngine.final_monthly_returns res)
        = ReturnCapEngine.IrrNaN -> ReturnCapEngine.actual_irr res = 0)
    /\ (forall sums,
          ReturnCapEngine.irr_bisect (omap id (take 60 sums)) = ReturnCapEngine.IrrNaN ->
          ReturnCapEngine.calculate_irr ReturnCapEngine.irr_bisect (take 60 sums) = None
          /\ ReturnCapEngine.summary_irr_cell ReturnCapEngine.irr_bisect sums = 0).
Proof.
  split; [exact irr_bisect_never_raises |].
  split; [vm_compute; lia |].
  apply (C4_undefined_irr_reported_as_zero pow_approx ReturnCapEngine.irr_bisect);
    [exact irr_bisect_never_raises | vm_compute; lia].
Defined.

(** C4 as stated fails: with no gross profit at all the root finder has no
    sign change to find and answers [nan]; the record reports
    [actual_irr = 0] (and no target month), and the summary row of the same
    cash flow stores 0 in its IRR cell. *)
Lemma C4_counterexample_coerced_to_zero :
  let undefined_flow := - (80) :: repeat 0 59 in
  ReturnCapEngine.irr_bisect undefined_flow = ReturnCapEngine.IrrNaN
  /\ (exists res,
        ReturnCapEngine.calculate_fund_returns_for_cohort pow_approx ReturnCapEngine.irr_bisect
          100 no_profits (16 # 100) 5 = Py.Ok res
        /\ ReturnCapEngine.months_to_target res = None
        /\ ReturnCapEngine.actual_irr res = 0)
  /\ ReturnCapEngine.calculate_irr ReturnCapEngine.irr_bisect (map Some undefined_flow) = None
  /\ ReturnCapEngine.summary_irr_cell ReturnCapEngine.irr_bisect (map Some undefined_flow) = 0.
Proof.
  cbv zeta. split; [vm_compute; reflexivity |].
  split; [| split; vm_compute; reflexivity].
  eexists. split; [vm_compute; reflexivity |]. split; reflexivity.
Qed.

(** C2 on the code: with a loan of 80 repaid 88, 48, 40 the one-month prefix
    has a monthly IRR of about 10%, more than 200% annualised and so far
    above the 16% target, yet the code compares the monthly rate itself with
    the target: it lets month 2 be paid and stops only there, where the rule
    of the specification stops after month 1. *)
Theorem C2_cap_compares_monthly_rate :
  let loan := 100 * (8 # 10) in
  let target := 16 # 100 in
  (exists r1,
     ReturnCapEngine.irr_bisect [- loan; 110 * (8 # 10)] = ReturnCapEngine.IrrFinite r1
     /\ r1 < target /\ target <= ReturnCapEngine.annualized r1)
  /\ (exists res,
        ReturnCapEngine.calculate_fund_returns_for_cohort pow_approx ReturnCapEngine.irr_bisect
          100 early_profits target 5 = Py.Ok res
        /\ ReturnCapEngine.months_to_target res = Some 2%nat
        /\ Forall2 Qeq (take 4 (ReturnCapEngine.final_monthly_returns res)) [88; 48; 0; 0]
        /\ ReturnCapEngine.spec_find_target_month ReturnCapEngine.irr_bisect loan target
             (ReturnCapEngine.monthly_returns res) (seq 0 60) = Some 1%nat).
Proof.
  cbv zeta. split.
  - eexists. split; [vm_compute; reflexivity |].
    split; [vm_compute; reflexivity | vm_compute; discriminate].
  - eexists. split; [vm_compute; reflexivity |].
    split; [reflexivity |]. split; [| vm_compute; reflexivity].
    repeat constructor.
Qed.

(** ** HistoricalRatioModel *)

Section SortFacts.

Context {A : Type} (key : A -> Z).

Lemma insert_by_key_Permutation x l : insert_by_key key x l ≡ₚ x :: l.
Proof.
  induction l as [| y l IH]; [reflexivity |].
  cbn [insert_by_key]. destruct (key x <=? key y)%Z; [reflexivity |].
  rewrite IH. apply Permutation_swap.
Qed.

Lemma sort_by_key_Permutation l : sort_by_key key l ≡ₚ l.
Proof.
  induction l as [| x l IH]; [reflexivity |].
  cbn [sort_by_key foldr]. rewrite insert_by_key_Permutation.
  constructor. exact IH.
Qed.

Lemma insert_by_key_sorted x l :
  StronglySorted (fun a b => (key a <= key b)%Z) l ->
  StronglySorted (fun a b => (key a <= key b)%Z) (insert_by_key key x l).
Proof.
  induction 1 as [| y l Hsorted IH Hall]; [repeat constructor |].
  cbn [insert_by_key]. destruct (Z.leb_spec (key x) (key y)) as [Hle | Hgt].
  - constructor; [constructor; assumption |].
    constructor; [exact Hle |].
    eapply Forall_impl; [exact Hall |]. cbn. intros z Hz. lia.
  - constructor; [exact IH |].
    rewrite insert_by_key_Permutation. constructor; [lia | exact Hall].
Qed.

Lemma sort_by_key_sorted l :
  StronglySorted (fun a b => (key a <= key b)%Z) (sort_by_key key l).
Proof.
  induction l as [| x l IH]; [constructor |].
  cbn [sort_by_key foldr]. apply insert_by_key_sorted. exact IH.
Qed.

End SortFacts.

Section WindowFacts.

Context {A : Type} (key : A -> Z).

Lemma filter_none (P : A -> Prop) `{forall x, Decision (P x)} l :
  Forall (fun x => ~ P x) l -> filter P l = [].
Proof.
  induction 1 as [| x l Hx _ IH]; [reflexivity |].
  rewrite filter_cons. destruct (decide (P x)); [contradiction | exact IH].
Qed.

Lemma filter_all (P : A -> Prop) `{forall x, Decision (P x)} l :
  Forall P l -> filter P l = l.
Proof.
  induction 1 as [| x l Hx _ IH]; [reflexivity |].
  rewrite filter_cons. destruct (decide (P x)); [f_equal; exact IH | contradiction].
Qed.

(** In a list sorted by key, what comes before position [d] has no greater
    key than what comes from it on. *)
Lemma sorted_before_after l d a b :
  StronglySorted (fun a b => (key a <= key b)%Z) l ->
  a ∈ take d l -> b ∈ drop d l -> (key a <= key b)%Z.
Proof.
  intros Hsorted Ha Hb. rewrite <- (take_drop d l) in Hsorted.
  apply (StronglySorted_app_1_elem_of _ _ _ a b Hsorted Ha Hb).
Qed.

Lemma outside_window (l : list A) d a :
  a ∈ l -> a ∉ drop d l -> a ∈ take d l.
Proof.
  intros Ha Hout. rewrite <- (take_drop d l) in Ha.
  apply elem_of_app in Ha as [Ha | Ha]; [exact Ha | contradiction].
Qed.

(** With distinct keys, the entries from position [d] on are those with
    fewer than [length l - d] entries of greater key. *)
Lemma window_by_count l d m :
  StronglySorted (fun a b => (key a <= key b)%Z) l ->
  NoDup (map key l) ->
  m ∈ drop d l
  <-> m ∈ l /\ (length (filter (fun k => (key m < key k)%Z) l) < length l - d)%nat.
Proof.
  intros Hsorted Hdistinct.
  assert (Hsplit : filter (fun k => (key m < key k)%Z) l
                   = filter (fun k => (key m < key k)%Z) (take d l)
                     ++ filter (fun k => (key m < key k)%Z) (drop d l)).
  { rewrite <- filter_app, take_drop. reflexivity. }
  split.
  - intros Hm. split; [apply (subseteq_drop d l), Hm |].
    rewrite Hsplit, filter_none, app_nil_l.
    + rewrite <- length_drop. apply (length_filter_lt _ _ m); [exact Hm | lia].
    + apply Forall_forall. intros a Ha.
      pose proof (sorted_before_after l d a m Hsorted Ha Hm). lia.
  - intros [Hm Hcount].
    destruct (decide (Exists (fun x => key x = key m) (drop d l))) as [Hin | Hout].
    + apply Exists_exists in Hin as (b & Hb & Hkey).
      assert (Hbl : b ∈ l) by (apply (subseteq_drop d l), Hb).
      assert (Heq : b = m); [| subst b; exact Hb].
      apply list_elem_of_lookup in Hbl as [i Hi]. apply list_elem_of_lookup in Hm as [j Hj].
      assert (Hij : i = j).
      { apply (NoDup_lookup (map key l) i j (key m)); [exact Hdistinct | |].
        - rewrite list_lookup_fmap, Hi. cbn. f_equal. exact Hkey.
        - rewrite list_lookup_fmap, Hj. reflexivity. }
      subst j. congruence.
    + exfalso.
      assert (Hbefore : m ∈ take d l).
      { apply outside_window; [exact Hm |]. intros Hd. apply Hout.
        apply Exists_exists. exists m. split; [exact Hd | reflexivity]. }
      assert (Hlater : Forall (fun k => (key m < key k)%Z) (drop d l)).
      { apply Forall_forall. intros b Hb.
        pose proof (sorted_before_after l d m b Hsorted Hbefore Hb).
        assert (key b <> key m); [| lia].
        intros Hkey. apply Hout. apply Exists_exists. exists b. split; assumption. }
      rewrite Hsplit, (filter_all _ _ Hlater), length_app, length_drop in Hcount. lia.
Qed.

End WindowFacts.

Section RatioModelFacts.

Import HistoricalRatioModel.

Context `{MonthNames K}.

Variable sm_dict : gmap K Q.
Variable revenue_dict : gmap K (option Q).

(** [all_months] lists each month that has a spend or a revenue entry, once
    and in the order of [month_to_datetime]. *)
Lemma all_months_Permutation :
  all_months sm_dict revenue_dict ≡ₚ elements (dom sm_dict ∪ dom revenue_dict).
Proof. unfold all_months. rewrite sort_by_key_Permutation. apply listing_perm. Qed.

Lemma all_months_elem m :
  m ∈ all_months sm_dict revenue_dict <-> m ∈ dom sm_dict \/ m ∈ dom revenue_dict.
Proof. rewrite all_months_Permutation, elem_of_elements, elem_of_union. reflexivity. Qed.

Lemma all_months_NoDup : NoDup (all_months sm_dict revenue_dict).
Proof. rewrite all_months_Permutation. apply NoDup_elements. Qed.

Lemma all_months_sorted :
  StronglySorted (fun a b => (month_to_datetime a <= month_to_datetime b)%Z)
    (all_months sm_dict revenue_dict).
Proof. unfold all_months. apply sort_by_key_sorted. Qed.

Lemma last_12_drop {A : Type} (l : list A) : last_12 l = drop (length l - 12) l.
Proof.
  unfold last_12. destruct (12 <=? length l)%nat eqn:Hlen; [reflexivity |].
  apply Nat.leb_gt in Hlen. replace (length l - 12)%nat with O by lia. reflexivity.
Qed.

Lemma is_heads_month_ratio m :
  is_heads (month_ratio sm_dict revenue_dict m) = undefined_or_large sm_dict revenue_dict m.
Proof.
  unfold month_ratio, undefined_or_large.
  destruct (default (Some 0) (revenue_dict !! m)) as [revenue |]; [| reflexivity].
  destruct (Qlt_le_dec 0 revenue); reflexivity.
Qed.

Lemma heads_count_map months :
  heads_count (map (month_ratio sm_dict revenue_dict) months) =
  length (filter (fun m => undefined_or_large sm_dict revenue_dict m = true) months).
Proof.
  unfold heads_count. induction months as [| m rest IH]; [reflexivity |].
  cbn [map]. rewrite !filter_cons, is_heads_month_ratio.
  destruct (decide (undefined_or_large sm_dict revenue_dict m = true));
    cbn [length]; rewrite IH; reflexivity.
Qed.

Lemma heads_fraction_map months :
  heads_fraction (map (month_ratio sm_dict revenue_dict) months) =
  fraction_of (undefined_or_large sm_dict revenue_dict) months.
Proof.
  unfold heads_fraction, fraction_of. destruct months as [| m rest]; [reflexivity |].
  rewrite heads_count_map, length_map. reflexivity.
Qed.

Lemma fraction_of_ext (p q : K -> bool) months :
  (forall m, m ∈ months -> p m = q m) -> fraction_of p months = fraction_of q months.
Proof.
  intros Hext. unfold fraction_of. destruct months as [| m0 rest]; [reflexivity |].
  f_equal. f_equal. f_equal.
  induction (m0 :: rest) as [| m l IH]; [reflexivity |].
  rewrite !filter_cons, (Hext m) by left.
  destruct (decide (q m = true)); cbn [length]; rewrite IH; auto.
  all: intros m' Hm'; apply Hext; right; exact Hm'.
Qed.

(** The dictionary [monthly_ratios] holds the ratio of every month visited. *)
Lemma monthly_ratios_lookup (f : K -> option Q) months : forall (d : gmap K (option Q)) m,
  m ∈ months ->
  foldl (fun d month => <[month := f month]> d) d months !! m = Some (f m).
Proof.
  induction months as [| a rest IH] using rev_ind; intros d m Hin.
  - inversion Hin.
  - rewrite foldl_app. cbn [foldl].
    destruct (decide (a = m)) as [-> | Hne].
    + apply lookup_insert_eq.
    + rewrite lookup_insert_ne by exact Hne. apply IH.
      apply elem_of_app in Hin as [Hin | Hin]; [exact Hin |].
      apply list_elem_of_singleton in Hin. congruence.
Qed.

Lemma last_12_ratios_map (f : K -> option Q) months recent :
  (forall m, m ∈ recent -> m ∈ months) ->
  omap (fun month =>
          foldl (fun d month => <[month := f month]> d) (∅ : gmap K (option Q)) months
            !! month) recent
  = map f recent.
Proof.
  intros Hsub. induction recent as [| m rest IH]; [reflexivity |].
  cbn [omap list_omap map]. rewrite monthly_ratios_lookup by (apply Hsub; left).
  rewrite IH; [reflexivity |]. intros m' Hm'. apply Hsub. right. exact Hm'.
Qed.

End RatioModelFacts.


Lemma steady_months : HistoricalRatioModel.all_months steady_sm steady_revenue = [1; 2; 3]%nat.
Proof. vm_compute. reflexivity. Qed.

Lemma steady_revenue_positive m :
  m ∈ HistoricalRatioModel.all_months steady_sm steady_revenue ->
  exists revenue, steady_revenue !! m = Some (Some revenue) /\ 0 < revenue.
Proof.
  rewrite steady_months. intros Hm.
  repeat (apply elem_of_cons in Hm as [-> | Hm]);
    [| | | inversion Hm]; eexists; (split; [vm_compute; reflexivity | reflexivity]).
Qed.

Lemma history_dates_distinct :
  NoDup (map month_to_datetime (HistoricalRatioModel.all_months history_sm history_revenue)).
Proof. apply (bool_decide_unpack _). vm_compute. exact I. Qed.



Example steady_heads_percentage :
  HistoricalRatioModel.heads_percentage_overall
    (HistoricalRatioModel.build_prediction_algorithm steady_sm steady_revenue true) == 1 # 3.
Proof. vm_compute. reflexivity. Qed.

(** ** RatioSampler *)

Section RatioSamplerFacts.

Import RatioSampler HistoricalRatioModel.

Context {G : Type} `{RandomSource G}.

Lemma py_div_defined a b : ~ b == 0 -> Py.div a b = Py.Ok (a / b).
Proof.
  intros Hb. unfold Py.div. destruct (Qeq_bool b 0) eqn:Heq; [| reflexivity].
  apply Qeq_bool_iff in Heq. contradiction.
Qed.

Lemma py_div_by_zero a : Py.div a 0 = Py.Raise Py.ZeroDivisionError.
Proof. reflexivity. Qed.

Lemma Qdiv_pos a b : 0 < a -> 0 < b -> 0 < a / b.
Proof.
  intros Ha Hb. unfold Qdiv. apply Qmult_lt_0_compat; [exact Ha |].
  apply Qinv_lt_0_compat. exact Hb.
Qed.

(** The unguarded blend divides by the drawn ratio. *)
Lemma blend_zero_ratio spend last_sm cac :
  blend spend last_sm 0 cac = Py.Raise Py.ZeroDivisionError.
Proof. reflexivity. Qed.

Lemma blend_defined spend last_sm drawn cac :
  0 < drawn -> drawn < cac -> 0 < last_sm -> last_sm < spend ->
  exists ratio, blend spend last_sm drawn cac = Py.Ok ratio.
Proof.
  intros Hd Hc Hl Hs. unfold blend, mbind, result_bind.
  rewrite (py_div_defined last_sm drawn) by lra. cbn [Py.bind].
  rewrite (py_div_defined (spend - last_sm) cac) by lra. cbn [Py.bind].
  assert (0 < last_sm / drawn) by (apply Qdiv_pos; lra).
  assert (0 < (spend - last_sm) / cac) by (apply Qdiv_pos; lra).
  rewrite py_div_defined by lra. eexists. reflexivity.
Qed.

Lemma growth_factor_gt_1 i : 1 < Qpower (11 # 10) (Z.of_nat (S i)).
Proof.
  induction i as [| i IH]; [reflexivity |].
  replace (Z.of_nat (S (S i))) with (1 + Z.of_nat (S i))%Z by lia.
  rewrite Qpower_plus by discriminate.
  change (Qpower (11 # 10) 1) with (11 # 10).
  set (p := Qpower (11 # 10) (Z.of_nat (S i))) in *. lra.
Qed.

(** Spend can only have grown from a positive last spend. *)
Lemma grown_spend_more last_sm i : last_sm < grown_spend last_sm i -> 0 < last_sm.
Proof.
  unfold grown_spend. pose proof (growth_factor_gt_1 i) as Hp.
  set (p := Qpower (11 # 10) (Z.of_nat (S i))) in *. intros Hgrow.
  destruct (Qlt_le_dec 0 last_sm) as [Hpos | Hle]; [exact Hpos | exfalso].
  assert (Hprod : last_sm * (p - 1) <= 0).
  { rewrite <- (Qmult_0_l (p - 1)). apply Qmult_le_compat_r; lra. }
  lra.
Qed.

(** The guarded body of [predict_next_12_months] never divides by zero. *)
Lemma draw_ratio_guarded_no_zero_division alg last_sm i g e :
  fst (draw_ratio_guarded alg last_sm (grown_spend last_sm i) g) = Py.Raise e ->
  e = Py.IndexError.
Proof.
  unfold draw_ratio_guarded.
  destruct (random g) as [u g1].
  destruct (Qlt_le_dec u (heads_percentage alg)); [discriminate |].
  destruct (distribution alg) as [| d ds]; [discriminate |].
  destruct (choice (d :: ds) g1) as [[drawn |] g2]; cbn [fst]; [| congruence].
  destruct (conservative alg); cbn [andb]; [| discriminate].
  destruct (Qlt_le_dec drawn (cac_12m alg)) as [Hcac |]; [| discriminate].
  destruct (Qlt_le_dec last_sm (grown_spend last_sm i)) as [Hgrow |];
    cbn [andb]; [| discriminate].
  destruct (Qlt_le_dec 0 drawn) as [Hpos |]; [| discriminate].
  destruct (blend_defined (grown_spend last_sm i) last_sm drawn (cac_12m alg)
              Hpos Hcac (grown_spend_more _ _ Hgrow) Hgrow) as [ratio ->].
  discriminate.
Qed.

Lemma predict_months_no_zero_division alg last_sm months : forall g e,
  fst (predict_months alg last_sm months g) = Py.Raise e -> e = Py.IndexError.
Proof.
  induction months as [| i rest IH]; intros g e; simpl; [discriminate |].
  pose proof (draw_ratio_guarded_no_zero_division alg last_sm i g) as Hbody.
  destruct (draw_ratio_guarded alg last_sm (grown_spend last_sm i) g) as [[ratio | e0] g1].
  - specialize (IH g1).
    destruct (predict_months alg last_sm rest g1) as [[ps | e1] g2]; cbn [fst] in *.
    + discriminate.
    + intros [= <-]. apply IH. reflexivity.
  - cbn [fst] in *. intros [= <-]. apply Hbody. reflexivity.
Qed.

(** The sibling implementation, which tests [drawn_ratio > 0] before
    blending, never raises [ZeroDivisionError], whatever is drawn. *)
Lemma predict_next_12_months_no_zero_division `{MonthNames K} (sm_dict : gmap K Q) alg g :
  fst (predict_next_12_months sm_dict alg g) <> Py.Raise Py.ZeroDivisionError.
Proof.
  unfold predict_next_12_months.
  destruct (last (sort_by_key month_to_datetime (listing (dom sm_dict)))); [| discriminate].
  intros Hraise. apply predict_months_no_zero_division in Hraise. discriminate.
Qed.

End RatioSamplerFacts.

(** C5 on the code.  A history whose first month has revenue but no spend
    puts the ratio 0 in the pool; in conservative mode, when that ratio is
    drawn for a month whose spend has grown, [run_single_prediction_ratio]
    blends without testing the drawn ratio and the division
    [last_sm / drawn_ratio] raises. *)
Theorem C5_blend_divides_by_zero :
  let alg :=
    HistoricalRatioModel.build_prediction_algorithm idle_month_sm idle_month_revenue true in
  Forall2 Qeq (HistoricalRatioModel.distribution alg) [0; 2]
  /\ HistoricalRatioModel.cac_12m alg == 1
  /\ HistoricalRatioModel.heads_percentage alg == 0
  /\ fst (RatioSampler.run_single_prediction_ratio idle_month_sm idle_month_revenue alg
            ([0; 0]%nat : replay))
     = Py.Raise Py.ZeroDivisionError
  /\ exists predictions,
       fst (RatioSampler.predict_next_12_months idle_month_sm alg ([0; 0]%nat : replay))
       = Py.Ok predictions.
Proof.
  cbv zeta. split; [vm_compute; repeat constructor |].
  split; [vm_compute; reflexivity |]. split; [vm_compute; reflexivity |].
  split; [vm_compute; reflexivity |].
  eexists. vm_compute. reflexivity.
Qed.

(** ** RetentionCurveSampler *)

#[global] Instance replay_in_range : RandomSourceInRange replay.
Proof. intros n g Hn. simpl. apply Nat.mod_upper_bound. lia. Qed.

Section RetentionFacts.

Import RetentionCurveSampler.

Variable retention_table : list (list (option Q)).

Lemma nearest_columns_incl quota candidates : forall found c,
  c ∈ found -> c ∈ nearest_columns retention_table quota candidates found.
Proof.
  induction candidates as [| a rest IH]; intros found c Hin; simpl; [exact Hin |].
  destruct (column_values retention_table a); [apply IH; exact Hin |].
  assert (Hin' : c ∈ found ++ [a]) by (apply elem_of_app; left; exact Hin).
  destruct (length (found ++ [a]) =? quota)%nat; [exact Hin' | apply IH; exact Hin'].
Qed.

(** Every column kept by a search is non-empty, or was handed in. *)
Lemma nearest_columns_kept quota candidates : forall found c,
  c ∈ nearest_columns retention_table quota candidates found ->
  c ∈ found \/ column_values retention_table c <> [].
Proof.
  induction candidates as [| a rest IH]; intros found c Hin; simpl in Hin; [left; exact Hin |].
  destruct (column_values retention_table a) as [| v vs] eqn:Ha; [apply IH; exact Hin |].
  assert (Hstep : c ∈ found ++ [a] -> c ∈ found \/ column_values retention_table c <> []).
  { intros Hc. apply elem_of_app in Hc as [Hc | Hc]; [left; exact Hc | right].
    apply list_elem_of_singleton in Hc as ->. rewrite Ha. discriminate. }
  destruct (length (found ++ [a]) =? quota)%nat; [apply Hstep; exact Hin |].
  destruct (IH _ _ Hin) as [Hc | Hc]; [apply Hstep; exact Hc | right; exact Hc].
Qed.

(** A search over candidates that include a non-empty column keeps at least
    one non-empty column. *)
Lemma nearest_columns_hit quota candidates : forall found c,
  c ∈ candidates -> column_values retention_table c <> [] ->
  exists c', c' ∈ nearest_columns retention_table quota candidates found
             /\ column_values retention_table c' <> [].
Proof.
  induction candidates as [| a rest IH]; intros found c Hin Hc; [inversion Hin |].
  simpl. destruct (column_values retention_table a) as [| v vs] eqn:Ha.
  - apply elem_of_cons in Hin as [-> | Hin]; [congruence |].
    apply (IH found c Hin Hc).
  - exists a. split; [| rewrite Ha; discriminate].
    assert (Hin' : a ∈ found ++ [a]).
    { apply elem_of_app. right. apply list_elem_of_singleton. reflexivity. }
    destruct (length (found ++ [a]) =? quota)%nat;
      [exact Hin' | apply nearest_columns_incl; exact Hin'].
Qed.

Lemma concat_columns_nonempty cols c :
  c ∈ cols -> column_values retention_table c <> [] ->
  concat (map (column_values retention_table) cols) <> [].
Proof.
  induction cols as [| a rest IH]; intros Hin Hc; [inversion Hin |].
  cbn [map concat]. apply elem_of_cons in Hin as [-> | Hin].
  - destruct (column_values retention_table a); [congruence | discriminate].
  - intros Happ. apply app_eq_nil in Happ as [_ Hrest]. apply (IH Hin Hc Hrest).
Qed.

Lemma widen_nonempty col_values left_cols right_cols c :
  c ∈ left_cols ++ right_cols -> column_values retention_table c <> [] ->
  widen retention_table col_values left_cols right_cols <> [].
Proof.
  intros Hin Hc. unfold widen. intros Happ.
  apply app_eq_nil in Happ as [_ Happ]. apply app_eq_nil in Happ as [Hl Hr].
  apply elem_of_app in Hin as [Hin | Hin];
    [apply (concat_columns_nonempty _ _ Hin Hc Hl) | apply (concat_columns_nonempty _ _ Hin Hc Hr)].
Qed.

Lemma widen_keeps_column col_values left_cols right_cols :
  col_values <> [] -> widen retention_table col_values left_cols right_cols <> [].
Proof. intros Hne. unfold widen. destruct col_values; [congruence | discriminate]. Qed.

(** Within the 60 columns the sampler scans, widening finds whatever exists. *)
Lemma pool_nonempty c :
  (c < 60)%nat -> observed_in_horizon retention_table -> pool retention_table c <> [].
Proof.
  intros Hc (c' & Hc' & Hobs). unfold pool.
  destruct (column_values retention_table c) as [| v vs] eqn:Hcol.
  - cbn [length Nat.leb].
    assert (Hne : c' <> c) by (intros ->; congruence).
    destruct (Nat.lt_ge_cases c' c) as [Hlt | Hge].
    + destruct (nearest_columns_hit 5 (left_range c) [] c') as (k & Hk & Hkv); [| exact Hobs |].
      { unfold left_range. apply elem_of_reverse, elem_of_seq. lia. }
      apply (widen_nonempty _ _ _ k); [apply elem_of_app; left; exact Hk | exact Hkv].
    + destruct (nearest_columns_hit 5 (right_range c) [] c') as (k & Hk & Hkv); [| exact Hobs |].
      { unfold right_range. apply elem_of_seq. lia. }
      apply (widen_nonempty _ _ _ k); [apply elem_of_app; right; exact Hk | exact Hkv].
  - destruct (12 <=? length (v :: vs))%nat; [apply widen_keeps_column; discriminate |].
    destruct (5 <=? length (v :: vs))%nat; [apply widen_keeps_column; discriminate |].
    destruct (2 <=? length (v :: vs))%nat; apply widen_keeps_column; discriminate.
Qed.

Context {G : Type} `{RandomSource G}.

Lemma dampen_aggressive floor chosen : dampen false floor chosen = chosen.
Proof. destruct chosen; reflexivity. Qed.

Lemma dampen_defined conservative floor chosen :
  is_Some chosen -> is_Some (dampen conservative floor chosen).
Proof.
  intros [v ->]. unfold dampen. destruct (_ && _)%bool; eexists; reflexivity.
Qed.

(** What dampening does to a drawn value. *)
Lemma dampen_conservative floor v :
  let bound := Py.max 1 floor in
  (v <= bound -> dampen true floor (Some v) = Some v)
  /\ (bound < v ->
      dampen true floor (Some v) = Some ((bound + v) / 2) /\ (bound + v) / 2 <= v).
Proof.
  intros bound. unfold dampen. fold bound. cbn [andb].
  destruct (Qlt_le_dec bound v) as [Hlt | Hle]; split; intros Hv; try lra; try reflexivity.
  split; [reflexivity |].
  assert (Hhalf : (bound + v) / 2 == (bound + v) * (1 # 2)) by (unfold Qdiv; reflexivity).
  lra.
Qed.

Lemma simulate_columns_cons conservative floor col rest g :
  simulate_columns retention_table conservative floor (col :: rest) g =
  (dampen conservative floor (fst (draw (pool retention_table col) g))
     :: fst (simulate_columns retention_table conservative floor rest
               (snd (draw (pool retention_table col) g))),
   snd (simulate_columns retention_table conservative floor rest
          (snd (draw (pool retention_table col) g)))).
Proof.
  simpl. destruct (draw (pool retention_table col) g) as [chosen g1]. simpl.
  destruct (simulate_columns retention_table conservative floor rest g1). reflexivity.
Qed.

Lemma simulate_columns_length conservative floor cols : forall g,
  length (fst (simulate_columns retention_table conservative floor cols g)) = length cols.
Proof.
  induction cols as [| col rest IH]; intros g; [reflexivity |].
  rewrite simulate_columns_cons. simpl. f_equal. apply IH.
Qed.

(** The draws do not depend on the mode: both modes leave the generator in
    the same state, and the conservative curve is the aggressive one,
    dampened. *)
Lemma simulate_columns_modes floor cols : forall g,
  snd (simulate_columns retention_table true floor cols g)
  = snd (simulate_columns retention_table false floor cols g)
  /\ fst (simulate_columns retention_table true floor cols g)
     = map (dampen true floor) (fst (simulate_columns retention_table false floor cols g)).
Proof.
  induction cols as [| col rest IH]; intros g; [split; reflexivity |].
  rewrite !simulate_columns_cons. cbn [fst snd map].
  destruct (IH (snd (draw (pool retention_table col) g))) as [Hstate Hcurve].
  split; [exact Hstate |]. rewrite dampen_aggressive, Hcurve. reflexivity.
Qed.

Lemma simulate_curves_modes floor sims : forall g,
  snd (simulate_curves retention_table true floor sims g)
  = snd (simulate_curves retention_table false floor sims g)
  /\ fst (simulate_curves retention_table true floor sims g)
     = map (map (dampen true floor)) (fst (simulate_curves retention_table false floor sims g)).
Proof.
  induction sims as [| n IH]; intros g; [split; reflexivity |].
  simpl. unfold simulate_retention_curve.
  destruct (simulate_columns_modes floor (seq 0 60) g) as [Hstate Hcurve].
  destruct (simulate_columns retention_table true floor (seq 0 60) g) as [curve_c g_c].
  destruct (simulate_columns retention_table false floor (seq 0 60) g) as [curve_a g_a].
  cbn [fst snd] in Hstate, Hcurve. subst g_c curve_c.
  destruct (IH g_a) as [Hs Hc].
  destruct (simulate_curves retention_table true floor n g_a) as [curves_c g_c'].
  destruct (simulate_curves retention_table false floor n g_a) as [curves_a g_a'].
  cbn [fst snd] in *. subst. split; reflexivity.
Qed.

Context `{!RandomSourceInRange G}.

Lemma draw_defined all_values g :
  all_values <> [] -> is_Some (fst (draw all_values g)).
Proof.
  intros Hne. destruct all_values as [| v vs]; [congruence |].
  unfold draw, choice.
  pose proof (randbelow_lt (length (v :: vs)) g) as Hlt.
  destruct (randbelow (length (v :: vs)) g) as [i g1]. cbn [fst] in *.
  apply lookup_lt_is_Some_2. apply Hlt. simpl. lia.
Qed.

Lemma simulate_columns_defined conservative floor cols : forall g i col,
  cols !! i = Some col -> pool retention_table col <> [] ->
  exists v, fst (simulate_columns retention_table conservative floor cols g) !! i = Some (Some v).
Proof.
  induction cols as [| a rest IH]; intros g i col Hi Hpool; [discriminate |].
  rewrite simulate_columns_cons. destruct i as [| i]; cbn [fst lookup list_lookup].
  - injection Hi as ->.
    destruct (dampen_defined conservative floor _ (draw_defined _ g Hpool)) as [v ->].
    exists v. reflexivity.
  - apply (IH _ i col Hi Hpool).
Qed.

End RetentionFacts.

(** C8 (as the code has it). For every retention table, as returned with its
    last cohort row removed, and every column [c] in 0..59: if some column
    among 0..59 holds an observed value outside the older-cohorts first row,
    then the widened pool of column [c] is not empty, and with a generator
    that picks indices inside the sequence the value sampled for column [c]
    is not null, in either mode. *)
Theorem C8_pool_nonempty_within_horizon (retention_table : list (list (option Q))) (c : nat) :
  (c < 60)%nat ->
  RetentionCurveSampler.observed_in_horizon retention_table ->
  RetentionCurveSampler.pool retention_table c <> []
  /\ forall (G : Type) (source : RandomSource G),
       RandomSourceInRange G ->
       forall conservative floor (g : G),
       exists v,
         fst (RetentionCurveSampler.simulate_retention_curve
                retention_table conservative floor g) !! c = Some (Some v).
Proof.
  intros Hc Hobs.
  pose proof (pool_nonempty retention_table c Hc Hobs) as Hpool.
  split; [exact Hpool |].
  intros G source Hrange conservative floor g.
  unfold RetentionCurveSampler.simulate_retention_curve.
  apply (simulate_columns_defined retention_table conservative floor (seq 0 60) g c c);
    [| exact Hpool].
  apply lookup_seq. lia.
Qed.

Lemma late_table_observed : RetentionCurveSampler.observed_in_horizon late_table.
Proof. exists 59%nat. split; [lia | vm_compute; discriminate]. Qed.

Lemma C8_pool_nonempty_witness :
  (0 < 60)%nat /\ RetentionCurveSampler.observed_in_horizon late_table /\
  RetentionCurveSampler.pool late_table 0 <> []
  /\ exists v,
       fst (RetentionCurveSampler.simulate_retention_curve late_table true 1
              ([7; 11; 13]%nat : replay)) !! 0%nat = Some (Some v).
Proof.
  split; [lia |]. split; [exact late_table_observed |].
  destruct (C8_pool_nonempty_within_horizon late_table 0) as [Hpool Hsample];
    [lia | exact late_table_observed |].
  split; [exact Hpool |].
  exact (Hsample replay replay_source replay_in_range true 1 [7; 11; 13]%nat).
Defined.

(** C8 as stated fails on a table wider than the 60 columns the sampler
    scans: the later rows hold an observed value in column 60 only, and the
    pool of column 0 is empty, so the value sampled there is null. *)
Lemma C8_counterexample_beyond_horizon :
  RetentionCurveSampler.observed_somewhere wide_table
  /\ RetentionCurveSampler.pool wide_table 0 = []
  /\ fst (RetentionCurveSampler.simulate_retention_curve wide_table true 1
            ([7; 11; 13]%nat : replay)) !! 0%nat = Some None.
Proof.
  split; [exists 60%nat; vm_compute; discriminate |].
  split; vm_compute; reflexivity.
Qed.

(** C9. From the same generator state and table, the conservative and the
    aggressive run draw the same value in every column (and leave the
    generator in the same state, so this holds curve after curve): the
    aggressive curve is the sequence of drawn values, and the conservative
    value of a column is the drawn value when that is at most
    [max(1, floor)], and otherwise the average of the drawn value and
    [max(1, floor)], which is not above the drawn value. *)
Theorem C9_conservative_dampens_aggressive
    (G : Type) (source : RandomSource G)
    (retention_table : list (list (option Q))) (floor : Q) (g : G) :
  let conservative := RetentionCurveSampler.simulate_retention_curve retention_table true floor g in
  let aggressive := RetentionCurveSampler.simulate_retention_curve retention_table false floor g in
  let bound := Py.max 1 floor in
  snd conservative = snd aggressive
  /\ length (fst conservative) = 60%nat
  /\ length (fst aggressive) = 60%nat
  /\ (forall c,
        (c < 60)%nat ->
        match fst aggressive !! c with
        | Some (Some v) =>
            (v <= bound -> fst conservative !! c = Some (Some v))
            /\ (bound < v ->
                fst conservative !! c = Some (Some ((bound + v) / 2))
                /\ (bound + v) / 2 <= v)
        | Some None => fst conservative !! c = Some None
        | None => False
        end)
  /\ fst (RetentionCurveSampler.simulate_1000_retention_curves retention_table true floor g)
     = map (map (RetentionCurveSampler.dampen true floor))
         (fst (RetentionCurveSampler.simulate_1000_retention_curves retention_table false floor g)).
Proof.
  intros conservative aggressive bound.
  destruct (simulate_columns_modes retention_table floor (seq 0 60) g) as [Hstate Hcurve].
  fold (RetentionCurveSampler.simulate_retention_curve retention_table true floor g) in Hstate, Hcurve.
  fold (RetentionCurveSampler.simulate_retention_curve retention_table false floor g) in Hstate, Hcurve.
  fold conservative in Hstate, Hcurve. fold aggressive in Hstate, Hcurve.
  assert (Hla : length (fst aggressive) = 60%nat).
  { unfold aggressive, RetentionCurveSampler.simulate_retention_curve.
    rewrite simulate_columns_length. apply length_seq. }
  split; [exact Hstate |].
  split; [rewrite Hcurve, length_map; exact Hla |].
  split; [exact Hla |]. split.
  - intros c Hc. rewrite Hcurve, list_lookup_fmap.
    destruct (lookup_lt_is_Some_2 (fst aggressive) c) as [drawn Hdrawn]; [lia |].
    rewrite Hdrawn. cbn [fmap option_fmap option_map]. destruct drawn as [v |]; [| reflexivity].
    destruct (dampen_conservative floor v) as [Hlow Hhigh]. fold bound in Hlow, Hhigh.
    split.
    + intros Hv. rewrite (Hlow Hv). reflexivity.
    + intros Hv. destruct (Hhigh Hv) as [-> Hle]. split; [reflexivity | exact Hle].
  - apply simulate_curves_modes.
Qed.

(** ** CohortCashFlowProjector *)

Section ProjectorFacts.

Import CohortCashFlowProjector.

Variable retention_curve : list (option Q).

Lemma project_revenue_cons prev month rest :
  project_revenue retention_curve prev (month :: rest) =
  match retention_curve !! month with
  | None => Py.Raise Py.IndexError
  | Some retention_value =>
      match project_revenue retention_curve (next_revenue prev retention_value) rest with
      | Py.Ok revenues => Py.Ok (next_revenue prev retention_value :: revenues)
      | Py.Raise e => Py.Raise e
      end
  end.
Proof. reflexivity. Qed.

(** The loop returns when the curve covers every month visited. *)
Lemma project_revenue_total months : forall prev,
  (forall month, month ∈ months -> (month < length retention_curve)%nat) ->
  exists revenues, project_revenue retention_curve prev months = Py.Ok revenues.
Proof.
  induction months as [| month rest IH]; intros prev Hin; [eexists; reflexivity |].
  rewrite project_revenue_cons.
  destruct (lookup_lt_is_Some_2 retention_curve month) as [ret ->]; [apply Hin; left |].
  destruct (IH (next_revenue prev ret)) as [revenues ->].
  { intros m Hm. apply Hin. right. exact Hm. }
  eexists. reflexivity.
Qed.

Lemma project_revenue_length months : forall prev revenues,
  project_revenue retention_curve prev months = Py.Ok revenues ->
  length revenues = length months.
Proof.
  induction months as [| month rest IH]; intros prev revenues Hrun.
  - injection Hrun as <-. reflexivity.
  - rewrite project_revenue_cons in Hrun.
    destruct (retention_curve !! month) as [ret |]; [| discriminate].
    destruct (project_revenue retention_curve (next_revenue prev ret) rest) as [rs | e] eqn:Hrest;
      [| discriminate].
    injection Hrun as <-. simpl. f_equal. apply (IH _ _ Hrest).
Qed.

(** Each revenue is computed from the revenue before it and the curve entry
    of its month. *)
Lemma project_revenue_step months : forall prev revenues i month,
  project_revenue retention_curve prev months = Py.Ok revenues ->
  months !! i = Some month ->
  exists ret,
    retention_curve !! month = Some ret
    /\ (prev :: revenues) !! S i = Some (next_revenue (default None ((prev :: revenues) !! i)) ret).
Proof.
  induction months as [| m rest IH]; intros prev revenues i month Hrun Hi; [discriminate |].
  rewrite project_revenue_cons in Hrun.
  destruct (retention_curve !! m) as [ret |] eqn:Hret; [| discriminate].
  destruct (project_revenue retention_curve (next_revenue prev ret) rest) as [rs | e] eqn:Hrest;
    [| discriminate].
  injection Hrun as <-. destruct i as [| i].
  - injection Hi as <-. exists ret. split; [exact Hret | reflexivity].
  - destruct (IH _ _ i month Hrest Hi) as (ret' & Hret' & Hstep).
    exists ret'. split; [exact Hret' | exact Hstep].
Qed.

End ProjectorFacts.

(** C6 (as the code has it). For a 60-entry retention curve the row is
    built without error.  The revenue of month 1 is [spend / ratio] whenever
    the ratio is not 0 and null when it is 0.  For months n = 2..60 the
    revenue is the previous revenue times the curve entry of month n when
    both are not null, and null otherwise, so a null revenue stays null in
    every later month.  Gross profit is revenue times the gross margin, null
    staying null, and the cash-flow vector is [-spend] followed by the 60
    gross profits with 0 in place of null. *)
Theorem C6_projection (gross_margin spend ratio : Q) (retention_curve : list (option Q)) :
  length retention_curve = 60%nat ->
  exists revenues row,
    CohortCashFlowProjector.revenue_columns spend ratio retention_curve = Py.Ok revenues
    /\ CohortCashFlowProjector.gross_profit_table_row gross_margin spend ratio retention_curve
       = Py.Ok row
    /\ length revenues = 60%nat
    /\ (~ ratio == 0 -> revenues !! 0%nat = Some (Some (spend / ratio)))
    /\ (ratio == 0 -> revenues !! 0%nat = Some None)
    /\ (forall n, (1 <= n < 60)%nat ->
          exists prev ret,
            revenues !! (n - 1)%nat = Some prev /\ retention_curve !! n = Some ret
            /\ revenues !! n =
               Some match prev, ret with
                    | Some p, Some r => Some (p * r)
                    | _, _ => None
                    end)
    /\ (forall n m, (n <= m < 60)%nat -> revenues !! n = Some None -> revenues !! m = Some None)
    /\ CohortCashFlowProjector.gross_profit_columns row
       = map (fun revenue : option Q => (fun r => r * gross_margin) <$> revenue) revenues
    /\ CohortCashFlowProjector.cash_flow row
       = - spend :: map (default 0) (CohortCashFlowProjector.gross_profit_columns row)
    /\ length (CohortCashFlowProjector.cash_flow row) = 61%nat.
Proof.
  intros Hlen.
  unfold CohortCashFlowProjector.gross_profit_table_row,
    CohortCashFlowProjector.revenue_columns, mbind, result_bind.
  set (first := CohortCashFlowProjector.first_revenue spend ratio).
  destruct (project_revenue_total retention_curve (seq 1 59) first) as [rest Hrun].
  { intros month Hin. apply elem_of_seq in Hin. lia. }
  rewrite Hrun. cbn [Py.bind].
  pose proof (project_revenue_length _ _ _ _ Hrun) as Hrest. rewrite length_seq in Hrest.
  assert (Hstep : forall n, (1 <= n < 60)%nat ->
            exists prev ret,
              (first :: rest) !! (n - 1)%nat = Some prev /\ retention_curve !! n = Some ret
              /\ (first :: rest) !! n = Some (CohortCashFlowProjector.next_revenue prev ret)).
  { intros n Hn.
    destruct (project_revenue_step retention_curve (seq 1 59) first rest (n - 1) n Hrun)
      as (ret & Hret & Hnext).
    { rewrite lookup_seq. split; [f_equal |]; lia. }
    replace (S (n - 1)) with n in Hnext by lia.
    destruct (lookup_lt_is_Some_2 (first :: rest) (n - 1)) as [prev Hprev].
    { simpl. lia. }
    rewrite Hprev in Hnext. exists prev, ret. auto. }
  eexists _, _. split; [reflexivity |]. split; [reflexivity |].
  cbn [CohortCashFlowProjector.gross_profit_columns CohortCashFlowProjector.cash_flow].
  split; [simpl; lia |].
  split.
  { intros Hne. cbn [lookup list_lookup]. unfold first, CohortCashFlowProjector.first_revenue.
    destruct (Qeq_bool ratio 0) eqn:Hb; [| reflexivity].
    apply Qeq_bool_iff in Hb. contradiction. }
  split.
  { intros Heq. cbn [lookup list_lookup]. unfold first, CohortCashFlowProjector.first_revenue.
    apply Qeq_bool_iff in Heq. rewrite Heq. reflexivity. }
  split; [exact Hstep |].
  split.
  { intros n m [Hnm Hm] Hnull.
    induction m as [| m IH]; [replace n with 0%nat in Hnull by lia; exact Hnull |].
    destruct (Nat.eq_dec n (S m)) as [-> | Hne]; [exact Hnull |].
    destruct (Hstep (S m)) as (prev & ret & Hprev & _ & Hnext); [lia |].
    replace (S m - 1)%nat with m in Hprev by lia.
    rewrite IH in Hprev by lia. injection Hprev as <-. exact Hnext. }
  split; [reflexivity |]. split; [reflexivity |].
  simpl. rewrite !length_map. lia.
Qed.

Lemma C6_projection_witness :
  length flat_curve = 60%nat /\
  exists revenues row,
    CohortCashFlowProjector.revenue_columns 100 2 flat_curve = Py.Ok revenues
    /\ CohortCashFlowProjector.gross_profit_table_row (7 # 10) 100 2 flat_curve = Py.Ok row
    /\ length revenues = 60%nat
    /\ (~ 2 == 0 -> revenues !! 0%nat = Some (Some (100 / 2)))
    /\ (2 == 0 -> revenues !! 0%nat = Some None)
    /\ (forall n, (1 <= n < 60)%nat ->
          exists prev ret,
            revenues !! (n - 1)%nat = Some prev /\ flat_curve !! n = Some ret
            /\ revenues !! n =
               Some match prev, ret with
                    | Some p, Some r => Some (p * r)
                    | _, _ => None
                    end)
    /\ (forall n m, (n <= m < 60)%nat -> revenues !! n = Some None -> revenues !! m = Some None)
    /\ CohortCashFlowProjector.gross_profit_columns row
       = map (fun revenue : option Q => (fun r => r * (7 # 10)) <$> revenue) revenues
    /\ CohortCashFlowProjector.cash_flow row
       = - (100) :: map (default 0) (CohortCashFlowProjector.gross_profit_columns row)
    /\ length (CohortCashFlowProjector.cash_flow row) = 61%nat.
Proof.
  split; [reflexivity |].
  apply (C6_projection (7 # 10) 100 2 flat_curve). reflexivity.
Defined.

(** C6 as stated fails for a ratio that is not positive: with a negative
    ratio the first revenue is [spend / ratio], a negative amount that goes
    into the cash flow, and with a ratio of 0 it is null, not 0. *)
Lemma C6_counterexample_nonpositive_ratio :
  (exists revenues row v,
     CohortCashFlowProjector.revenue_columns 100 (- (2)) flat_curve = Py.Ok revenues
     /\ revenues !! 0%nat = Some (Some v) /\ v == - (50) /\ ~ v == 0
     /\ CohortCashFlowProjector.gross_profit_table_row (7 # 10) 100 (- (2)) flat_curve = Py.Ok row
     /\ Forall2 Qeq (take 2 (CohortCashFlowProjector.cash_flow row)) [- (100); - (35)])
  /\ (exists revenues,
        CohortCashFlowProjector.revenue_columns 100 0 flat_curve = Py.Ok revenues
        /\ revenues !! 0%nat = Some None).
Proof.
  split.
  - eexists _, _, _. split; [vm_compute; reflexivity |].
    split; [reflexivity |]. split; [reflexivity |]. split; [discriminate |].
    split; [vm_compute; reflexivity |]. repeat constructor.
  - eexists. split; [vm_compute; reflexivity | reflexivity].
Qed.

(** ** Loan accounts and reports *)

Lemma py_sum_acc l : forall a, fold_left Qplus l a == a + fold_left Qplus l 0.
Proof.
  induction l as [| x l IH]; intros a; simpl; [ring |].
  rewrite (IH (a + x)), (IH (0 + x)). ring.
Qed.

Lemma py_sum_cons a l : Py.sum (a :: l) == a + Py.sum l.
Proof. unfold Py.sum. simpl. rewrite py_sum_acc. ring. Qed.

Lemma py_sum_nonneg l : Forall (fun x => 0 <= x) l -> 0 <= Py.sum l.
Proof.
  induction 1 as [| x l Hx _ IH]; [discriminate |].
  rewrite py_sum_cons. lra.
Qed.

Section LenderReportFacts.

Import LoanAmortizer LenderReport.

Variables lp rate : Q.

(** What the lender receives is the interest charged plus the principal
    repaid. *)
Lemma payments_split flows : forall o,
  Py.sum (fst (process_flows lp rate o flows))
  == interest_charged lp rate o flows + principal_repaid lp rate o flows.
Proof.
  induction flows as [| flow rest IH]; intros o; [reflexivity |].
  rewrite process_flows_cons. cbn [fst]. rewrite py_sum_cons, IH.
  cbn [interest_charged principal_repaid]. unfold process_month, principal_paid.
  destruct (Qlt_le_dec 0 flow); cbn [fst snd]; ring.
Qed.

Lemma final_balance flows : forall o,
  snd (process_flows lp rate o flows) == o - principal_repaid lp rate o flows.
Proof.
  induction flows as [| flow rest IH]; intros o; [simpl; ring |].
  rewrite process_flows_cons. cbn [snd]. rewrite IH.
  cbn [principal_repaid]. unfold process_month, principal_paid.
  destruct (Qlt_le_dec 0 flow); cbn [snd]; ring.
Qed.

Lemma final_balance_nonneg flows o : 0 <= o -> 0 <= snd (process_flows lp rate o flows).
Proof.
  intros Ho. pose proof (outstanding_before_nonneg lp rate flows (length flows) o Ho) as Hnn.
  unfold outstanding_before in Hnn. rewrite firstn_all in Hnn. exact Hnn.
Qed.

(** A payment is positive exactly when the month repays or charges
    something, so rebuilding the balance from the payments follows the
    balance of the loop. *)
Lemma printed_balances_follow flows : forall o o',
  0 < lp -> 0 <= rate -> 0 <= o -> o' == o ->
  Forall2 Qeq
    (printed_balances rate o' (fst (process_flows lp rate o flows)))
    (map (fun k => outstanding_before lp rate o flows (S k)) (seq 0 (length flows))).
Proof.
  induction flows as [| flow rest IH]; intros o o' Hlp Hrate Ho Heq; [constructor |].
  rewrite process_flows_cons. cbn [fst printed_balances length seq map].
  set (payment := fst (process_month lp rate o flow)).
  set (next := snd (process_month lp rate o flow)).
  assert (Hnext : 0 <= next) by (apply process_month_nonneg; exact Ho).
  assert (Hsame : (if Qlt_le_dec 0 payment then o' - (payment - o' * rate) else o') == next).
  { unfold payment, next, process_month.
    destruct (Qlt_le_dec 0 flow) as [Hpos | Hnp]; cbn [fst snd].
    - unfold actual_principal_payment, available_principal_payment,
        max_payment, interest_payment.
      assert (Hshare : 0 < flow * lp) by (apply Qmult_lt_0_compat; lra).
      assert (Hint : 0 <= o * rate) by (apply Qmult_le_0_compat; assumption).
      assert (Hrw : o' * rate == o * rate) by (rewrite Heq; reflexivity).
      destruct (py_min_cases (flow * lp - o * rate) o) as [[Hc Hm] | [Hc Hm]]; rewrite Hm;
        match goal with |- context [Qlt_le_dec 0 ?p] => destruct (Qlt_le_dec 0 p) end; lra.
    - destruct (Qlt_le_dec 0 0); [lra | exact Heq]. }
  constructor.
  - rewrite outstanding_before_cons, outstanding_before_0. fold next.
    destruct (py_max_cases 0 (if Qlt_le_dec 0 payment then o' - (payment - o' * rate) else o'))
      as [[_ ->] | [Hle ->]]; [exact Hsame | lra].
  - rewrite <- seq_shift, map_map.
    erewrite map_ext; [apply (IH next _ Hlp Hrate Hnext Hsame) |].
    intros k. cbn beta. rewrite outstanding_before_cons. reflexivity.
Qed.

End LenderReportFacts.

(** X2. On an accepted input the lender vector is as long as the input, and
    the summary adds up: the payments received are the interest charged plus
    the principal repaid, the final outstanding principal is the loan less
    the principal repaid and is never negative, and the net return is the
    interest charged less the principal still outstanding. *)
Theorem X2_loan_summary_adds_up
    (float_pow : Q -> Q -> Q) (cfs : list Q) (lp yearly : Q) :
  LoanAmortizer.accepted cfs ->
  exists lender info,
    LoanAmortizer.calculate_lender_cashflows float_pow cfs lp yearly = Py.Ok (lender, info)
    /\ length lender = length cfs
    /\ let rate := LoanAmortizer.monthly_rate float_pow yearly in
       let loan := LoanAmortizer.loan_amount info in
       let interest := LenderReport.interest_charged lp rate loan (tl cfs) in
       let repaid := LenderReport.principal_repaid lp rate loan (tl cfs) in
       LoanAmortizer.total_payments_received info == interest + repaid
       /\ LoanAmortizer.final_outstanding_principal info == loan - repaid
       /\ 0 <= LoanAmortizer.final_outstanding_principal info
       /\ LoanAmortizer.net_return info
          == interest - LoanAmortizer.final_outstanding_principal info.
Proof.
  intros [Hlen Hneg]. destruct cfs as [| first [| f fs]]; simpl in Hlen; try lia.
  simpl in Hneg. unfold LoanAmortizer.calculate_lender_cashflows.
  destruct (Qle_bool 0 first) eqn:Hb; [apply Qle_bool_iff in Hb; lra |].
  set (rate := LoanAmortizer.monthly_rate float_pow yearly).
  pose proof (payments_split lp rate (f :: fs) (Qabs (first * lp))) as Hsplit.
  pose proof (final_balance lp rate (f :: fs) (Qabs (first * lp))) as Hfinal.
  pose proof (final_balance_nonneg lp rate (f :: fs) (Qabs (first * lp)) (Qabs_nonneg _)) as Hnn.
  pose proof (process_flows_length lp rate (f :: fs) (Qabs (first * lp))) as Hl.
  destruct (LoanAmortizer.process_flows lp rate (Qabs (first * lp)) (f :: fs))
    as [payments final]. cbn [fst snd] in *.
  eexists _, _. split; [reflexivity |].
  split; [simpl in *; lia |].
  cbn [LoanAmortizer.loan_amount LoanAmortizer.total_payments_received
       LoanAmortizer.final_outstanding_principal LoanAmortizer.net_return tl].
  repeat split; try assumption. rewrite Hsplit. lra.
Qed.

Lemma X2_loan_summary_witness :
  LoanAmortizer.accepted sample_cashflows /\
  exists lender info,
    LoanAmortizer.calculate_lender_cashflows pow_approx sample_cashflows (8 # 10) (16 # 100)
      = Py.Ok (lender, info)
    /\ length lender = length sample_cashflows
    /\ let rate := LoanAmortizer.monthly_rate pow_approx (16 # 100) in
       let loan := LoanAmortizer.loan_amount info in
       let interest := LenderReport.interest_charged (8 # 10) rate loan (tl sample_cashflows) in
       let repaid := LenderReport.principal_repaid (8 # 10) rate loan (tl sample_cashflows) in
       LoanAmortizer.total_payments_received info == interest + repaid
       /\ LoanAmortizer.final_outstanding_principal info == loan - repaid
       /\ 0 <= LoanAmortizer.final_outstanding_principal info
       /\ LoanAmortizer.net_return info
          == interest - LoanAmortizer.final_outstanding_principal info.
Proof.
  split; [exact sample_cashflows_accepted |].
  apply (X2_loan_summary_adds_up pow_approx). exact sample_cashflows_accepted.
Defined.

(** X3. With [loanPercentage > 0] and [yearlyInterestRate >= 0], the
    "Outstanding" column that [print_lender_analysis] rebuilds from the
    lender payments is, month by month, the outstanding principal the
    amortisation loop itself went through. *)
Theorem X3_printed_outstanding_follows_the_loop
    (float_pow : Q -> Q -> Q) (cfs : list Q) (lp yearly : Q) :
  (forall x, 1 <= x -> 1 <= float_pow x (1 / 12)) ->
  LoanAmortizer.accepted cfs -> 0 < lp -> 0 <= yearly ->
  exists lender info,
    LoanAmortizer.calculate_lender_cashflows float_pow cfs lp yearly = Py.Ok (lender, info)
    /\ Forall2 Qeq
         (LenderReport.outstanding_column lender info)
         (map (LoanAmortizer.owed_after float_pow cfs lp yearly) (seq 0 (length cfs))).
Proof.
  intros Hpow Hacc Hlp Hy.
  assert (Hrate : 0 <= LoanAmortizer.monthly_rate float_pow yearly).
  { unfold LoanAmortizer.monthly_rate. specialize (Hpow (1 + yearly)). lra. }
  destruct Hacc as [Hlen Hneg]. destruct cfs as [| first [| f fs]]; simpl in Hlen; try lia.
  simpl in Hneg. unfold LoanAmortizer.calculate_lender_cashflows.
  destruct (Qle_bool 0 first) eqn:Hb; [apply Qle_bool_iff in Hb; lra |].
  set (rate := LoanAmortizer.monthly_rate float_pow yearly) in *.
  pose proof (printed_balances_follow lp rate (f :: fs) (Qabs (first * lp)) (Qabs (first * lp))
                Hlp Hrate (Qabs_nonneg _) (Qeq_refl _)) as Hfollow.
  destruct (LoanAmortizer.process_flows lp rate (Qabs (first * lp)) (f :: fs))
    as [payments final]. cbn [fst] in Hfollow.
  eexists _, _. split; [reflexivity |].
  unfold LenderReport.outstanding_column. cbn [LoanAmortizer.monthly_interest_rate].
  change (length (first :: f :: fs)) with (S (length (f :: fs))).
  cbn [seq map]. constructor.
  - unfold LoanAmortizer.owed_after. rewrite outstanding_before_0. reflexivity.
  - rewrite <- seq_shift, map_map. exact Hfollow.
Qed.

Lemma X3_printed_outstanding_witness :
  (forall x, 1 <= x -> 1 <= pow_approx x (1 / 12)) /\
  LoanAmortizer.accepted sample_cashflows /\ 0 < 8 # 10 /\ 0 <= 16 # 100 /\
  exists lender info,
    LoanAmortizer.calculate_lender_cashflows pow_approx sample_cashflows (8 # 10) (16 # 100)
      = Py.Ok (lender, info)
    /\ Forall2 Qeq
         (LenderReport.outstanding_column lender info)
         (map (LoanAmortizer.owed_after pow_approx sample_cashflows (8 # 10) (16 # 100))
            (seq 0 (length sample_cashflows))).
Proof.
  split; [exact pow_approx_ge_1 |].
  split; [exact sample_cashflows_accepted |].
  split; [reflexivity |]. split; [discriminate |].
  apply (X3_printed_outstanding_follows_the_loop pow_approx);
    [exact pow_approx_ge_1 | exact sample_cashflows_accepted | reflexivity | discriminate].
Defined.

Lemma lookups_rebuild_tail (l : list Q) :
  map (fun month => default 0 (l !! month)) (seq 1 (length l - 1)) = tl l.
Proof.
  destruct l as [| x l]; [reflexivity |].
  cbn [length tl]. replace (S (length l) - 1)%nat with (length l) by lia.
  rewrite <- seq_shift, map_map. cbn [lookup list_lookup].
  induction l as [| y l IH]; [reflexivity |].
  cbn [length seq map]. f_equal. rewrite <- seq_shift, map_map. exact IH.
Qed.

(** X4. For a yearly rate of -100% or more (below it the calculator
    raises [TypeError], which the transform catches as well), a row of the
    transform never fails: a row whose spend is 0 is rejected by the
    calculator, the exception is caught and the row becomes a loan of 0 with
    sixty payments of 0; any other row carries the loan amount (as a
    non-positive number) and the sixty payments the calculator returns for
    [-|SM_Value|] followed by the sixty gross profits, a missing or empty
    cell counting as 0. *)
Theorem X4_transform_row_isolates_failures
    (float_pow : Q -> Q -> Q) (sm : Q) (gross_profits : list (option Q)) (lp yearly : Q) :
  - (1) <= yearly ->
  exists row,
    LenderReport.transform_row float_pow (Some sm) gross_profits lp yearly = Some row
    /\ length (LenderReport.Lender_Cashflow_Month row) = 60%nat
    /\ (sm == 0 <->
        LoanAmortizer.calculate_lender_cashflows float_pow
          (- Qabs sm :: map (fun month => default 0 (mjoin (gross_profits !! month))) (seq 0 60))
          lp yearly = Py.Raise Py.ValueError)
    /\ (sm == 0 ->
        LenderReport.Loan_Amount row = 0
        /\ LenderReport.Lender_Cashflow_Month row = repeat 0 60
        /\ LenderReport.Net_Return row = 0
        /\ LenderReport.Total_Payments row = 0
        /\ LenderReport.ROI_Percentage row = 0)
    /\ (~ sm == 0 ->
        exists lender info,
          LoanAmortizer.calculate_lender_cashflows float_pow
            (- Qabs sm :: map (fun month => default 0 (mjoin (gross_profits !! month))) (seq 0 60))
            lp yearly = Py.Ok (lender, info)
          /\ LenderReport.Lender_Cashflow_Month row = tl lender
          /\ LenderReport.Loan_Amount row = - LoanAmortizer.loan_amount info
          /\ LenderReport.Loan_Amount row <= 0
          /\ LenderReport.Net_Return row = LoanAmortizer.net_return info).
Proof.
  intros _. unfold LenderReport.transform_row.
  set (cfs := - Qabs sm :: map (fun month => default 0 (mjoin (gross_profits !! month))) (seq 0 60)).
  pose proof (Qabs_nonneg sm) as Habs.
  assert (Hzero : sm == 0 <-> Qabs sm == 0).
  { split; intros Hs; [rewrite Hs; reflexivity |].
    assert (Hb : - 0 <= sm <= 0) by (apply Qabs_Qle_condition; lra). lra. }
  destruct (Qlt_le_dec 0 (Qabs sm)) as [Hpos | Hnp].
  - assert (Hacc : LoanAmortizer.accepted cfs).
    { split; [unfold cfs; simpl; lia | unfold cfs; cbn [hd]; lra]. }
    destruct (calculate_lender_cashflows_accepted float_pow cfs lp yearly Hacc)
      as (info & Hok & Hloan & _).
    rewrite Hok. eexists. split; [reflexivity |].
    cbn [LenderReport.Lender_Cashflow_Month LenderReport.Loan_Amount LenderReport.Net_Return].
    split; [rewrite length_map, length_seq; reflexivity |].
    split; [split; [intros Hs; apply Hzero in Hs; lra | discriminate] |].
    split; [intros Hs; apply Hzero in Hs; lra |].
    intros _. eexists _, info. split; [reflexivity |].
    split.
    { match goal with |- _ = tl ?l => set (lender := l) end.
      assert (Hl : (length lender - 1 = 60)%nat).
      { unfold lender. cbn [length]. rewrite process_flows_length. unfold cfs. cbn [tl].
        rewrite length_map, length_seq. reflexivity. }
      rewrite <- lookups_rebuild_tail, Hl. reflexivity. }
    split; [reflexivity |]. split; [| reflexivity].
    rewrite Hloan. pose proof (initial_principal_nonneg cfs lp). lra.
  - assert (Hrej : ~ LoanAmortizer.accepted cfs).
    { intros [_ Hneg]. unfold cfs in Hneg. cbn [hd] in Hneg. lra. }
    rewrite (calculate_lender_cashflows_rejected float_pow cfs lp yearly Hrej).
    eexists. split; [reflexivity |].
    cbn [LenderReport.Lender_Cashflow_Month LenderReport.Loan_Amount LenderReport.Net_Return
         LenderReport.Total_Payments LenderReport.ROI_Percentage].
    split; [reflexivity |].
    split; [split; [reflexivity | intros _; apply Hzero; lra] |].
    split; [intros _; repeat split; reflexivity |].
    intros Hne. exfalso. apply Hne, Hzero. lra.
Qed.

Lemma X4_transform_row_witness :
  - (1) <= 16 # 100
  /\ exists row,
       LenderReport.transform_row pow_approx (Some (- (100))) early_profits (8 # 10) (16 # 100)
       = Some row
       /\ length (LenderReport.Lender_Cashflow_Month row) = 60%nat
       /\ LenderReport.Loan_Amount row <= 0.
Proof.
  split; [discriminate |].
  destruct (X4_transform_row_isolates_failures pow_approx (- (100)) early_profits
              (8 # 10) (16 # 100))
    as (row & Hrow & Hlen & _ & _ & Hother); [discriminate |].
  exists row. split; [exact Hrow |]. split; [exact Hlen |].
  destruct Hother as (lender & info & _ & _ & _ & Hle & _); [| exact Hle].
  intros Heq. vm_compute in Heq. discriminate.
Defined.

(** ** ReturnCapEngine: further properties *)

Section EngineRunFacts.

Import ReturnCapEngine.

Variable float_pow : Q -> Q -> Q.
Variable irr : list Q -> irr_outcome.

Lemma collect_returns_raises gps months e :
  collect_returns gps months = Py.Raise e -> e = Py.IndexError.
Proof.
  induction months as [| month rest IH]; simpl; [discriminate |].
  destruct (gps !! month) as [gp |]; [| congruence].
  destruct (collect_returns gps rest) as [[rs c] | e0].
  - destruct gp as [g |]; [destruct (Qlt_le_dec 0 g) |]; discriminate.
  - intros [= <-]. apply IH. reflexivity.
Qed.

(** A month past the end of the series makes the first loop raise. *)
Lemma collect_returns_short gps months month :
  month ∈ months -> (length gps <= month)%nat ->
  collect_returns gps months = Py.Raise Py.IndexError.
Proof.
  intros Hin Hshort. induction months as [| a rest IH]; [inversion Hin |].
  simpl. destruct (gps !! a) as [gp |] eqn:Hgp; [| reflexivity].
  apply elem_of_cons in Hin as [-> | Hin].
  { apply lookup_lt_Some in Hgp. lia. }
  rewrite (IH Hin). reflexivity.
Qed.

(** The first loop yields amounts that are not negative, and their running
    total. *)
Lemma collect_returns_amounts gps months : forall returns cumulative,
  collect_returns gps months = Py.Ok (returns, cumulative) ->
  Forall (fun x => 0 <= x) returns /\ cumulative == Py.sum returns.
Proof.
  induction months as [| month rest IH]; intros returns cumulative Hrun; simpl in Hrun.
  - injection Hrun as <- <-. split; [constructor | reflexivity].
  - destruct (gps !! month) as [gp |]; [| discriminate].
    destruct (collect_returns gps rest) as [[rs c] | e]; [| discriminate].
    destruct (IH rs c eq_refl) as [Hnn Hsum].
    destruct gp as [g |]; [destruct (Qlt_le_dec 0 g) as [Hg | Hg] |];
      injection Hrun as <- <-; (split; [constructor; [| exact Hnn] | rewrite py_sum_cons]).
    + assert (0 < g * (8 # 10)) by (apply Qmult_lt_0_compat; lra). lra.
    + lra.
    + lra.
    + lra.
    + lra.
    + lra.
Qed.

(** What a returned record holds, in terms of the two loops. *)
Lemma fund_run_inv sm gps target max_years res :
  calculate_fund_returns_for_cohort float_pow irr sm gps target max_years = Py.Ok res ->
  exists returns cumulative,
    collect_returns gps (seq 0 (Z.to_nat (Z.min 60 (max_years * 12)))) = Py.Ok (returns, cumulative)
    /\ (length returns <= 60)%nat
    /\ loan_amount res = sm * (8 # 10)
    /\ monthly_returns res = returns
    /\ cumulative_return res = cumulative
    /\ months_to_target res
       = find_target_month irr (sm * (8 # 10)) target returns (seq 0 (length returns))
    /\ final_monthly_returns res
       = match months_to_target res with
         | Some m => zero_from m returns
         | None => returns
         end
    /\ final_cumulative_return res = Py.sum (final_monthly_returns res)
    /\ final_return res = final_cumulative_return res
    /\ return_reached res = (if months_to_target res is Some _ then true else false).
Proof.
  unfold calculate_fund_returns_for_cohort.
  set (n := Z.to_nat (Z.min 60 (max_years * 12))).
  destruct (collect_returns gps (seq 0 n)) as [[returns cumulative] | e] eqn:Hrun; [| discriminate].
  assert (Hlr : (length returns <= 60)%nat).
  { rewrite (collect_returns_length _ _ _ _ Hrun), length_seq. unfold n. lia. }
  set (first_call := if (_ && _)%bool then _ else _).
  intros Hres. exists returns, cumulative.
  assert (Hfin : forall reached : option nat,
             (length (match reached with Some m => zero_from m returns | None => returns end)
              <= 60)%nat).
  { intros [m |]; [rewrite zero_from_length |]; exact Hlr. }
  destruct first_call; [| | discriminate]; injection Hres as <-;
    cbn [loan_amount monthly_returns cumulative_return months_to_target final_monthly_returns
         final_cumulative_return final_return return_reached];
    rewrite !(take_ge returns 60) by exact Hlr;
    rewrite !take_ge by apply Hfin;
    repeat split; try reflexivity; try exact Hlr.
Qed.

(** The function returns whenever the root finder does not raise and the
    series covers the months tracked. *)
Lemma fund_run_total sm gps target max_years :
  (forall cf, irr cf <> IrrRaise) ->
  (Z.to_nat (Z.min 60 (max_years * 12)) <= length gps)%nat ->
  exists res,
    calculate_fund_returns_for_cohort float_pow irr sm gps target max_years = Py.Ok res.
Proof.
  intros Hnan Hlen. unfold calculate_fund_returns_for_cohort.
  destruct (collect_returns_total gps (seq 0 (Z.to_nat (Z.min 60 (max_years * 12)))))
    as (returns & cumulative & ->).
  { intros month Hin. apply elem_of_seq in Hin. lia. }
  set (first_call := if (_ && _)%bool then _ else _).
  assert (Hfirst : first_call <> IrrRaise).
  { unfold first_call. destruct (_ && _)%bool; [apply Hnan | discriminate]. }
  destruct first_call; [| | congruence]; eexists; reflexivity.
Qed.

(** A search that finds nothing has seen no month reach the target. *)
Lemma find_target_month_None loan target returns months :
  find_target_month irr loan target returns months = None ->
  forall month r,
    month ∈ months -> irr (- loan :: take (S month) returns) = IrrFinite r -> r < target.
Proof.
  induction months as [| a rest IH]; intros Hfind month r Hin Hirr; [inversion Hin |].
  simpl in Hfind.
  apply elem_of_cons in Hin as [-> | Hin].
  - rewrite Hirr in Hfind. destruct (Qle_bool target r) eqn:Hle; [discriminate |].
    destruct (Qlt_le_dec r target) as [Hlt | Hge]; [exact Hlt |].
    apply Qle_bool_iff in Hge. congruence.
  - apply (IH) with month; [| exact Hin | exact Hirr].
    destruct (irr (- loan :: take (S a) returns)) as [r0 | |]; try exact Hfind.
    destruct (Qle_bool target r0); [discriminate | exact Hfind].
Qed.

Lemma seq_split_prefix n (earlier later : list nat) x :
  seq 0 n = earlier ++ x :: later -> earlier = seq 0 x /\ (x < n)%nat.
Proof.
  intros Hsplit.
  assert (Hx : seq 0 n !! length earlier = Some x).
  { rewrite Hsplit. rewrite lookup_app_r by lia. rewrite Nat.sub_diag. reflexivity. }
  apply lookup_seq in Hx as [Hx Hlt]. simpl in Hx. subst x. split; [| exact Hlt].
  assert (Htake : take (length earlier) (seq 0 n) = earlier).
  { rewrite Hsplit. rewrite take_app_length. reflexivity. }
  rewrite <- Htake at 1. rewrite take_seq. f_equal. lia.
Qed.

Lemma py_sum_le l1 l2 : Forall2 Qle l1 l2 -> Py.sum l1 <= Py.sum l2.
Proof.
  induction 1 as [| x y l1 l2 Hxy _ IH]; [discriminate |].
  rewrite !py_sum_cons. lra.
Qed.

Lemma zero_from_below start l :
  Forall (fun x => 0 <= x) l ->
  Forall2 Qle (zero_from start l) l /\ Forall (fun x => 0 <= x) (zero_from start l).
Proof.
  intros Hnn. rewrite Forall_lookup in Hnn. split.
  - apply Forall2_same_length_lookup. split; [apply zero_from_length |].
    intros i x y Hx Hy. rewrite zero_from_lookup, Hy in Hx.
    destruct (decide (i < start)%nat); injection Hx as <-; [lra | apply (Hnn i y Hy)].
  - apply Forall_lookup. intros i x Hx. rewrite zero_from_lookup in Hx.
    destruct (decide (i < start)%nat); [apply (Hnn i x Hx) |].
    destruct (l !! i); [injection Hx as <-; lra | discriminate].
Qed.

End EngineRunFacts.

(** X5. The capping rule the code applies: the target month, when there is
    one, is the first month whose partial cash flow has a defined monthly
    IRR at least [target_irr]; the returns before it are kept and those from
    it on are set to 0; without a target month nothing is zeroed.  The
    [return_reached] flag says whether there is a target month. *)
Theorem X5_cap_at_first_month_reaching_target
    (float_pow : Q -> Q -> Q) (irr : list Q -> ReturnCapEngine.irr_outcome)
    (sm : Q) (gps : list (option Q)) (target : Q) (max_years : Z) :
  (forall cf, irr cf <> ReturnCapEngine.IrrRaise) ->
  (Z.to_nat (Z.min 60 (max_years * 12)) <= length gps)%nat ->
  exists res,
    ReturnCapEngine.calculate_fund_returns_for_cohort float_pow irr sm gps target max_years
      = Py.Ok res
    /\ let loan := ReturnCapEngine.loan_amount res in
       let returns := ReturnCapEngine.monthly_returns res in
       let final := ReturnCapEngine.final_monthly_returns res in
       length final = length returns
       /\ (ReturnCapEngine.return_reached res = true
           <-> is_Some (ReturnCapEngine.months_to_target res))
       /\ match ReturnCapEngine.months_to_target res with
          | Some m =>
              (1 <= m <= length returns)%nat
              /\ (exists r, irr (- loan :: take m returns) = ReturnCapEngine.IrrFinite r
                            /\ target <= r)
              /\ (forall m' r,
                    (1 <= m' < m)%nat ->
                    irr (- loan :: take m' returns) = ReturnCapEngine.IrrFinite r -> r < target)
              /\ (forall i, (i < m)%nat -> final !! i = returns !! i)
              /\ (forall i, (m <= i < length returns)%nat -> final !! i = Some 0)
          | None =>
              final = returns
              /\ (forall m' r,
                    (1 <= m' <= length returns)%nat ->
                    irr (- loan :: take m' returns) = ReturnCapEngine.IrrFinite r -> r < target)
          end.
Proof.
  intros Hnan Hlen.
  destruct (fund_run_total float_pow irr sm gps target max_years Hnan Hlen) as [res Hres].
  exists res. split; [exact Hres |].
  destruct (fund_run_inv float_pow irr sm gps target max_years res Hres)
    as (returns & cumulative & _ & _ & Hloan & Hret & _ & Hfind & Hfinal & _ & _ & Hflag).
  cbv zeta. rewrite Hloan, Hret, Hfinal, Hflag. clear Hfinal Hflag.
  destruct (ReturnCapEngine.months_to_target res) as [m |].
  - split; [apply zero_from_length |].
    split; [split; [intros _; eexists; reflexivity | reflexivity] |].
    symmetry in Hfind.
    destruct (find_target_month_Some irr _ _ _ _ _ Hfind) as (month & r & Hin & -> & Hirr & Hle).
    apply elem_of_seq in Hin.
    split; [lia |]. split; [exists r; split; assumption |].
    split.
    + intros m' r' Hm' Hirr'.
      destruct (find_target_month_first irr _ _ _ _ _ Hfind) as (earlier & later & Hsplit & Hbefore).
      replace (S month - 1)%nat with month in Hsplit by lia.
      apply seq_split_prefix in Hsplit as [-> _].
      apply (Hbefore (m' - 1)%nat r'); [apply elem_of_seq; lia |].
      replace (S (m' - 1)) with m' by lia. exact Hirr'.
    + split; intros i Hi; rewrite zero_from_lookup.
      * rewrite decide_True by exact Hi. reflexivity.
      * rewrite decide_False by lia.
        destruct (lookup_lt_is_Some_2 returns i) as [x ->]; [lia | reflexivity].
  - split; [reflexivity |].
    split; [split; [discriminate | intros [x Hx]; discriminate] |].
    split; [reflexivity |].
    intros m' r Hm' Hirr. symmetry in Hfind.
    apply (find_target_month_None irr _ _ _ _ Hfind (m' - 1)%nat r); [apply elem_of_seq; lia |].
    replace (S (m' - 1)) with m' by lia. exact Hirr.
Qed.

Lemma X5_cap_witness :
  (forall cf, ReturnCapEngine.irr_bisect cf <> ReturnCapEngine.IrrRaise) /\
  (Z.to_nat (Z.min 60 (5 * 12)) <= length early_profits)%nat /\
  exists res,
    ReturnCapEngine.calculate_fund_returns_for_cohort pow_approx ReturnCapEngine.irr_bisect
      100 early_profits (16 # 100) 5 = Py.Ok res
    /\ ReturnCapEngine.months_to_target res = Some 2%nat
    /\ ReturnCapEngine.return_reached res = true.
Proof.
  split; [exact irr_bisect_never_raises |]. split; [vm_compute; lia |].
  destruct (X5_cap_at_first_month_reaching_target pow_approx ReturnCapEngine.irr_bisect
              100 early_profits (16 # 100) 5 irr_bisect_never_raises)
    as (res & Hres & _); [vm_compute; lia |].
  exists res. split; [exact Hres |].
  assert (Hrun : exists res0,
             ReturnCapEngine.calculate_fund_returns_for_cohort pow_approx
               ReturnCapEngine.irr_bisect 100 early_profits (16 # 100) 5 = Py.Ok res0
             /\ ReturnCapEngine.months_to_target res0 = Some 2%nat
             /\ ReturnCapEngine.return_reached res0 = true).
  { eexists. split; [vm_compute; reflexivity | split; reflexivity]. }
  destruct Hrun as (res0 & Hres0 & Hm & Hr).
  rewrite Hres in Hres0. injection Hres0 as <-. split; assumption.
Defined.

(** X6. When the gross-profit series is shorter than the months tracked,
    [min(60, max_years * 12)], the function raises [IndexError]. *)
Theorem X6_short_series_raises_index_error
    (float_pow : Q -> Q -> Q) (irr : list Q -> ReturnCapEngine.irr_outcome)
    (sm : Q) (gps : list (option Q)) (target : Q) (max_years : Z) :
  (length gps < Z.to_nat (Z.min 60 (max_years * 12)))%nat ->
  ReturnCapEngine.calculate_fund_returns_for_cohort float_pow irr sm gps target max_years
  = Py.Raise Py.IndexError.
Proof.
  intros Hshort. unfold ReturnCapEngine.calculate_fund_returns_for_cohort.
  rewrite (collect_returns_short gps _ (length gps)); [reflexivity | | lia].
  apply elem_of_seq. lia.
Qed.

Lemma X6_short_series_witness :
  (length [Some 110; Some 60] < Z.to_nat (Z.min 60 (5 * 12)))%nat /\
  ReturnCapEngine.calculate_fund_returns_for_cohort pow_approx ReturnCapEngine.irr_bisect
    100 [Some 110; Some 60] (16 # 100) 5 = Py.Raise Py.IndexError.
Proof.
  split; [vm_compute; lia |].
  apply (X6_short_series_raises_index_error pow_approx ReturnCapEngine.irr_bisect).
  vm_compute. lia.
Defined.

(** X7. A returned record holds one monthly return per month tracked,
    none of them negative; [cumulative_return] is their sum; the capped
    returns are not negative either, and the final return, the sum of the
    capped returns, never exceeds the cumulative return. *)
Theorem X7_capped_return_within_cumulative
    (float_pow : Q -> Q -> Q) (irr : list Q -> ReturnCapEngine.irr_outcome)
    (sm : Q) (gps : list (option Q)) (target : Q) (max_years : Z) :
  (forall cf, irr cf <> ReturnCapEngine.IrrRaise) ->
  (Z.to_nat (Z.min 60 (max_years * 12)) <= length gps)%nat ->
  exists res,
    ReturnCapEngine.calculate_fund_returns_for_cohort float_pow irr sm gps target max_years
      = Py.Ok res
    /\ length (ReturnCapEngine.monthly_returns res) = Z.to_nat (Z.min 60 (max_years * 12))
    /\ Forall (fun x => 0 <= x) (ReturnCapEngine.monthly_returns res)
    /\ Forall (fun x => 0 <= x) (ReturnCapEngine.final_monthly_returns res)
    /\ ReturnCapEngine.cumulative_return res == Py.sum (ReturnCapEngine.monthly_returns res)
    /\ ReturnCapEngine.final_return res == Py.sum (ReturnCapEngine.final_monthly_returns res)
    /\ 0 <= ReturnCapEngine.final_return res
    /\ ReturnCapEngine.final_return res <= ReturnCapEngine.cumulative_return res.
Proof.
  intros Hnan Hlen.
  destruct (fund_run_total float_pow irr sm gps target max_years Hnan Hlen) as [res Hres].
  exists res. split; [exact Hres |].
  destruct (fund_run_inv float_pow irr sm gps target max_years res Hres)
    as (returns & cumulative & Hrun & _ & _ & Hret & Hcum & _ & Hfinal & Hfc & Hfr & _).
  destruct (collect_returns_amounts gps _ _ _ Hrun) as [Hnn Hsum].
  assert (Hcap : Forall2 Qle (ReturnCapEngine.final_monthly_returns res) returns
                 /\ Forall (fun x => 0 <= x) (ReturnCapEngine.final_monthly_returns res)).
  { rewrite Hfinal. destruct (ReturnCapEngine.months_to_target res) as [m |].
    - apply zero_from_below. exact Hnn.
    - split; [| exact Hnn]. apply Forall2_same_length_lookup. split; [reflexivity |].
      intros i x y Hx Hy. rewrite Hx in Hy. injection Hy as <-. lra. }
  destruct Hcap as [Hle Hfnn].
  rewrite Hret, Hcum, Hfr, Hfc.
  split; [rewrite (collect_returns_length _ _ _ _ Hrun); apply length_seq |].
  split; [exact Hnn |]. split; [exact Hfnn |].
  split; [exact Hsum |]. split; [reflexivity |].
  split; [apply py_sum_nonneg; exact Hfnn |].
  rewrite Hsum. apply py_sum_le. exact Hle.
Qed.

Lemma X7_capped_return_witness :
  (forall cf, ReturnCapEngine.irr_bisect cf <> ReturnCapEngine.IrrRaise) /\
  (Z.to_nat (Z.min 60 (5 * 12)) <= length early_profits)%nat /\
  exists res,
    ReturnCapEngine.calculate_fund_returns_for_cohort pow_approx ReturnCapEngine.irr_bisect
      100 early_profits (16 # 100) 5 = Py.Ok res
    /\ length (ReturnCapEngine.monthly_returns res) = Z.to_nat (Z.min 60 (5 * 12))
    /\ Forall (fun x => 0 <= x) (ReturnCapEngine.monthly_returns res)
    /\ Forall (fun x => 0 <= x) (ReturnCapEngine.final_monthly_returns res)
    /\ ReturnCapEngine.cumulative_return res == Py.sum (ReturnCapEngine.monthly_returns res)
    /\ ReturnCapEngine.final_return res == Py.sum (ReturnCapEngine.final_monthly_returns res)
    /\ 0 <= ReturnCapEngine.final_return res
    /\ ReturnCapEngine.final_return res <= ReturnCapEngine.cumulative_return res.
Proof.
  split; [exact irr_bisect_never_raises |]. split; [vm_compute; lia |].
  apply (X7_capped_return_within_cumulative pow_approx ReturnCapEngine.irr_bisect);
    [exact irr_bisect_never_raises | vm_compute; lia].
Defined.

(** ** HistoricalRatioModel: further properties *)

Section RatioModelBounds.

Import HistoricalRatioModel.

Lemma count_fraction_bounds (count total : nat) :
  (count <= total)%nat -> (0 < total)%nat ->
  0 <= inject_Z (Z.of_nat count) / inject_Z (Z.of_nat total) <= 1.
Proof.
  intros Hle Hpos.
  assert (Ht : 0 < inject_Z (Z.of_nat total)).
  { change 0 with (inject_Z 0). rewrite <- Zlt_Qlt. lia. }
  assert (Hc : 0 <= inject_Z (Z.of_nat count)).
  { change 0 with (inject_Z 0). rewrite <- Zle_Qle. lia. }
  assert (Hct : inject_Z (Z.of_nat count) <= inject_Z (Z.of_nat total)).
  { rewrite <- Zle_Qle. lia. }
  split.
  - apply Qle_shift_div_l; [exact Ht | lra].
  - apply Qle_shift_div_r; [exact Ht | lra].
Qed.

Lemma heads_fraction_bounds ratios : 0 <= heads_fraction ratios <= 1.
Proof.
  unfold heads_fraction. destruct ratios as [| r rest]; [split; discriminate |].
  apply count_fraction_bounds; [| simpl; lia].
  unfold heads_count. apply length_filter.
Qed.

Lemma py_max_ge_l a b : a <= Py.max a b.
Proof. destruct (py_max_cases a b) as [[Hlt ->] | [_ ->]]; lra. Qed.

Lemma py_max_ge_r a b : b <= Py.max a b.
Proof. destruct (py_max_cases a b) as [[_ ->] | [Hle ->]]; lra. Qed.

Lemma py_max_bounds a b lo hi :
  lo <= a <= hi -> lo <= b <= hi -> lo <= Py.max a b <= hi.
Proof. intros Ha Hb. destruct (py_max_cases a b) as [[_ ->] | [_ ->]]; assumption. Qed.

End RatioModelBounds.

(** X8. Every heads percentage the model reports is a probability, between
    0 and 1; the aggressive model uses the overall one, and the conservative
    model's heads percentage is never below the aggressive model's on the
    same history, while the pool and reference CAC are the same in both. *)
Theorem X8_heads_percentage_is_a_probability
    (sm_dict : gmap nat Q) (revenue_dict : gmap nat (option Q)) (conservative : bool) :
  let alg := HistoricalRatioModel.build_prediction_algorithm sm_dict revenue_dict conservative in
  let cautious := HistoricalRatioModel.build_prediction_algorithm sm_dict revenue_dict true in
  let bold := HistoricalRatioModel.build_prediction_algorithm sm_dict revenue_dict false in
  0 <= HistoricalRatioModel.heads_percentage alg <= 1
  /\ 0 <= HistoricalRatioModel.heads_percentage_overall alg <= 1
  /\ 0 <= HistoricalRatioModel.heads_percentage_last_12 alg <= 1
  /\ HistoricalRatioModel.heads_percentage bold
     = HistoricalRatioModel.heads_percentage_overall bold
  /\ HistoricalRatioModel.heads_percentage bold <= HistoricalRatioModel.heads_percentage cautious
  /\ HistoricalRatioModel.distribution cautious = HistoricalRatioModel.distribution bold
  /\ HistoricalRatioModel.cac_12m cautious = HistoricalRatioModel.cac_12m bold.
Proof.
  cbv zeta. unfold HistoricalRatioModel.build_prediction_algorithm.
  cbn [HistoricalRatioModel.heads_percentage HistoricalRatioModel.heads_percentage_overall
       HistoricalRatioModel.heads_percentage_last_12 HistoricalRatioModel.distribution
       HistoricalRatioModel.cac_12m].
  set (overall := HistoricalRatioModel.heads_fraction _).
  set (recent := HistoricalRatioModel.heads_fraction _).
  assert (Ho : 0 <= overall <= 1) by apply heads_fraction_bounds.
  assert (Hr : 0 <= recent <= 1) by apply heads_fraction_bounds.
  split; [destruct conservative; [apply py_max_bounds; assumption | exact Ho] |].
  split; [exact Ho |]. split; [exact Hr |]. split; [reflexivity |].
  split; [apply py_max_ge_l |]. split; reflexivity.
Qed.

Section PoolFacts.

Import HistoricalRatioModel.

Variable sm_dict : gmap nat Q.
Variable revenue_dict : gmap nat (option Q).

Lemma pool_members months d :
  d ∈ omap pool_entry (map (month_ratio sm_dict revenue_dict) months) ->
  exists month,
    month ∈ months /\ month_ratio sm_dict revenue_dict month = Some d /\ d < 10000.
Proof.
  induction months as [| m rest IH]; intros Hin; [inversion Hin |].
  cbn [map omap list_omap] in Hin.
  assert (Hrest : d ∈ omap pool_entry (map (month_ratio sm_dict revenue_dict) rest) ->
                  exists month,
                    month ∈ m :: rest /\ month_ratio sm_dict revenue_dict month = Some d
                    /\ d < 10000).
  { intros Hr. destruct (IH Hr) as (month & Hm & Hrest). exists month.
    split; [right; exact Hm | exact Hrest]. }
  destruct (month_ratio sm_dict revenue_dict m) as [r |] eqn:Hratio; cbn [pool_entry] in Hin;
    [| apply Hrest; exact Hin].
  destruct (Qlt_le_dec r 10000) as [Hlt | Hge]; [| apply Hrest; exact Hin].
  apply elem_of_cons in Hin as [-> | Hin]; [| apply Hrest; exact Hin].
  exists m. split; [left | split; [exact Hratio | exact Hlt]].
Qed.

(** A month is in the pool, or counted as heads, or has a ratio of exactly
    10000, and only one of the three. *)
Lemma month_in_one_class m :
  let ratio := month_ratio sm_dict revenue_dict m in
  (is_Some (pool_entry ratio) /\ is_heads ratio = false
   /\ at_threshold sm_dict revenue_dict m = false)
  \/ (pool_entry ratio = None /\ is_heads ratio = true
      /\ at_threshold sm_dict revenue_dict m = false)
  \/ (pool_entry ratio = None /\ is_heads ratio = false
      /\ at_threshold sm_dict revenue_dict m = true).
Proof.
  unfold at_threshold. cbv zeta.
  destruct (month_ratio sm_dict revenue_dict m) as [r |]; cbn [pool_entry is_heads];
    [| right; left; repeat split; reflexivity].
  destruct (Qlt_le_dec r 10000) as [Hlt | Hge].
  - left. destruct (Qlt_le_dec 10000 r) as [Hgt | _]; [lra |].
    destruct (Qeq_bool r 10000) eqn:Heq; [apply Qeq_bool_iff in Heq; lra |].
    split; [eexists; reflexivity | split; reflexivity].
  - right. destruct (Qlt_le_dec 10000 r) as [Hgt | Hle].
    + left. destruct (Qeq_bool r 10000) eqn:Heq; [apply Qeq_bool_iff in Heq; lra |].
      repeat split; reflexivity.
    + right. assert (Heq : Qeq_bool r 10000 = true) by (apply Qeq_bool_iff; lra).
      rewrite Heq. repeat split; reflexivity.
Qed.

(** Each month is counted once: in the pool, in the heads count, or as a
    ratio of exactly 10000. *)
Lemma months_split months :
  (length (omap pool_entry (map (month_ratio sm_dict revenue_dict) months))
   + heads_count (map (month_ratio sm_dict revenue_dict) months)
   + length (filter (fun m => at_threshold sm_dict revenue_dict m = true) months)
   = length months)%nat.
Proof.
  unfold heads_count. induction months as [| m rest IH]; [reflexivity |].
  cbn [map omap list_omap]. rewrite !filter_cons.
  destruct (month_in_one_class m) as [([v Hv] & Hh & Ht) | [(Hv & Hh & Ht) | (Hv & Hh & Ht)]];
    rewrite Hv;
    destruct (decide (is_heads (month_ratio sm_dict revenue_dict m) = true)) as [Hd | Hd];
    destruct (decide (at_threshold sm_dict revenue_dict m = true)) as [He | He];
    try congruence; cbn [length]; lia.
Qed.

End PoolFacts.

(** X9. The pool holds exactly the ratios below 10000 of months with a
    positive revenue, and every month is counted once: in the pool, in the
    heads count, or, when its ratio is exactly 10000, in neither. *)
Theorem X9_months_split_between_pool_and_heads
    (sm_dict : gmap nat Q) (revenue_dict : gmap nat (option Q)) (conservative : bool) :
  let alg := HistoricalRatioModel.build_prediction_algorithm sm_dict revenue_dict conservative in
  let months := HistoricalRatioModel.all_months sm_dict revenue_dict in
  (forall d, d ∈ HistoricalRatioModel.distribution alg ->
     exists month,
       month ∈ months
       /\ HistoricalRatioModel.month_ratio sm_dict revenue_dict month = Some d
       /\ d < 10000)
  /\ (length (HistoricalRatioModel.distribution alg)
      + HistoricalRatioModel.heads_count (HistoricalRatioModel.historical_ratios alg)
      + length (filter (fun m => at_threshold sm_dict revenue_dict m = true) months)
      = length months)%nat.
Proof.
  cbv zeta. unfold HistoricalRatioModel.build_prediction_algorithm.
  cbn [HistoricalRatioModel.distribution HistoricalRatioModel.historical_ratios].
  split.
  - intros d Hd. apply pool_members. exact Hd.
  - apply months_split.
Qed.

(** X10. The reference CAC is never below the trailing twelve-month CAC
    (total spend over total revenue of the last twelve months, 0 when that
    revenue is not positive), equals it when there are fewer than 24 months
    of history, and is not negative when no month has a negative spend. *)
Theorem X10_reference_cac_at_least_trailing_cac
    (sm_dict : gmap nat Q) (revenue_dict : gmap nat (option Q)) :
  (forall m v, sm_dict !! m = Some v -> 0 <= v) ->
  let months := HistoricalRatioModel.all_months sm_dict revenue_dict in
  let recent := HistoricalRatioModel.last_12 months in
  let revenue := HistoricalRatioModel.sum_revenue revenue_dict recent in
  let trailing :=
    if Qlt_le_dec 0 revenue
    then HistoricalRatioModel.sum_sm sm_dict recent / revenue else 0 in
  0 <= trailing
  /\ trailing <= HistoricalRatioModel.calculate_12_month_cac sm_dict revenue_dict
  /\ ((length months < 24)%nat ->
      HistoricalRatioModel.calculate_12_month_cac sm_dict revenue_dict = trailing).
Proof.
  intros Hnn months recent revenue trailing.
  assert (Hsum : 0 <= HistoricalRatioModel.sum_sm sm_dict recent).
  { unfold HistoricalRatioModel.sum_sm. apply py_sum_nonneg.
    apply Forall_forall. intros x Hx.
    apply list_elem_of_In, in_map_iff in Hx as (m & <- & _).
    destruct (sm_dict !! m) as [v |] eqn:Hv; [apply (Hnn m v Hv) | discriminate]. }
  assert (Htr : 0 <= trailing).
  { unfold trailing. destruct (Qlt_le_dec 0 revenue) as [Hpos | _]; [| discriminate].
    apply Qle_shift_div_l; [exact Hpos | lra]. }
  unfold HistoricalRatioModel.calculate_12_month_cac.
  fold months. fold recent. fold revenue. fold trailing.
  split; [exact Htr |].
  destruct (24 <=? length months)%nat eqn:Hlen.
  - split; [apply py_max_ge_l |]. intros Hshort. apply Nat.leb_le in Hlen. lia.
  - split; [lra | reflexivity].
Qed.

Lemma steady_spend_nonneg m v : steady_sm !! m = Some v -> 0 <= v.
Proof.
  intros Hv.
  assert (Hm : m ∈ dom steady_sm) by (apply elem_of_dom; eexists; exact Hv).
  assert (Hall : m ∈ HistoricalRatioModel.all_months steady_sm steady_revenue).
  { apply all_months_elem. left. exact Hm. }
  rewrite steady_months in Hall.
  repeat (apply elem_of_cons in Hall as [-> | Hall]); [| | | inversion Hall];
    vm_compute in Hv; injection Hv as <-; discriminate.
Qed.

Lemma X10_reference_cac_witness :
  (forall m v, steady_sm !! m = Some v -> 0 <= v) /\
  let months := HistoricalRatioModel.all_months steady_sm steady_revenue in
  let recent := HistoricalRatioModel.last_12 months in
  let revenue := HistoricalRatioModel.sum_revenue steady_revenue recent in
  let trailing :=
    if Qlt_le_dec 0 revenue
    then HistoricalRatioModel.sum_sm steady_sm recent / revenue else 0 in
  0 <= trailing
  /\ trailing <= HistoricalRatioModel.calculate_12_month_cac steady_sm steady_revenue
  /\ ((length months < 24)%nat ->
      HistoricalRatioModel.calculate_12_month_cac steady_sm steady_revenue = trailing).
Proof.
  split; [exact steady_spend_nonneg |].
  apply (X10_reference_cac_at_least_trailing_cac steady_sm steady_revenue).
  exact steady_spend_nonneg.
Defined.

(** ** RatioSampler: further properties *)

(** X14. Whenever the conservative blend applies to a positive drawn ratio
    (drawn ratio below the reference CAC, spend grown above the last known
    spend), the blended ratio is defined and lies strictly between the drawn
    ratio and the reference CAC. *)
Theorem X14_blend_between_drawn_ratio_and_cac (spend last_sm drawn cac : Q) :
  0 < drawn -> drawn < cac -> 0 < last_sm -> last_sm < spend ->
  exists ratio,
    RatioSampler.blend spend last_sm drawn cac = Py.Ok ratio
    /\ drawn < ratio /\ ratio < cac.
Proof.
  intros Hd Hc Hl Hs. unfold RatioSampler.blend, mbind, result_bind.
  rewrite (py_div_defined last_sm drawn) by lra. cbn [Py.bind].
  rewrite (py_div_defined (spend - last_sm) cac) by lra. cbn [Py.bind].
  set (base := last_sm / drawn). set (extra := (spend - last_sm) / cac).
  assert (Hbase : 0 < base) by (apply Qdiv_pos; lra).
  assert (Hextra : 0 < extra) by (apply Qdiv_pos; lra).
  assert (Hb : base * drawn == last_sm).
  { unfold base. rewrite Qmult_comm. apply Qmult_div_r. lra. }
  assert (He : extra * cac == spend - last_sm).
  { unfold extra. rewrite Qmult_comm. apply Qmult_div_r. lra. }
  rewrite py_div_defined by lra. eexists. split; [reflexivity |].
  assert (Hgap : extra * drawn < extra * cac).
  { rewrite !(Qmult_comm extra). apply Qmult_lt_compat_r; assumption. }
  assert (Hgap' : base * drawn < base * cac).
  { rewrite !(Qmult_comm base). apply Qmult_lt_compat_r; assumption. }
  split.
  - apply Qlt_shift_div_l; [lra |].
    assert (drawn * (base + extra) == base * drawn + extra * drawn) by ring. lra.
  - apply Qlt_shift_div_r; [lra |].
    assert (cac * (base + extra) == base * cac + extra * cac) by ring. lra.
Qed.

Lemma X14_blend_witness :
  0 < 2 /\ 2 < 4 /\ 0 < 100 /\ 100 < 110 /\
  exists ratio,
    RatioSampler.blend 110 100 2 4 = Py.Ok ratio /\ 2 < ratio /\ ratio < 4.
Proof.
  split; [reflexivity |]. split; [reflexivity |]. split; [reflexivity |].
  split; [reflexivity |].
  apply (X14_blend_between_drawn_ratio_and_cac 110 100 2 4); reflexivity.
Defined.

Section SamplerRunFacts.

Import HistoricalRatioModel RatioSampler.

Context {G : Type} `{RandomSource G} `{!RandomSourceInRange G}.

(** With an index inside the sequence, a choice among at least one value is
    one of the values. *)
Lemma choice_in_range {A : Type} (values : list A) (g : G) :
  values <> [] -> exists v, fst (choice values g) = Some v /\ v ∈ values.
Proof.
  intros Hne. unfold choice.
  pose proof (randbelow_lt (length values) g) as Hlt.
  destruct (randbelow (length values) g) as [i g1]. cbn [fst] in *.
  destruct (lookup_lt_is_Some_2 values i) as [v Hv].
  { apply Hlt. destruct values; [congruence | simpl; lia]. }
  exists v. split; [exact Hv |]. apply list_elem_of_lookup. exists i. exact Hv.
Qed.

Lemma blend_raises spend last_sm drawn cac e :
  blend spend last_sm drawn cac = Py.Raise e -> e = Py.ZeroDivisionError.
Proof.
  unfold blend, mbind, result_bind, Py.div.
  destruct (Qeq_bool drawn 0); cbn [Py.bind]; [congruence |].
  destruct (Qeq_bool cac 0); cbn [Py.bind]; [congruence |].
  destruct (Qeq_bool _ 0); congruence.
Qed.

(** The guarded body returns a ratio. *)
Lemma draw_ratio_guarded_returns alg last_sm i g :
  exists ratio, fst (draw_ratio_guarded alg last_sm (grown_spend last_sm i) g) = Py.Ok ratio.
Proof.
  pose proof (draw_ratio_guarded_no_zero_division alg last_sm i g) as Hzero.
  assert (Hindex : fst (draw_ratio_guarded alg last_sm (grown_spend last_sm i) g)
                   <> Py.Raise Py.IndexError).
  { unfold draw_ratio_guarded. destruct (random g) as [u g1].
    destruct (Qlt_le_dec u (heads_percentage alg)); [discriminate |].
    destruct (distribution alg) as [| d ds]; [discriminate |].
    destruct (choice_in_range (d :: ds) g1) as (v & Hv & _); [discriminate |].
    destruct (choice (d :: ds) g1) as [drawn g2]. cbn [fst] in Hv. subst drawn.
    destruct (conservative alg && _)%bool; [| discriminate].
    destruct (_ && _)%bool; [| discriminate].
    cbn [fst]. intros Hraise. apply blend_raises in Hraise. discriminate. }
  destruct (fst (draw_ratio_guarded alg last_sm (grown_spend last_sm i) g)) as [ratio | e].
  - exists ratio. reflexivity.
  - specialize (Hzero e eq_refl). subst e. congruence.
Qed.

(** The loop of [predict_next_12_months] returns one prediction per month:
    the spend compounds at 10% a month and the revenue is what the spend
    buys at the predicted ratio, 0 when the ratio is not positive. *)
Lemma predict_months_returns alg last_sm months : forall g,
  exists predictions,
    fst (predict_months alg last_sm months g) = Py.Ok predictions
    /\ Forall2 (fun i p =>
                  sm_value p = grown_spend last_sm i
                  /\ (0 < predicted_ratio p ->
                      predicted_revenue p * predicted_ratio p == sm_value p)
                  /\ (predicted_ratio p <= 0 -> predicted_revenue p = 0))
         months predictions.
Proof.
  induction months as [| i rest IH]; intros g; [exists []; split; [reflexivity | constructor] |].
  cbn [predict_months].
  destruct (draw_ratio_guarded_returns alg last_sm i g) as [ratio Hratio].
  destruct (draw_ratio_guarded alg last_sm (grown_spend last_sm i) g) as [r g1].
  cbn [fst] in Hratio. subst r.
  destruct (IH g1) as (ps & Hps & Hall).
  destruct (predict_months alg last_sm rest g1) as [r g2]. cbn [fst] in Hps. subst r.
  eexists. split; [reflexivity |]. constructor; [| exact Hall].
  cbn [sm_value predicted_ratio predicted_revenue].
  split; [reflexivity |].
  destruct (Qlt_le_dec 0 ratio) as [Hpos | Hnp]; split; intros Hr; try lra; try reflexivity.
  rewrite Qmult_comm. apply Qmult_div_r. lra.
Qed.

Lemma grown_spend_increasing last_sm i j :
  0 < last_sm -> (i < j)%nat -> grown_spend last_sm i < grown_spend last_sm j.
Proof.
  intros Hpos Hij. unfold grown_spend.
  induction Hij as [| j Hij IH].
  - replace (Z.of_nat (S (S i))) with (1 + Z.of_nat (S i))%Z by lia.
    rewrite Qpower_plus by discriminate. change (Qpower (11 # 10) 1) with (11 # 10).
    pose proof (growth_factor_gt_1 i) as Hp.
    set (p := Qpower (11 # 10) (Z.of_nat (S i))) in *.
    assert (0 < last_sm * p) by (apply Qmult_lt_0_compat; lra).
    assert (last_sm * ((11 # 10) * p) == (11 # 10) * (last_sm * p)) by ring. lra.
  - eapply Qlt_trans; [exact IH |].
    replace (Z.of_nat (S (S j))) with (1 + Z.of_nat (S j))%Z by lia.
    rewrite Qpower_plus by discriminate. change (Qpower (11 # 10) 1) with (11 # 10).
    pose proof (growth_factor_gt_1 j) as Hp.
    set (p := Qpower (11 # 10) (Z.of_nat (S j))) in *.
    assert (0 < last_sm * p) by (apply Qmult_lt_0_compat; lra).
    assert (last_sm * ((11 # 10) * p) == (11 # 10) * (last_sm * p)) by ring. lra.
Qed.

(** The last entry of a list sorted by a key has the greatest key. *)
Lemma last_is_latest {A : Type} (key : A -> Z) (months : list A) latest :
  StronglySorted (fun a b => (key a <= key b)%Z) months -> last months = Some latest ->
  forall m, m ∈ months -> (key m <= key latest)%Z.
Proof.
  intros Hsorted.
  induction Hsorted as [| a rest Hrest IH Hall]; intros Hlast m Hm; [inversion Hm |].
  destruct rest as [| b rest'].
  - injection Hlast as <-. apply list_elem_of_singleton in Hm. subst m. lia.
  - assert (Hlast' : last (b :: rest') = Some latest) by exact Hlast.
    apply elem_of_cons in Hm as [-> | Hm]; [| apply (IH Hlast' m Hm)].
    rewrite Forall_forall in Hall. apply Hall.
    apply last_Some_elem_of. exact Hlast'.
Qed.

End SamplerRunFacts.

Section SamplerRunFactsAggressive.

Import HistoricalRatioModel RatioSampler.

Context {G : Type} `{RandomSource G} `{!RandomSourceInRange G}.

(** Without blending, a month's ratio is the spend itself (heads), the
    reference CAC (empty pool) or a value of the pool. *)
Lemma draw_ratio_aggressive alg last_sm spend g :
  conservative alg = false ->
  exists ratio,
    fst (draw_ratio alg last_sm spend g) = Py.Ok ratio
    /\ (ratio = spend
        \/ (distribution alg = [] /\ ratio = cac_12m alg)
        \/ ratio ∈ distribution alg).
Proof.
  intros Hmode. unfold draw_ratio. destruct (random g) as [u g1].
  destruct (Qlt_le_dec u (heads_percentage alg)); [exists spend; split; [reflexivity | left; reflexivity] |].
  destruct (distribution alg) as [| d ds] eqn:Hpool.
  { exists (cac_12m alg). split; [reflexivity | right; left; split; reflexivity]. }
  destruct (choice_in_range (d :: ds) g1) as (v & Hv & Hin); [discriminate |].
  destruct (choice (d :: ds) g1) as [drawn g2]. cbn [fst] in Hv. subst drawn.
  rewrite Hmode. cbn [andb fst]. exists v. split; [reflexivity | right; right; exact Hin].
Qed.

Lemma simulate_months_aggressive alg last_sm months : forall g,
  conservative alg = false ->
  exists data,
    fst (simulate_months alg last_sm months g) = Py.Ok data
    /\ Forall2 (fun i (pair : Q * Q) =>
                  fst pair = grown_spend last_sm i
                  /\ (snd pair = fst pair
                      \/ (distribution alg = [] /\ snd pair = cac_12m alg)
                      \/ snd pair ∈ distribution alg))
         months data.
Proof.
  induction months as [| i rest IH]; intros g Hmode;
    [exists []; split; [reflexivity | constructor] |].
  cbn [simulate_months].
  destruct (draw_ratio_aggressive alg last_sm (grown_spend last_sm i) g Hmode)
    as (ratio & Hratio & Hkind).
  destruct (draw_ratio alg last_sm (grown_spend last_sm i) g) as [r g1].
  cbn [fst] in Hratio. subst r.
  destruct (IH g1 Hmode) as (data & Hdata & Hall).
  destruct (simulate_months alg last_sm rest g1) as [r g2]. cbn [fst] in Hdata. subst r.
  eexists. split; [reflexivity |]. constructor; [| exact Hall].
  cbn [fst snd]. split; [reflexivity | exact Hkind].
Qed.

End SamplerRunFactsAggressive.



Lemma history_sm_not_empty : dom history_sm <> ∅.
Proof.
  intros Hempty.
  assert (Hin : "December 2023"%string ∈ dom history_sm).
  { apply elem_of_dom. vm_compute. eexists. reflexivity. }
  rewrite Hempty in Hin. set_solver.
Qed.




(** ** RollingCac *)

Section RollingFacts.

Import HistoricalRatioModel RatioSampler RollingCac.

Context {G : Type} `{RandomSource G} `{!RandomSourceInRange G}.

Lemma grown_spend_nonneg last_sm i : 0 <= last_sm -> 0 <= grown_spend last_sm i.
Proof.
  intros Hnn. unfold grown_spend. pose proof (growth_factor_gt_1 i) as Hp.
  apply Qmult_le_0_compat; lra.
Qed.

Lemma draw_plain_ratio_returns alg spend g :
  exists ratio, fst (draw_plain_ratio alg spend g) = Py.Ok ratio.
Proof.
  unfold draw_plain_ratio. destruct (random g) as [u g1].
  destruct (Qlt_le_dec u (heads_percentage alg)); [eexists; reflexivity |].
  destruct (distribution alg) as [| d ds]; [eexists; reflexivity |].
  destruct (choice_in_range (d :: ds) g1) as (v & Hv & _); [discriminate |].
  destruct (choice (d :: ds) g1) as [drawn g2]. cbn [fst] in Hv. subst drawn.
  eexists; reflexivity.
Qed.

(** The loop of [run_single_prediction] returns one prediction per month,
    with no negative spend or revenue when the last spend is not negative. *)
Lemma plain_months_returns alg last_sm months : forall g,
  exists predictions,
    fst (plain_months alg last_sm months g) = Py.Ok predictions
    /\ length predictions = length months
    /\ (0 <= last_sm ->
        Forall (fun p => 0 <= sm_value p /\ 0 <= predicted_revenue p) predictions).
Proof.
  induction months as [| i rest IH]; intros g.
  { exists []. split; [reflexivity |]. split; [reflexivity | constructor]. }
  cbn [plain_months].
  destruct (draw_plain_ratio_returns alg (grown_spend last_sm i) g) as [ratio Hratio].
  destruct (draw_plain_ratio alg (grown_spend last_sm i) g) as [r g1].
  cbn [fst] in Hratio. subst r.
  destruct (IH g1) as (ps & Hps & Hlen & Hall).
  destruct (plain_months alg last_sm rest g1) as [r g2]. cbn [fst] in Hps. subst r.
  eexists. split; [reflexivity |]. split; [simpl; rewrite Hlen; reflexivity |].
  intros Hnn. constructor; [| exact (Hall Hnn)].
  cbn [sm_value predicted_revenue].
  pose proof (grown_spend_nonneg last_sm i Hnn) as Hspend.
  split; [exact Hspend |].
  destruct (Qlt_le_dec 0 ratio) as [Hpos | _]; [| discriminate].
  apply Qle_shift_div_l; [exact Hpos | lra].
Qed.

(** Inside the list and from the third month on, the rolling CAC is a
    number, not negative when no spend or revenue is. *)
Lemma calculate_rolling_3m_cac_inside predictions month_index :
  (2 <= month_index < length predictions)%nat ->
  exists value,
    calculate_rolling_3m_cac predictions month_index = Py.Ok (Some value)
    /\ (Forall (fun p => 0 <= sm_value p /\ 0 <= predicted_revenue p) predictions ->
        0 <= value).
Proof.
  intros [Hlo Hhi]. unfold calculate_rolling_3m_cac.
  destruct (Nat.ltb_spec month_index 2) as [Hlt | _]; [lia |].
  destruct (lookup_lt_is_Some_2 predictions month_index) as [p0 Hp0]; [lia |].
  destruct (lookup_lt_is_Some_2 predictions (month_index - 1)) as [p1 Hp1]; [lia |].
  destruct (lookup_lt_is_Some_2 predictions (month_index - 2)) as [p2 Hp2]; [lia |].
  rewrite Hp0, Hp1, Hp2.
  destruct (Qlt_le_dec 0 _) as [Hpos | _].
  - eexists. split; [reflexivity |]. intros Hall.
    rewrite Forall_lookup in Hall.
    destruct (Hall _ _ Hp0) as [Hs0 _]. destruct (Hall _ _ Hp1) as [Hs1 _].
    destruct (Hall _ _ Hp2) as [Hs2 _].
    apply Qle_shift_div_l; [exact Hpos | lra].
  - exists 0. split; [reflexivity |]. intros _. discriminate.
Qed.

Lemma rolling_values_inside predictions indices :
  Forall (fun i => (2 <= i < length predictions)%nat) indices ->
  exists values,
    rolling_values predictions indices = Py.Ok values
    /\ length values = length indices
    /\ (Forall (fun p => 0 <= sm_value p /\ 0 <= predicted_revenue p) predictions ->
        Forall (fun v => 0 <= v) values).
Proof.
  induction 1 as [| i rest Hi _ IH].
  { exists []. split; [reflexivity |]. split; [reflexivity | constructor]. }
  destruct (calculate_rolling_3m_cac_inside predictions i Hi) as (value & Hvalue & Hnn).
  destruct IH as (values & Hvalues & Hlen & Hall).
  exists (value :: values). cbn [rolling_values].
  rewrite Hvalue, Hvalues. split; [reflexivity |].
  split; [simpl; rewrite Hlen; reflexivity |].
  intros Hps. constructor; [exact (Hnn Hps) | exact (Hall Hps)].
Qed.

End RollingFacts.



(** X16. [calculate_rolling_3m_cac] gives no value for the first two months,
    whatever the list holds; from the third month on it raises [IndexError]
    exactly when the index is past the end of the list, and otherwise
    returns a number whose product with the three months' revenue is their
    spend when that revenue is positive, and 0 when it is not. *)
Theorem X16_rolling_cac_bounds
    (predictions : list RatioSampler.prediction) (month_index : nat) :
  ((month_index < 2)%nat ->
   RollingCac.calculate_rolling_3m_cac predictions month_index = Py.Ok None)
  /\ ((2 <= month_index)%nat -> (length predictions <= month_index)%nat ->
      RollingCac.calculate_rolling_3m_cac predictions month_index = Py.Raise Py.IndexError)
  /\ ((2 <= month_index < length predictions)%nat ->
      exists value,
        RollingCac.calculate_rolling_3m_cac predictions month_index = Py.Ok (Some value)
        /\ let window := take 3 (drop (month_index - 2) predictions) in
           let spend := Py.sum (map RatioSampler.sm_value window) in
           let revenue := Py.sum (map RatioSampler.predicted_revenue window) in
           (0 < revenue -> value * revenue == spend)
           /\ (revenue <= 0 -> value = 0)).
Proof.
  unfold RollingCac.calculate_rolling_3m_cac.
  split; [| split].
  - intros Hlt. destruct (Nat.ltb_spec month_index 2); [reflexivity | lia].
  - intros Hlo Hhi. destruct (Nat.ltb_spec month_index 2); [lia |].
    rewrite (lookup_ge_None_2 predictions month_index) by lia. reflexivity.
  - intros [Hlo Hhi]. destruct (Nat.ltb_spec month_index 2); [lia |].
    destruct (lookup_lt_is_Some_2 predictions month_index) as [p0 Hp0]; [lia |].
    destruct (lookup_lt_is_Some_2 predictions (month_index - 1)) as [p1 Hp1]; [lia |].
    destruct (lookup_lt_is_Some_2 predictions (month_index - 2)) as [p2 Hp2]; [lia |].
    rewrite Hp0, Hp1, Hp2.
    assert (Hwindow : take 3 (drop (month_index - 2) predictions) = [p2; p1; p0]).
    { apply list_eq. intros k. rewrite lookup_take, lookup_drop.
      destruct k as [| [| [| k]]]; cbn [lookup list_lookup].
      - rewrite Nat.add_0_r. destruct (decide (0 < 3)%nat); [exact Hp2 | lia].
      - replace (month_index - 2 + 1)%nat with (month_index - 1)%nat by lia.
        destruct (decide (1 < 3)%nat); [exact Hp1 | lia].
      - replace (month_index - 2 + 2)%nat with month_index by lia.
        destruct (decide (2 < 3)%nat); [exact Hp0 | lia].
      - destruct (decide (S (S (S k)) < 3)%nat); [lia | reflexivity]. }
    rewrite Hwindow. cbv zeta. unfold Py.sum. cbn [map fold_left].
    set (revenue := RatioSampler.predicted_revenue p0 + RatioSampler.predicted_revenue p1
                    + RatioSampler.predicted_revenue p2).
    set (spend := RatioSampler.sm_value p0 + RatioSampler.sm_value p1 + RatioSampler.sm_value p2).
    destruct (Qlt_le_dec 0 revenue) as [Hpos | Hle].
    + eexists. split; [reflexivity |]. split.
      * intros Hpos'.
        assert (Hr : 0 + RatioSampler.predicted_revenue p2 + RatioSampler.predicted_revenue p1
                     + RatioSampler.predicted_revenue p0 == revenue) by (unfold revenue; ring).
        assert (Hs : 0 + RatioSampler.sm_value p2 + RatioSampler.sm_value p1
                     + RatioSampler.sm_value p0 == spend) by (unfold spend; ring).
        rewrite Hr, Hs. field. lra.
      * intros Hle'. exfalso.
        assert (Hr : 0 + RatioSampler.predicted_revenue p2 + RatioSampler.predicted_revenue p1
                     + RatioSampler.predicted_revenue p0 == revenue) by (unfold revenue; ring).
        lra.
    + exists 0. split; [reflexivity |]. split; [| reflexivity].
      intros Hpos'. exfalso.
      assert (Hr : 0 + RatioSampler.predicted_revenue p2 + RatioSampler.predicted_revenue p1
                   + RatioSampler.predicted_revenue p0 == revenue) by (unfold revenue; ring).
      lra.
Qed.

(** ** RetentionCurveSampler: further properties *)

Section PoolRuleFacts.

Import RetentionCurveSampler.

Variable retention_table : list (list (option Q)).

(** The search loop keeps the first [quota] non-empty candidates. *)
Lemma nearest_columns_take quota candidates : forall found,
  (length found < quota)%nat ->
  nearest_columns retention_table quota candidates found
  = found ++ take (quota - length found) (List.filter (has_values retention_table) candidates).
Proof.
  induction candidates as [| a rest IH]; intros found Hlen; cbn [nearest_columns List.filter].
  { rewrite take_nil, app_nil_r. reflexivity. }
  unfold has_values at 1.
  destruct (column_values retention_table a) as [| v vs]; [apply IH; exact Hlen |].
  rewrite length_app. cbn [length].
  destruct (Nat.eqb_spec (length found + 1) quota) as [Heq | Hne].
  - replace (quota - length found)%nat with 1%nat by lia. reflexivity.
  - rewrite IH by (rewrite length_app; simpl; lia).
    rewrite length_app. cbn [length].
    replace (quota - length found)%nat with (S (quota - (length found + 1))) by lia.
    rewrite <- app_assoc. reflexivity.
Qed.

Lemma first_column_take candidates :
  option_list (first_column retention_table candidates)
  = take 1 (List.filter (has_values retention_table) candidates).
Proof.
  induction candidates as [| a rest IH]; [reflexivity |].
  cbn [first_column List.filter]. unfold has_values at 1.
  destruct (column_values retention_table a); [exact IH | reflexivity].
Qed.

Lemma pool_rule col : pool retention_table col = pool_by_rule retention_table col.
Proof.
  unfold pool, pool_by_rule, quota_of, nearest_nonempty.
  destruct (12 <=? _)%nat; [rewrite !first_column_take; reflexivity |].
  destruct (5 <=? _)%nat; [rewrite !nearest_columns_take by (simpl; lia); reflexivity |].
  destruct (2 <=? _)%nat; rewrite !nearest_columns_take by (simpl; lia); reflexivity.
Qed.

Lemma column_values_member c v :
  v ∈ column_values retention_table c
  <-> exists row, row ∈ tail retention_table /\ row !! c = Some (Some v).
Proof.
  unfold column_values. rewrite list_elem_of_omap. split.
  - intros (row & Hrow & Hcell). exists row. split; [exact Hrow |].
    destruct (row !! c) as [[w |] |]; cbn in Hcell; congruence.
  - intros (row & Hrow & Hcell). exists row. split; [exact Hrow |]. rewrite Hcell. reflexivity.
Qed.

Lemma nearest_nonempty_member quota candidates c :
  c ∈ nearest_nonempty retention_table quota candidates -> c ∈ candidates.
Proof.
  unfold nearest_nonempty. intros Hc. apply elem_of_take in Hc as (i & Hi & _).
  apply list_elem_of_lookup_2, list_elem_of_In, filter_In in Hi as [Hi _].
  apply list_elem_of_In. exact Hi.
Qed.

Lemma concat_columns_member cols v :
  v ∈ concat (map (column_values retention_table) cols)
  -> exists c, c ∈ cols /\ v ∈ column_values retention_table c.
Proof.
  induction cols as [| a rest IH]; cbn [map concat]; intros Hv; [inversion Hv |].
  apply elem_of_app in Hv as [Hv | Hv].
  - exists a. split; [left | exact Hv].
  - destruct (IH Hv) as (c & Hc & Hvc). exists c. split; [right; exact Hc | exact Hvc].
Qed.

(** Where the values of a pool come from. *)
Lemma pool_member col v :
  v ∈ pool retention_table col ->
  exists c, v ∈ column_values retention_table c /\ (c <= col \/ col < c < 60)%nat.
Proof.
  rewrite pool_rule. unfold pool_by_rule, widen. intros Hv.
  apply elem_of_app in Hv as [Hv | Hv]; [exists col; split; [exact Hv | lia] |].
  apply elem_of_app in Hv as [Hv | Hv];
    apply concat_columns_member in Hv as (c & Hc & Hv);
    apply nearest_nonempty_member in Hc; exists c; (split; [exact Hv |]).
  - unfold left_range in Hc. apply elem_of_reverse, elem_of_seq in Hc. lia.
  - unfold right_range in Hc. apply elem_of_seq in Hc. lia.
Qed.

End PoolRuleFacts.

Section PoolRowFacts.

Import RetentionCurveSampler.

(** The pool reads the rows after the first only. *)
Lemma pool_by_rule_tail table table' col :
  tail table = tail table' -> pool_by_rule table col = pool_by_rule table' col.
Proof.
  intros Htail.
  assert (Hcol : forall c, column_values table c = column_values table' c).
  { intros c. unfold column_values. rewrite Htail. reflexivity. }
  assert (Hhas : forall c, has_values table c = has_values table' c).
  { intros c. unfold has_values. rewrite Hcol. reflexivity. }
  assert (Hnear : forall quota cands,
            nearest_nonempty table quota cands = nearest_nonempty table' quota cands).
  { intros quota cands. unfold nearest_nonempty. f_equal. apply filter_ext. intros c. apply Hhas. }
  assert (Hcat : forall cols,
            concat (map (column_values table) cols) = concat (map (column_values table') cols)).
  { intros cols. f_equal. apply map_ext. intros c. apply Hcol. }
  unfold pool_by_rule, widen. rewrite !Hnear, !Hcat, Hcol. reflexivity.
Qed.

Lemma pool_without_later_rows table col : tail table = [] -> pool table col = [].
Proof.
  intros Htail. destruct (pool table col) as [| v vs] eqn:Hpool; [reflexivity | exfalso].
  destruct (pool_member table col v) as (c & Hv & _); [rewrite Hpool; left |].
  apply column_values_member in Hv as (row & Hrow & _). rewrite Htail in Hrow. inversion Hrow.
Qed.

Context {G : Type} `{RandomSource G}.

(** Columns with an empty pool are sampled as [None] without a draw. *)
Lemma simulate_columns_empty table conservative floor cols : forall g,
  (forall col, col ∈ cols -> pool table col = []) ->
  simulate_columns table conservative floor cols g = (repeat None (length cols), g).
Proof.
  induction cols as [| col rest IH]; intros g Hempty; [reflexivity |].
  rewrite simulate_columns_cons, (Hempty col) by left. cbn [draw fst snd dampen].
  rewrite IH by (intros c Hc; apply Hempty; right; exact Hc). reflexivity.
Qed.

Lemma simulate_columns_none table conservative floor cols : forall g i col,
  cols !! i = Some col -> pool table col = [] ->
  fst (simulate_columns table conservative floor cols g) !! i = Some None.
Proof.
  induction cols as [| a rest IH]; intros g i col Hi Hpool; [discriminate |].
  rewrite simulate_columns_cons. destruct i as [| i]; cbn [fst lookup list_lookup].
  - injection Hi as ->. rewrite Hpool. reflexivity.
  - apply (IH _ i col Hi Hpool).
Qed.

Lemma simulate_curves_shape table conservative floor sims : forall g,
  length (fst (simulate_curves table conservative floor sims g)) = sims
  /\ Forall (fun curve => length curve = 60%nat)
       (fst (simulate_curves table conservative floor sims g)).
Proof.
  induction sims as [| n IH]; intros g; [split; [reflexivity | constructor] |].
  cbn [simulate_curves].
  pose proof (simulate_columns_length table conservative floor (seq 0 60) g) as Hlen.
  unfold simulate_retention_curve.
  destruct (simulate_columns table conservative floor (seq 0 60) g) as [curve g1].
  destruct (IH g1) as [Hn Hall].
  destruct (simulate_curves table conservative floor n g1) as [curves g2].
  cbn [fst] in *. split; [simpl; rewrite Hn; reflexivity |].
  constructor; [rewrite Hlen; apply length_seq | exact Hall].
Qed.

Context `{!RandomSourceInRange G}.

(** Each sampled value is a value of its column's pool, dampened. *)
Lemma simulate_columns_entries table conservative floor cols : forall g i col,
  cols !! i = Some col -> pool table col <> [] ->
  exists v,
    v ∈ pool table col
    /\ fst (simulate_columns table conservative floor cols g) !! i
       = Some (dampen conservative floor (Some v)).
Proof.
  induction cols as [| a rest IH]; intros g i col Hi Hpool; [discriminate |].
  rewrite simulate_columns_cons. destruct i as [| i]; cbn [fst lookup list_lookup].
  - injection Hi as ->.
    destruct (pool table col) as [| p ps] eqn:Hp; [congruence |].
    cbn [draw]. destruct (choice_in_range (p :: ps) g) as (v & Hv & Hin); [discriminate |].
    exists v. split; [exact Hin |]. rewrite Hv. reflexivity.
  - apply (IH _ i col Hi Hpool).
Qed.

End PoolRowFacts.

(** X17. The four branches of the pool construction are one rule: the
    column's own observed values, followed by the values of the k nearest
    non-empty columns to its left (nearest first) and of the k nearest
    non-empty columns to its right within the first 60, where k is 1, 2, 3
    or 5 as the column holds at least 12, 5, 2 or fewer values. *)
Theorem X17_pool_widens_by_nearest_columns
    (retention_table : list (list (option Q))) (col : nat) :
  let observed c :=
    match RetentionCurveSampler.column_values retention_table c with
    | [] => false
    | _ :: _ => true
    end in
  let own := RetentionCurveSampler.column_values retention_table col in
  let k := if (12 <=? length own)%nat then 1%nat
           else if (5 <=? length own)%nat then 2%nat
           else if (2 <=? length own)%nat then 3%nat else 5%nat in
  let left_cols := take k (List.filter observed (reverse (seq 0 col))) in
  let right_cols := take k (List.filter observed (seq (S col) (60 - S col))) in
  RetentionCurveSampler.pool retention_table col
  = own
    ++ concat (map (RetentionCurveSampler.column_values retention_table) left_cols)
    ++ concat (map (RetentionCurveSampler.column_values retention_table) right_cols).
Proof.
  cbv zeta. rewrite pool_rule. reflexivity.
Qed.

(** X18. A pool holds observed values of the rows after the first only: each
    of its values sits in some later row, in the column itself, a column to
    its left, or a column to its right among the first 60; the column's own
    values are always part of it; the older-cohorts first row has no
    influence on it, and a table without later rows gives an empty pool. *)
Theorem X18_pool_reads_later_rows_only
    (retention_table : list (list (option Q))) (col : nat) :
  (forall v,
     v ∈ RetentionCurveSampler.pool retention_table col ->
     exists row c,
       row ∈ tail retention_table /\ row !! c = Some (Some v)
       /\ (c <= col \/ col < c < 60)%nat)
  /\ (forall row v,
        row ∈ tail retention_table -> row !! col = Some (Some v) ->
        v ∈ RetentionCurveSampler.pool retention_table col)
  /\ (forall older,
        RetentionCurveSampler.pool (older :: tail retention_table) col
        = RetentionCurveSampler.pool retention_table col)
  /\ (tail retention_table = [] -> RetentionCurveSampler.pool retention_table col = []).
Proof.
  split; [| split; [| split]].
  - intros v Hv. destruct (pool_member retention_table col v Hv) as (c & Hc & Hrange).
    apply column_values_member in Hc as (row & Hrow & Hcell).
    exists row, c. auto.
  - intros row v Hrow Hcell. rewrite pool_rule. unfold pool_by_rule, RetentionCurveSampler.widen.
    apply elem_of_app. left. apply column_values_member. exists row. auto.
  - intros older. rewrite !pool_rule. apply pool_by_rule_tail. reflexivity.
  - apply pool_without_later_rows.
Qed.

Lemma X18_pool_reads_later_rows_witness :
  tail [repeat (Some 1) 60] = ([] : list (list (option Q)))
  /\ RetentionCurveSampler.pool [repeat (Some 1) 60] 3 = [].
Proof.
  split; [reflexivity |].
  exact (proj2 (proj2 (proj2 (X18_pool_reads_later_rows_only [repeat (Some 1) 60] 3))) eq_refl).
Defined.

(** X19. With a generator that picks indices inside the pool, the value
    sampled for a column among the first 60 is [None] when the column's pool
    is empty and otherwise a value of that pool, dampened in conservative
    mode and unchanged in aggressive mode.  With any generator, a table
    without rows after the first gives 60 times [None] and draws nothing,
    and a batch holds 1000 curves of 60 entries each. *)
Theorem X19_sampled_value_comes_from_pool
    (G : Type) (source : RandomSource G) (in_range : RandomSourceInRange G)
    (retention_table : list (list (option Q))) (conservative : bool) (floor : Q) (g : G)
    (c : nat) :
  (c < 60)%nat ->
  let curve :=
    fst (RetentionCurveSampler.simulate_retention_curve retention_table conservative floor g) in
  (RetentionCurveSampler.pool retention_table c = [] -> curve !! c = Some None)
  /\ (RetentionCurveSampler.pool retention_table c <> [] ->
      exists v,
        v ∈ RetentionCurveSampler.pool retention_table c
        /\ curve !! c = Some (RetentionCurveSampler.dampen conservative floor (Some v))
        /\ (conservative = false -> curve !! c = Some (Some v)))
  /\ (tail retention_table = [] ->
      RetentionCurveSampler.simulate_retention_curve retention_table conservative floor g
      = (repeat None 60, g))
  /\ length (fst (RetentionCurveSampler.simulate_1000_retention_curves
                    retention_table conservative floor g)) = 1000%nat
  /\ Forall (fun curve => length curve = 60%nat)
       (fst (RetentionCurveSampler.simulate_1000_retention_curves
               retention_table conservative floor g)).
Proof.
  intros Hc curve.
  assert (Hcol : seq 0 60 !! c = Some c) by (apply lookup_seq; lia).
  split; [| split; [| split]].
  - intros Hempty. apply (simulate_columns_none _ _ _ _ _ c c Hcol Hempty).
  - intros Hpool.
    destruct (simulate_columns_entries retention_table conservative floor (seq 0 60) g c c
                Hcol Hpool) as (v & Hv & Hentry).
    exists v. split; [exact Hv |]. split; [exact Hentry |].
    intros ->. exact Hentry.
  - intros Htail. unfold RetentionCurveSampler.simulate_retention_curve.
    rewrite simulate_columns_empty; [reflexivity |].
    intros col _. apply pool_without_later_rows. exact Htail.
  - apply simulate_curves_shape.
Qed.

Lemma X19_sampled_value_witness :
  (0 < 60)%nat
  /\ RetentionCurveSampler.pool late_table 0 <> []
  /\ exists v,
       v ∈ RetentionCurveSampler.pool late_table 0
       /\ fst (RetentionCurveSampler.simulate_retention_curve late_table false 1
                 ([7; 11; 13]%nat : replay)) !! 0%nat = Some (Some v).
Proof.
  assert (Hpool : RetentionCurveSampler.pool late_table 0 <> [])
    by (vm_compute; discriminate).
  split; [lia |]. split; [exact Hpool |].
  destruct (X19_sampled_value_comes_from_pool replay replay_source replay_in_range
              late_table false 1 [7; 11; 13]%nat 0) as (_ & Hsome & _); [lia |].
  destruct (Hsome Hpool) as (v & Hv & _ & Hentry).
  exists v. split; [exact Hv | exact (Hentry eq_refl)].
Defined.

(** ** RetentionTable *)

Section RetentionTableFacts.

Import RetentionTable.

Lemma ratio_row_length rev : length (ratio_row rev) = (length rev - 1)%nat.
Proof. unfold ratio_row. rewrite length_map, length_seq. reflexivity. Qed.

Lemma ratio_row_lookup rev j cell :
  ratio_row rev !! j = Some cell ->
  (S j < length rev)%nat
  /\ cell = ratio_cell (mjoin (rev !! j)) (mjoin (rev !! S j)).
Proof.
  unfold ratio_row. rewrite list_lookup_fmap. intros Hcell.
  destruct (seq 1 (length rev - 1) !! j) as [k |] eqn:Hk; [| discriminate].
  apply lookup_seq in Hk as [-> Hj]. cbn in Hcell. injection Hcell as <-.
  split; [lia |]. cbn [Nat.add]. rewrite Nat.sub_0_r. reflexivity.
Qed.

(** A ratio is reported only for a non-zero base, so no division by zero. *)
Lemma ratio_cell_Some left curr v :
  ratio_cell left curr = Some v ->
  exists l c, left = Some l /\ curr = Some c /\ ~ l == 0 /\ v * l == c.
Proof.
  unfold ratio_cell. destruct left as [l |]; [| discriminate].
  destruct curr as [c |]; [| discriminate].
  destruct (Qeq_bool l 0) eqn:Hzero; [discriminate |].
  intros Hv. injection Hv as <-.
  assert (Hne : ~ l == 0).
  { intros Heq. apply Qeq_bool_iff in Heq. congruence. }
  exists l, c. repeat split; [exact Hne |]. field. exact Hne.
Qed.

(** When the first cohort has at least one month, capping is a prefix. *)
Lemma capped_row_take (first : list (option Q)) i rev :
  (1 <= length first)%nat ->
  capped_row (Z.of_nat (length first) - 1) i rev
  = take (length first - 1 - (i - 1)) (ratio_row rev).
Proof.
  intros Hfirst. unfold capped_row, max_len, slice_to.
  set (row := ratio_row rev).
  assert (Hcap : Z.to_nat (if (2 <=? i)%nat
                           then Z.max (Z.of_nat (length first) - 1 - (Z.of_nat i - 1)) 0
                           else (Z.of_nat (length first) - 1)%Z)
                 = (length first - 1 - (i - 1))%nat).
  { destruct (Nat.leb_spec 2 i); lia. }
  assert (Hnn : (0 <= (if (2 <=? i)%nat
                       then Z.max (Z.of_nat (length first) - 1 - (Z.of_nat i - 1)) 0
                       else (Z.of_nat (length first) - 1)%Z))%Z).
  { destruct (Nat.leb_spec 2 i); lia. }
  destruct (Z.ltb_spec
              (if (2 <=? i)%nat
               then Z.max (Z.of_nat (length first) - 1 - (Z.of_nat i - 1)) 0
               else (Z.of_nat (length first) - 1)%Z)
              (Z.of_nat (length row))) as [Hlt | Hge].
  - destruct (Z.leb_spec 0
                (if (2 <=? i)%nat
                 then Z.max (Z.of_nat (length first) - 1 - (Z.of_nat i - 1)) 0
                 else (Z.of_nat (length first) - 1)%Z)) as [_ | Hneg]; [| lia].
    rewrite Hcap. reflexivity.
  - rewrite take_ge by lia. reflexivity.
Qed.

End RetentionTableFacts.

(** X20. [get_retention_table] raises [IndexError] on an empty cohort list.
    When the first cohort has at least one month, it returns the number of
    columns (months minus one) and one row per cohort but the last; row i
    holds [min(columns - max(i - 1, 0), months of cohort i - 1)] cells, so
    from the third row on each row may be one cell shorter than the one
    before; a cell holds a ratio only when both months are numbers and the
    earlier one is not 0, and then the ratio times the earlier month's
    revenue is the later month's revenue. *)
Theorem X20_retention_table_is_triangular
    (cohorts_data : list (list (option Q))) (first : list (option Q)) :
  cohorts_data !! 0%nat = Some first ->
  (1 <= length first)%nat ->
  RetentionTable.get_retention_table [] = Py.Raise Py.IndexError
  /\ exists retention_table,
       RetentionTable.get_retention_table cohorts_data
       = Py.Ok (retention_table, (Z.of_nat (length first) - 1)%Z)
       /\ length retention_table = (length cohorts_data - 1)%nat
       /\ forall i row,
            retention_table !! i = Some row ->
            exists rev,
              cohorts_data !! i = Some rev
              /\ length row = Nat.min (length first - 1 - (i - 1)) (length rev - 1)
              /\ forall j v,
                   row !! j = Some (Some v) ->
                   exists l c,
                     rev !! j = Some (Some l) /\ rev !! S j = Some (Some c)
                     /\ ~ l == 0 /\ v * l == c.
Proof.
  intros Hfirst Hmonths. split; [reflexivity |].
  destruct cohorts_data as [| first' rest]; [discriminate |].
  cbn [lookup list_lookup] in Hfirst. injection Hfirst as ->.
  unfold RetentionTable.get_retention_table.
  set (rows := imap _ (first :: rest)).
  exists (take (length rows - 1) rows). split; [reflexivity |].
  assert (Hrows : length rows = length (first :: rest)) by (unfold rows; apply length_imap).
  split; [rewrite length_take; lia |].
  intros i row Hrow. apply lookup_take_Some in Hrow as [Hrow Hi].
  unfold rows in Hrow. rewrite list_lookup_imap in Hrow.
  destruct ((first :: rest) !! i) as [rev |] eqn:Hrev; [| discriminate].
  cbn in Hrow. injection Hrow as <-. exists rev. split; [reflexivity |].
  rewrite (capped_row_take first i rev Hmonths).
  split; [rewrite length_take, ratio_row_length; reflexivity |].
  intros j v Hcell. apply lookup_take_Some in Hcell as [Hcell _].
  apply ratio_row_lookup in Hcell as [Hj Hcell]. symmetry in Hcell.
  apply ratio_cell_Some in Hcell as (l & c & Hl & Hc & Hne & Hv).
  exists l, c.
  destruct (rev !! j) as [[l' |] |]; cbn in Hl; try discriminate. injection Hl as ->.
  destruct (rev !! S j) as [[c' |] |]; cbn in Hc; try discriminate. injection Hc as ->.
  auto.
Qed.

Lemma X20_retention_table_witness :
  sample_cohorts !! 0%nat = Some [Some 100; Some 90; Some 81; Some 80]
  /\ (1 <= 4)%nat
  /\ exists retention_table,
       RetentionTable.get_retention_table sample_cohorts = Py.Ok (retention_table, 3%Z)
       /\ length retention_table = 3%nat.
Proof.
  split; [reflexivity |]. split; [lia |].
  destruct (X20_retention_table_is_triangular sample_cohorts
              [Some 100; Some 90; Some 81; Some 80] eq_refl)
    as (_ & table & Htable & Hlen & _); [simpl; lia |].
  exists table. split; [exact Htable | exact Hlen].
Defined.

(** ** CohortCashFlowProjector: further properties *)

Section ProjectorRunFacts.

Import CohortCashFlowProjector.

(** The loop stops with [IndexError] at the first month the curve lacks. *)
Lemma project_revenue_short retention_curve months : forall prev month,
  month ∈ months -> (length retention_curve <= month)%nat ->
  project_revenue retention_curve prev months = Py.Raise Py.IndexError.
Proof.
  induction months as [| m rest IH]; intros prev month Hin Hshort; [inversion Hin |].
  rewrite project_revenue_cons.
  destruct (retention_curve !! m) as [ret |] eqn:Hret; [| reflexivity].
  apply elem_of_cons in Hin as [-> | Hin].
  - apply lookup_lt_Some in Hret. lia.
  - rewrite (IH _ month Hin Hshort). reflexivity.
Qed.

(** Only the curve entries of the months visited are read. *)
Lemma project_revenue_ext curve curve' months : forall prev,
  (forall month, month ∈ months -> curve !! month = curve' !! month) ->
  project_revenue curve prev months = project_revenue curve' prev months.
Proof.
  induction months as [| m rest IH]; intros prev Hsame; [reflexivity |].
  rewrite !project_revenue_cons, <- (Hsame m) by left.
  destruct (curve !! m) as [ret |]; [| reflexivity].
  rewrite (IH (next_revenue prev ret)) by (intros k Hk; apply Hsame; right; exact Hk).
  reflexivity.
Qed.

Lemma scaled_next first share revenue ret :
  scaled first share revenue ->
  scaled first (next_revenue share ret) (next_revenue revenue ret).
Proof.
  unfold scaled, next_revenue.
  destruct first as [f |], share as [c |], revenue as [v |], ret as [r |];
    try tauto; intros Hv; rewrite Hv; ring.
Qed.

End ProjectorRunFacts.

(** X21. A row of the revenue table fails with [IndexError] exactly when
    the retention curve has fewer than 60 entries.  Otherwise it has 60
    revenues, and the revenue of month n + 1 is the first revenue
    ([spend / ratio]) times the product of the curve entries of months 1 to
    n; it is null exactly when the ratio is 0 or one of these entries is
    null.  The curve's entry of month 0 is never read. *)
Theorem X21_revenue_is_first_revenue_times_retention
    (spend ratio : Q) (retention_curve : list (option Q)) :
  ((length retention_curve < 60)%nat ->
   CohortCashFlowProjector.revenue_columns spend ratio retention_curve
   = Py.Raise Py.IndexError)
  /\ ((60 <= length retention_curve)%nat ->
      exists revenues,
        CohortCashFlowProjector.revenue_columns spend ratio retention_curve = Py.Ok revenues
        /\ length revenues = 60%nat
        /\ forall n, (n < 60)%nat ->
             exists revenue,
               revenues !! n = Some revenue
               /\ match CohortCashFlowProjector.first_revenue spend ratio,
                        cumulative_retention retention_curve n, revenue with
                  | Some f, Some c, Some v => v == f * c
                  | None, _, None | _, None, None => True
                  | _, _, _ => False
                  end)
  /\ (forall entry,
        CohortCashFlowProjector.revenue_columns spend ratio (entry :: tail retention_curve)
        = CohortCashFlowProjector.revenue_columns spend ratio (None :: tail retention_curve)).
Proof.
  unfold CohortCashFlowProjector.revenue_columns, mbind, result_bind.
  set (first := CohortCashFlowProjector.first_revenue spend ratio).
  split; [| split].
  - intros Hshort.
    rewrite (project_revenue_short retention_curve (seq 1 59) first 59); [reflexivity | | lia].
    apply elem_of_seq. lia.
  - intros Hlong.
    destruct (project_revenue_total retention_curve (seq 1 59) first) as [rest Hrun].
    { intros month Hin. apply elem_of_seq in Hin. lia. }
    rewrite Hrun. cbn [Py.bind].
    pose proof (project_revenue_length _ _ _ _ Hrun) as Hrest. rewrite length_seq in Hrest.
    exists (first :: rest). split; [reflexivity |]. split; [simpl; lia |].
    intros n. induction n as [| n IH]; intros Hn.
    + exists first. split; [reflexivity |]. cbn [cumulative_retention].
      destruct first as [f |]; [| exact I]. ring.
    + destruct IH as (prev & Hprev & Hscaled); [lia |].
      destruct (project_revenue_step retention_curve (seq 1 59) first rest n (S n) Hrun)
        as (ret & Hret & Hnext).
      { rewrite lookup_seq. split; [reflexivity | lia]. }
      rewrite Hprev in Hnext. cbn [default] in Hnext. unfold id in Hnext.
      eexists. split; [exact Hnext |].
      cbn [cumulative_retention]. rewrite Hret. cbn [mjoin option_join].
      apply (scaled_next first _ prev ret). exact Hscaled.
  - intros entry.
    rewrite (project_revenue_ext (entry :: tail retention_curve)
               (None :: tail retention_curve) (seq 1 59) first); [reflexivity |].
    intros month Hin. apply elem_of_seq in Hin.
    destruct month as [| month]; [lia | reflexivity].
Qed.

(** ** From the gross-profit table to the lender's cash flows *)

Lemma cells_rebuild (cells : list (option Q)) :
  map (fun month => default 0 (mjoin (cells !! month))) (seq 0 (length cells))
  = map (default 0) cells.
Proof.
  induction cells as [| cell cells IH]; [reflexivity |].
  cbn [length seq map]. rewrite <- seq_shift, map_map, <- IH.
  destruct cell; reflexivity.
Qed.

Lemma stored_spend_read_back (spend : Q) : 0 <= spend -> - Qabs (- spend) = - spend.
Proof.
  destruct spend as [n d]. unfold Qle. cbn [Qnum Qden Qabs Qopp]. intros Hn.
  rewrite Z.abs_opp, Z.abs_eq by lia. reflexivity.
Qed.


